(** * crosspost-webapp: the publish validation-and-dispatch pipeline

    A shallow embedding of the compose pane's validation
    ([getValidationErrors], [countCharacters]) and of the local helper's
    credential resolution, payload building, secret storage and relay
    ([resolveTargetsFromSelection], [buildGatewayPayload], [relayUpstream]
    and the [/api/settings], [/api/settings/secrets] and [/api/posts]
    handlers), followed by the properties proved about them.  The
    embedding also covers the edits of the draft and [buildPayload] in the
    compose pane, the handlers of the helper that pass a request on to the
    gateway, and the base path and the error handling of the browser
    client.

    Conventions of the embedding:
    - a JavaScript string is the list of its UTF-16 code units;
    - request bodies are parsed JSON values, read with the same property
      lookups, [typeof] tests and truthiness tests as the helper's code;
    - the error list of the validation is a list of [Violation]s, one
      constructor per message template, rendered by [message];
    - a handler is a function of the world it runs in (keychain entry,
      configuration, log of keychain writes and of upstream calls) that
      continues, replies early or throws;
    - built-ins whose behaviour is fixed by the JavaScript runtime ([URL],
      [Headers], [JSON.parse], [Date], [String], [Number]) and the error
      messages of the multipart plugin are the fields of the class
      [Runtime]; every theorem holds for every runtime. *)

From Stdlib Require Import List ZArith NArith Bool Lia String Ascii.
From Stdlib Require Import Numbers.DecimalString.
Import ListNotations.

Local Open Scope Z_scope.
Local Open Scope list_scope.

(* ================================================================== *)
(** ** JavaScript strings *)
(* ================================================================== *)

(** A JavaScript string is a sequence of UTF-16 code units. *)
Definition char16 := N.
Definition jsstring := list char16.

(** An ASCII literal as a JavaScript string. *)
Definition js (s : string) : jsstring :=
  map N_of_ascii (list_ascii_of_string s).
Arguments js s%_string.

Definition jseqb (a b : jsstring) : bool :=
  if list_eq_dec N.eq_dec a b then true else false.

(** [WhiteSpace] and [LineTerminator] of ECMA-262, the code units that
    [String.prototype.trim] strips. *)
Definition isWhiteSpace (c : char16) : bool :=
  (((9 <=? c) && (c <=? 13)) || (c =? 32) || (c =? 160) || (c =? 5760)
   || ((8192 <=? c) && (c <=? 8202)) || (c =? 8232) || (c =? 8233)
   || (c =? 8239) || (c =? 8287) || (c =? 12288) || (c =? 65279))%N.

Fixpoint trimStart (s : jsstring) : jsstring :=
  match s with
  | [] => []
  | c :: rest => if isWhiteSpace c then trimStart rest else s
  end.

Definition trimEnd (s : jsstring) : jsstring := rev (trimStart (rev s)).

Definition trim (s : jsstring) : jsstring := trimEnd (trimStart s).

Fixpoint startsWith (s prefix : jsstring) : bool :=
  match prefix, s with
  | [], _ => true
  | _ :: _, [] => false
  | p :: prefix', c :: s' => (p =? c)%N && startsWith s' prefix'
  end.

Fixpoint includes (s needle : jsstring) : bool :=
  startsWith s needle
  || match s with
     | [] => false
     | _ :: s' => includes s' needle
     end.

(** [Array.prototype.join]. *)
Fixpoint join (sep : jsstring) (parts : list jsstring) : jsstring :=
  match parts with
  | [] => []
  | [p] => p
  | p :: rest => p ++ sep ++ join sep rest
  end.

(** Decimal rendering of an integer in a template literal. *)
Definition decimal (n : Z) : jsstring := js (NilZero.string_of_int (Z.to_int n)).

(** Surrogate code units. *)
Definition isHighSurrogate (c : char16) : bool := ((55296 <=? c) && (c <=? 56319))%N.
Definition isLowSurrogate (c : char16) : bool := ((56320 <=? c) && (c <=? 57343))%N.

(** The string iterator behind the spread [[...input]]: one element per
    code point, a well-formed surrogate pair counting as one and a lone
    surrogate as one. *)
Fixpoint spread (input : jsstring) : list jsstring :=
  match input with
  | [] => []
  | c :: rest =>
      if isHighSurrogate c then
        match rest with
        | d :: rest' =>
            if isLowSurrogate d then [c; d] :: spread rest'
            else [c] :: spread rest
        | [] => [[c]]
        end
      else [c] :: spread rest
  end.

(** Compose pane (unnamed/part_001), [countCharacters]. *)
Definition countCharacters (input : jsstring) : Z :=
  Z.of_nat (List.length (spread input)).


(* ================================================================== *)
(** ** JSON values and the runtime *)
(* ================================================================== *)

(** A parsed JSON document.  Numbers are represented by their integer
    value; an object is the list of its own properties in insertion order. *)
#[local] Set Warnings "-register-all".
Inductive json : Type :=
| JNull
| JBool (b : bool)
| JNum (n : Z)
| JStr (s : jsstring)
| JArr (items : list json)
| JObj (props : list (jsstring * json)).

(** A property read [v.key] or [v?.key]; [None] is [undefined].  Only
    objects carry the property names the helper reads. *)
Fixpoint lookup (key : jsstring) (props : list (jsstring * json)) : option json :=
  match props with
  | [] => None
  | (k, v) :: rest => if jseqb k key then Some v else lookup key rest
  end.

Definition getProp (v : option json) (key : jsstring) : option json :=
  match v with
  | Some (JObj props) => lookup key props
  | _ => None
  end.

(** [Object.hasOwn(v, key)]. *)
Definition hasOwn (v : json) (key : jsstring) : bool :=
  match getProp (Some v) key with
  | Some _ => true
  | None => false
  end.

(** [Boolean(v)]. *)
Definition truthy (v : option json) : bool :=
  match v with
  | None | Some JNull => false
  | Some (JBool b) => b
  | Some (JNum n) => negb (n =? 0)
  | Some (JStr s) => match s with [] => false | _ => true end
  | Some (JArr _) | Some (JObj _) => true
  end.

(** [Object.values(v)]. *)
Definition objectValues (v : json) : list json :=
  match v with
  | JObj props => map snd props
  | JArr items => items
  | JStr s => map (fun c => JStr [c]) s
  | _ => []
  end.

(** The built-ins of the JavaScript runtime that the program calls and
    the messages of the multipart plugin, whose behaviour is fixed outside
    this repository. *)
Class Runtime : Type := {
  (** [!Number.isNaN(new Date(s).getTime())] *)
  dateIsValid : jsstring -> bool;
  (** [JSON.parse(s)]; [None] when it throws. *)
  JSON_parse : jsstring -> option json;
  (** [String(v)] *)
  String_of : json -> jsstring;
  (** [Number(s)] for a string [s], when [Number.isInteger] accepts it. *)
  integerOfString : jsstring -> option Z;
  (** The WHATWG [URL] class. *)
  URL : Type;
  (** [new URL(s)]; [None] when it throws. *)
  URL_new : jsstring -> option URL;
  URL_protocol : URL -> jsstring;
  URL_pathname : URL -> jsstring;
  URL_setPathname : URL -> jsstring -> URL;
  URL_setSearch : URL -> jsstring -> URL;
  URL_setHash : URL -> jsstring -> URL;
  URL_toString : URL -> jsstring;
  (** [new URL(url, base)], or the message of the [TypeError] it throws. *)
  URL_newWithBase : jsstring -> jsstring -> URL + jsstring;
  (** The value [headers.set(name, value)] stores on a [Headers] object,
      or the message of the [TypeError] it throws for a value that is not
      a header value. *)
  Headers_set : jsstring -> jsstring -> jsstring + jsstring;
  (** The messages of the errors the multipart plugin throws when a
      request has too many files and when a file is too large. *)
  filesLimitMessage : jsstring;
  fileTooLargeMessage : jsstring;
}.

(* ================================================================== *)
(** ** Data model (src/lib/types.ts) *)
(* ================================================================== *)

Inductive Platform := PX | PBluesky | PMastodon.

Definition platformName (p : Platform) : jsstring :=
  match p with
  | PX => js "x"
  | PBluesky => js "bluesky"
  | PMastodon => js "mastodon"
  end.

Record ThreadSegment := { seg_text : jsstring }.

Record TargetSelection := {
  sel_x : bool;
  sel_bluesky : bool;
  sel_mastodon : bool;
}.

(** The part of a browser [File] the compose pane reads. *)
Record File := {
  file_name : jsstring;
  file_type : jsstring;
  file_size : Z;
}.

Record DraftMedia := {
  media_id : jsstring;
  media_file : File;
  media_threadIndex : Z;
  media_altText : jsstring;
}.

Inductive Mode := single | thread_mode.

Record ComposeDraft := {
  mode : Mode;
  text : jsstring;
  thread : list ThreadSegment;
  scheduleAt : jsstring;
  selectedTargets : TargetSelection;
  clientRequestId : jsstring;
  media : list DraftMedia;
}.

Record XLimits := {
  x_maxCharacters : Z;
  x_assumedUserTier : jsstring;
}.

Record BlueskyLimits := {
  bsky_maxCharacters : Z;
  bsky_mediaRule : jsstring;
}.

Record MastodonLimits := {
  masto_instanceUrl : jsstring;
  masto_maxCharacters : Z;
  masto_maxMediaAttachments : Z;
}.

Record LimitsResponse := {
  limits_x : XLimits;
  limits_bluesky : BlueskyLimits;
  limits_mastodon : option MastodonLimits;
}.

Record ProblemDetails := {
  pd_type : jsstring;
  pd_title : jsstring;
  pd_status : Z;
  pd_detail : jsstring;
}.

(* ================================================================== *)
(** ** Compose pane: validation (unnamed/part_001) *)
(* ================================================================== *)

(** The label of a text segment in a limit message: ['Post'] in single
    mode, [`Segment ${index + 1}`] in thread mode. *)
Inductive Label :=
| LPost
| LSegment (index : Z).

(** One constructor per [errors.push] of [getValidationErrors]; the
    arguments are the values interpolated into the message. *)
Inductive Violation :=
| SelectTarget
| AddPostText
| EmptyThreadSegment
| ExceedsX (label : Label) (length limit : Z)
| ExceedsBluesky (label : Label) (length limit : Z)
| ExceedsMastodon (label : Label) (length limit : Z)
| BlueskyOneVideo (threadIndex : Z)
| BlueskyMixedMedia (threadIndex : Z)
| BlueskyFourImages (threadIndex : Z)
| MastodonMaxMedia (threadIndex total limit : Z)
| ScheduleMissing
| ScheduleInvalid.

Definition labelText (l : Label) : jsstring :=
  match l with
  | LPost => js "Post"
  | LSegment index => js "Segment " ++ decimal (index + 1)
  end.

(** The message pushed for a violation. *)
Definition message (v : Violation) : jsstring :=
  match v with
  | SelectTarget => js "Select at least one target platform."
  | AddPostText => js "Add post text before publishing."
  | EmptyThreadSegment => js "Each thread segment should contain text."
  | ExceedsX l len lim =>
      labelText l ++ js " exceeds X limit (" ++ decimal len ++ js "/"
        ++ decimal lim ++ js ")."
  | ExceedsBluesky l len lim =>
      labelText l ++ js " exceeds Bluesky limit (" ++ decimal len ++ js "/"
        ++ decimal lim ++ js ")."
  | ExceedsMastodon l len lim =>
      labelText l ++ js " exceeds Mastodon limit (" ++ decimal len ++ js "/"
        ++ decimal lim ++ js ")."
  | BlueskyOneVideo i =>
      js "Bluesky segment " ++ decimal (i + 1) ++ js " allows only one video."
  | BlueskyMixedMedia i =>
      js "Bluesky segment " ++ decimal (i + 1)
        ++ js " cannot mix video and images together."
  | BlueskyFourImages i =>
      js "Bluesky segment " ++ decimal (i + 1) ++ js " supports up to 4 images."
  | MastodonMaxMedia i total lim =>
      js "Mastodon segment " ++ decimal (i + 1) ++ js " exceeds max media ("
        ++ decimal total ++ js "/" ++ decimal lim ++ js ")."
  | ScheduleMissing => js "Set a schedule date/time before scheduling."
  | ScheduleInvalid => js "Schedule date/time is invalid."
  end.

(** A [Map<number, V>]: entries in insertion order, one per key. *)
Definition NumMap (V : Type) := list (Z * V).

Fixpoint mapGet {V} (m : NumMap V) (key : Z) : option V :=
  match m with
  | [] => None
  | (k, v) :: rest => if k =? key then Some v else mapGet rest key
  end.

Fixpoint mapSet {V} (m : NumMap V) (key : Z) (value : V) : NumMap V :=
  match m with
  | [] => [(key, value)]
  | (k, v) :: rest =>
      if k =? key then (k, value) :: rest else (k, v) :: mapSet rest key value
  end.

(** [arr.map((value, index) => f(value, index))], indices from [start]. *)
Fixpoint mapIndexed {A B} (f : A -> Z -> B) (start : Z) (arr : list A) : list B :=
  match arr with
  | [] => []
  | a :: rest => f a start :: mapIndexed f (start + 1) rest
  end.

Definition isVideo (entry : DraftMedia) : bool :=
  startsWith (file_type (media_file entry)) (js "video/").

Definition isImage (entry : DraftMedia) : bool :=
  startsWith (file_type (media_file entry)) (js "image/").

(** The first loop of the Bluesky media check: media grouped by
    [threadIndex]. *)
Definition groupMedia (entries : list DraftMedia) : NumMap (list DraftMedia) :=
  fold_left
    (fun mediaBySegment entry =>
       let existing :=
         match mapGet mediaBySegment (media_threadIndex entry) with
         | Some l => l
         | None => []
         end in
       mapSet mediaBySegment (media_threadIndex entry) (existing ++ [entry]))
    entries [].

(** The first loop of the Mastodon media check: media counted by
    [threadIndex]. *)
Definition countMedia (entries : list DraftMedia) : NumMap Z :=
  fold_left
    (fun mediaBySegment entry =>
       let existing :=
         match mapGet mediaBySegment (media_threadIndex entry) with
         | Some n => n
         | None => 0
         end in
       mapSet mediaBySegment (media_threadIndex entry) (existing + 1))
    entries [].

Definition when (c : bool) (v : Violation) : list Violation :=
  if c then [v] else [].

(** The body of the loop over [mediaBySegment.entries()] in the Bluesky
    media check. *)
Definition blueskySegmentErrors (threadIndex : Z) (entries : list DraftMedia)
  : list Violation :=
  let videos := filter isVideo entries in
  let images := filter isImage entries in
  when (1 <? Z.of_nat (List.length videos)) (BlueskyOneVideo threadIndex)
  ++ when ((Z.of_nat (List.length videos) =? 1)
           && (0 <? Z.of_nat (List.length images)))
       (BlueskyMixedMedia threadIndex)
  ++ when ((Z.of_nat (List.length videos) =? 0)
           && (4 <? Z.of_nat (List.length images)))
       (BlueskyFourImages threadIndex).

Section ComposePane.
Context `{Runtime}.

(** The character-limit checks of one trimmed segment. *)
Definition segmentLimitErrors (d : ComposeDraft) (limits : option LimitsResponse)
  (segment : jsstring) (index : Z) : list Violation :=
  let xLimit :=
    match limits with
    | Some l => x_maxCharacters (limits_x l)
    | None => 280
    end in
  let blueskyLimit :=
    match limits with
    | Some l => bsky_maxCharacters (limits_bluesky l)
    | None => 300
    end in
  let mastodonLimit :=
    match limits with
    | Some l => option_map masto_maxCharacters (limits_mastodon l)
    | None => None
    end in
  let label :=
    match mode d with
    | single => LPost
    | thread_mode => LSegment index
    end in
  let length := countCharacters segment in
  when (sel_x (selectedTargets d) && (xLimit <? length))
    (ExceedsX label length xLimit)
  ++ when (sel_bluesky (selectedTargets d) && (blueskyLimit <? length))
       (ExceedsBluesky label length blueskyLimit)
  ++ match mastodonLimit with
     | Some mastodonLimit =>
         when (sel_mastodon (selectedTargets d) && negb (mastodonLimit =? 0)
               && (mastodonLimit <? length))
           (ExceedsMastodon label length mastodonLimit)
     | None => []
     end.

(** Compose pane (unnamed/part_001), [getValidationErrors]; the draft and
    the limits are the component state the function closes over. *)
Definition getValidationErrors (d : ComposeDraft) (limits : option LimitsResponse)
  (wantsSchedule : bool) : list Violation :=
  let hasSelectedTarget :=
    existsb (fun b => b)
      [sel_x (selectedTargets d); sel_bluesky (selectedTargets d);
       sel_mastodon (selectedTargets d)] in
  let texts :=
    match mode d with
    | single => [text d]
    | thread_mode => map seg_text (thread d)
    end in
  let trimmedSegments := map trim texts in
  let isEmpty := fun value : jsstring => (Z.of_nat (List.length value) =? 0) in
  when (negb hasSelectedTarget) SelectTarget
  ++ when (forallb isEmpty trimmedSegments) AddPostText
  ++ when (match mode d with thread_mode => true | single => false end
           && existsb isEmpty trimmedSegments)
       EmptyThreadSegment
  ++ List.concat (mapIndexed (segmentLimitErrors d limits) 0 trimmedSegments)
  ++ (if sel_bluesky (selectedTargets d) then
        flat_map (fun '(threadIndex, entries) =>
                    blueskySegmentErrors threadIndex entries)
          (groupMedia (media d))
      else [])
  ++ match limits with
     | Some l =>
         match limits_mastodon l with
         | Some m =>
             if sel_mastodon (selectedTargets d)
                && negb (masto_maxMediaAttachments m =? 0)
             then
               flat_map (fun '(threadIndex, total) =>
                           when (masto_maxMediaAttachments m <? total)
                             (MastodonMaxMedia threadIndex total
                                (masto_maxMediaAttachments m)))
                 (countMedia (media d))
             else []
         | None => []
         end
     | None => []
     end
  ++ (if wantsSchedule then
        match trim (scheduleAt d) with
        | [] => [ScheduleMissing]
        | _ :: _ =>
            if dateIsValid (scheduleAt d) then [] else [ScheduleInvalid]
        end
      else []).

(** The strings [getValidationErrors] returns. *)
Definition getValidationMessages (d : ComposeDraft) (limits : option LimitsResponse)
  (wantsSchedule : bool) : list jsstring :=
  map message (getValidationErrors d limits wantsSchedule).

End ComposePane.

(* ================================================================== *)
(** ** Local helper: stored secrets and gateway payloads *)
(* ================================================================== *)

(** The secrets object kept in the keychain.  Every property is optional:
    [None] is an absent ([undefined] or [null]) property. *)
Record XSecret := { xs_authToken : option jsstring }.

Record BlueskySecret := {
  bs_identifier : option jsstring;
  bs_pdsUrl : option jsstring;
  bs_appPassword : option jsstring;
}.

Record MastodonSecret := {
  ms_instanceUrl : option jsstring;
  ms_accessToken : option jsstring;
  ms_visibility : option jsstring;
}.

Record StoredSecrets := {
  gatewayApiKey : option jsstring;
  secret_x : option XSecret;
  secret_bluesky : option BlueskySecret;
  secret_mastodon : option MastodonSecret;
}.

(** The empty object [{}]. *)
Definition noSecrets : StoredSecrets :=
  {| gatewayApiKey := None; secret_x := None; secret_bluesky := None;
     secret_mastodon := None |}.

(** Optional chaining [o?.field]. *)
Definition chain {A B} (o : option A) (field : A -> option B) : option B :=
  match o with
  | Some a => field a
  | None => None
  end.

(** Truthiness of an optional string: present and not empty. *)
Definition present (v : option jsstring) : bool :=
  match v with
  | Some (_ :: _) => true
  | _ => false
  end.

(** Nullish coalescing [v ?? fallback]. *)
Definition orElse {A} (v : option A) (fallback : A) : A :=
  match v with
  | Some a => a
  | None => fallback
  end.

Record Configured := {
  cfg_gatewayApiKey : bool;
  cfg_x : bool;
  cfg_bluesky : bool;
  cfg_mastodon : bool;
}.

(** Helper server (src/lib/types.ts), [summarizeSecrets]. *)
Definition summarizeSecrets (secrets : StoredSecrets) : Configured :=
  {| cfg_gatewayApiKey := present (gatewayApiKey secrets);
     cfg_x := present (chain (secret_x secrets) xs_authToken);
     cfg_bluesky :=
       present (chain (secret_bluesky secrets) bs_identifier)
       && present (chain (secret_bluesky secrets) bs_pdsUrl)
       && present (chain (secret_bluesky secrets) bs_appPassword);
     cfg_mastodon :=
       present (chain (secret_mastodon secrets) ms_instanceUrl)
       && present (chain (secret_mastodon secrets) ms_accessToken) |}.

(** The authenticated per-platform blocks sent upstream. *)
Record XTarget := {
  xt_authToken : option jsstring;
  xt_client : jsstring;
}.

Record BlueskyTarget := {
  bt_identifier : option jsstring;
  bt_pdsUrl : option jsstring;
  bt_appPassword : option jsstring;
}.

Record MastodonTarget := {
  mt_instanceUrl : option jsstring;
  mt_accessToken : option jsstring;
  mt_visibility : jsstring;
}.

Record Targets := {
  target_x : option XTarget;
  target_bluesky : option BlueskyTarget;
  target_mastodon : option MastodonTarget;
}.

Definition noTargets : Targets :=
  {| target_x := None; target_bluesky := None; target_mastodon := None |}.

(** The assignments [targets.x = ...], [targets.bluesky = ...] and
    [targets.mastodon = ...]. *)
Definition withX (t : Targets) (block : XTarget) : Targets :=
  {| target_x := Some block; target_bluesky := target_bluesky t;
     target_mastodon := target_mastodon t |}.

Definition withBluesky (t : Targets) (block : BlueskyTarget) : Targets :=
  {| target_x := target_x t; target_bluesky := Some block;
     target_mastodon := target_mastodon t |}.

Definition withMastodon (t : Targets) (block : MastodonTarget) : Targets :=
  {| target_x := target_x t; target_bluesky := target_bluesky t;
     target_mastodon := Some block |}.

Record Resolved := {
  targets : Targets;
  missing : list jsstring;
  selectedCount : Z;
}.

(** Helper server (src/lib/types.ts), [resolveTargetsFromSelection].
    [requestedTargets] is the [selectedTargets] property of the client
    payload; [missing] and [targets] are threaded through the three
    platform blocks as the function mutates them. *)
Definition resolveTargetsFromSelection (secrets : StoredSecrets)
  (requestedTargets : option json) : Resolved :=
  let hasX := present (chain (secret_x secrets) xs_authToken) in
  let hasBluesky :=
    present (chain (secret_bluesky secrets) bs_identifier)
    && present (chain (secret_bluesky secrets) bs_pdsUrl)
    && present (chain (secret_bluesky secrets) bs_appPassword) in
  let hasMastodon :=
    present (chain (secret_mastodon secrets) ms_instanceUrl)
    && present (chain (secret_mastodon secrets) ms_accessToken) in
  let selected :=
    match requestedTargets with
    | None | Some JNull =>
        JObj [(js "x", JBool hasX); (js "bluesky", JBool hasBluesky);
              (js "mastodon", JBool hasMastodon)]
    | Some requested => requested
    end in
  let wants := fun key => truthy (getProp (Some selected) (js key)) in
  let missing : list jsstring := [] in
  let targets := noTargets in
  let '(missing, targets) :=
    if wants "x"%string then
      if negb hasX then (missing ++ [js "x"], targets)
      else
        (missing,
         withX targets
           {| xt_authToken := chain (secret_x secrets) xs_authToken;
              xt_client := js "web" |})
    else (missing, targets) in
  let '(missing, targets) :=
    if wants "bluesky"%string then
      if negb hasBluesky then (missing ++ [js "bluesky"], targets)
      else
        (missing,
         withBluesky targets
           {| bt_identifier := chain (secret_bluesky secrets) bs_identifier;
              bt_pdsUrl := chain (secret_bluesky secrets) bs_pdsUrl;
              bt_appPassword := chain (secret_bluesky secrets) bs_appPassword |})
    else (missing, targets) in
  let '(missing, targets) :=
    if wants "mastodon"%string then
      if negb hasMastodon then (missing ++ [js "mastodon"], targets)
      else
        (missing,
         withMastodon targets
           {| mt_instanceUrl := chain (secret_mastodon secrets) ms_instanceUrl;
              mt_accessToken := chain (secret_mastodon secrets) ms_accessToken;
              mt_visibility :=
                orElse (chain (secret_mastodon secrets) ms_visibility)
                  (js "public") |})
    else (missing, targets) in
  {| targets := targets;
     missing := missing;
     selectedCount :=
       Z.of_nat
         (List.length (filter (fun v => truthy (Some v)) (objectValues selected)))
  |}.

(** The JSON a well-typed [TargetSelection] arrives as. *)
Definition selectionJson (s : TargetSelection) : json :=
  JObj [(js "x", JBool (sel_x s)); (js "bluesky", JBool (sel_bluesky s));
        (js "mastodon", JBool (sel_mastodon s))].

Record MediaMeta := {
  mm_threadIndex : Z;
  mm_altText : option jsstring;
}.

Record GatewayPayload := {
  gp_targets : Targets;
  gp_text : option jsstring;
  gp_thread : option (list ThreadSegment);
  gp_scheduleAt : option jsstring;
  gp_clientRequestId : option jsstring;
  gp_media : option (list MediaMeta);
}.

(** [s.replace(/\/$/, '')]: one trailing slash removed. *)
Definition dropTrailingSlash (s : jsstring) : jsstring :=
  match rev s with
  | c :: rest => if (c =? 47)%N then rev rest else s
  | [] => s
  end.

(** Helper server (src/lib/types.ts), [trimToUndefined]. *)
Definition trimToUndefined (value : option json) : option jsstring :=
  match value with
  | Some (JStr s) =>
      match trim s with
      | [] => None
      | trimmed => Some trimmed
      end
  | _ => None
  end.

Section HelperPure.
Context `{Runtime}.

(** Helper server (src/lib/types.ts), [normalizeBaseUrl]; [None] is [null]. *)
Definition normalizeBaseUrl (input : option json) : option jsstring :=
  match input with
  | Some (JStr s) =>
      match trim s with
      | [] => None
      | trimmed =>
          match URL_new trimmed with
          | None => None
          | Some normalized =>
              if negb (jseqb (URL_protocol normalized) (js "http:"))
                 && negb (jseqb (URL_protocol normalized) (js "https:"))
              then None
              else
                let normalized :=
                  URL_setPathname normalized
                    (dropTrailingSlash (URL_pathname normalized)) in
                let normalized := URL_setSearch normalized [] in
                let normalized := URL_setHash normalized [] in
                Some (dropTrailingSlash (URL_toString normalized))
          end
      end
  | _ => None
  end.

(** Helper server (src/lib/types.ts), [sanitizeThread]; [None] is [undefined]. *)
Definition sanitizeThread (thread : option json) : option (list ThreadSegment) :=
  match thread with
  | Some (JArr items) =>
      let normalized :=
        map (fun segment =>
               {| seg_text :=
                    match getProp (Some segment) (js "text") with
                    | Some (JStr s) => s
                    | None | Some JNull => []
                    | Some other => String_of other
                    end |})
          items in
      if 0 <? Z.of_nat (List.length normalized) then Some normalized else None
  | _ => None
  end.

(** [Number(v)] when [Number.isInteger] accepts the result. *)
Definition integerOf (v : option json) : option Z :=
  match v with
  | None => None
  | Some JNull => Some 0
  | Some (JBool b) => Some (if b then 1 else 0)
  | Some (JNum n) => Some n
  | Some (JStr s) => integerOfString s
  | Some other => integerOfString (String_of other)
  end.

(** Helper server (src/lib/types.ts), [sanitizeMedia]. *)
Definition sanitizeMedia (media : option json) : option (list MediaMeta) :=
  match media with
  | Some (JArr items) =>
      let normalized :=
        flat_map
          (fun item =>
             match integerOf (getProp (Some item) (js "threadIndex")) with
             | Some threadIndex =>
                 if threadIndex <? 0 then []
                 else
                   [{| mm_threadIndex := threadIndex;
                       mm_altText :=
                         match getProp (Some item) (js "altText") with
                         | Some (JStr alt) =>
                             match trim alt with
                             | [] => None
                             | trimmed => Some trimmed
                             end
                         | _ => None
                         end |}]
             | None => []
             end)
          items in
      if 0 <? Z.of_nat (List.length normalized) then Some normalized else None
  | _ => None
  end.

(** Helper server (src/lib/types.ts), [buildGatewayPayload]. *)
Definition buildGatewayPayload (clientPayload : json) (targets : Targets)
  : GatewayPayload :=
  {| gp_targets := targets;
     gp_text :=
       match getProp (Some clientPayload) (js "text") with
       | Some (JStr s) =>
           if 0 <? Z.of_nat (List.length s) then Some s else None
       | _ => None
       end;
     gp_thread := sanitizeThread (getProp (Some clientPayload) (js "thread"));
     gp_scheduleAt :=
       match getProp (Some clientPayload) (js "scheduleAt") with
       | Some (JStr s) =>
           if 0 <? Z.of_nat (List.length (trim s)) then Some s else None
       | _ => None
       end;
     gp_clientRequestId :=
       match getProp (Some clientPayload) (js "clientRequestId") with
       | Some (JStr s) =>
           if 0 <? Z.of_nat (List.length (trim s)) then Some (trim s) else None
       | _ => None
       end;
     gp_media := sanitizeMedia (getProp (Some clientPayload) (js "media")) |}.

End HelperPure.

(* ================================================================== *)
(** ** Local helper: requests, replies and the handler monad *)
(* ================================================================== *)

Record Profile := {
  blueskyIdentifier : jsstring;
  blueskyPdsUrl : jsstring;
  mastodonInstanceUrl : jsstring;
  mastodonVisibility : jsstring;
}.

(** What a handler sends: a ProblemDetails object, the settings objects
    of [/api/settings] and [/api/settings/secrets], or a relayed upstream
    payload (parsed JSON or raw text). *)
Inductive Body :=
| ProblemBody (p : ProblemDetails)
| SettingsBody (gatewayBaseUrl : jsstring) (configured : Configured) (profile : Profile)
| SavedBody (configured : Configured) (profile : Profile)
| JsonBody (payload : json)
| TextBody (payload : jsstring).

Record Reply := {
  code : Z;
  contentType : option jsstring;
  body : Body;
}.

(** One uploaded file part, as buffered by the multipart branch. *)
Record UploadedMedia := {
  um_filename : jsstring;
  um_mimetype : jsstring;
  um_data : list N;
}.

Inductive FetchBody :=
| NoBody
| JsonPayload (payload : GatewayPayload)
| FormData (payload : GatewayPayload) (media : list UploadedMedia).

(** A call of [fetch] made by [gatewayFetch]: the URL fetched, the
    method, the [Authorization] and [content-type] headers and the body. *)
Record UpstreamRequest := {
  up_url : jsstring;
  up_method : jsstring;
  up_authorization : jsstring;
  up_contentType : option jsstring;
  up_body : FetchBody;
}.

Record UpstreamResponse := {
  ur_status : Z;
  ur_contentType : option jsstring;
  ur_text : jsstring;
}.

Inductive JsError :=
| HelperError (status : Z) (msg : jsstring)
| OtherError (msg : jsstring).

Definition errorMessage (e : JsError) : jsstring :=
  match e with
  | HelperError _ msg => msg
  | OtherError msg => msg
  end.

(** What the helper reads and writes outside its own memory: the keychain
    entry ([None] when absent or unparsable), the gateway URL of the
    configuration file, and the logs of keychain writes and upstream calls. *)
Record World := {
  keychain : option StoredSecrets;
  gatewayBaseUrl : jsstring;
  keychainWrites : list StoredSecrets;
  fetches : list UpstreamRequest;
}.

(** A handler step continues with a value, returns a reply early, or
    throws. *)
Inductive Outcome (A : Type) :=
| Continue (a : A)
| Return (r : Reply)
| Throw (e : JsError).
Arguments Continue {A} a.
Arguments Return {A} r.
Arguments Throw {A} e.

Definition Handler (A : Type) := World -> Outcome A * World.

Definition ret {A} (a : A) : Handler A := fun w => (Continue a, w).

Definition bind {A B} (h : Handler A) (k : A -> Handler B) : Handler B :=
  fun w =>
    match h w with
    | (Continue a, w') => k a w'
    | (Return r, w') => (Return r, w')
    | (Throw e, w') => (Throw e, w')
    end.

Definition send {A} (r : Reply) : Handler A := fun w => (Return r, w).

Definition throw {A} (e : JsError) : Handler A := fun w => (Throw e, w).

Definition tryCatch {A} (block : Handler A) (handler : JsError -> Handler A)
  : Handler A :=
  fun w =>
    match block w with
    | (Throw e, w') => handler e w'
    | other => other
    end.

Notation "x <- h ;; k" := (bind h (fun x => k))
  (at level 61, h at next level, right associativity).
Notation "h ;;; k" := (bind h (fun _ => k))
  (at level 61, right associativity).

(** The reply the framework produces from a finished handler: the value
    it returned is sent with status 200 by [ok] below; an uncaught error
    becomes the framework's own 500. *)
Definition respond (h : Handler Reply) (w : World) : Reply * World :=
  match h w with
  | (Continue r, w') => (r, w')
  | (Return r, w') => (r, w')
  | (Throw e, w') =>
      ({| code := 500; contentType := None; body := TextBody (errorMessage e) |}, w')
  end.

(** Helper server (src/lib/types.ts), [problem]. *)
Definition problem (status : Z) (title detail : jsstring) : ProblemDetails :=
  {| pd_type := js "about:blank"; pd_title := title; pd_status := status;
     pd_detail := detail |}.

(** [reply.code(status).send(problem(status, title, detail))]. *)
Definition problemReply (status : Z) (title detail : jsstring) : Reply :=
  {| code := status; contentType := None;
     body := ProblemBody (problem status title detail) |}.

(** A handler returning an object: sent as JSON with status 200. *)
Definition ok (b : Body) : Reply :=
  {| code := 200; contentType := None; body := b |}.

(** Helper server (src/lib/types.ts), [readSecrets]. *)
Definition readSecrets : Handler StoredSecrets :=
  fun w => (Continue (orElse (keychain w) noSecrets), w).

(** Helper server (src/lib/types.ts), [writeSecrets]. *)
Definition writeSecrets (nextSecrets : StoredSecrets) : Handler unit :=
  fun w =>
    (Continue tt,
     {| keychain := Some nextSecrets;
        gatewayBaseUrl := gatewayBaseUrl w;
        keychainWrites := keychainWrites w ++ [nextSecrets];
        fetches := fetches w |}).

(** Helper server (src/lib/types.ts), [readConfig]. *)
Definition readConfig : Handler jsstring :=
  fun w => (Continue (gatewayBaseUrl w), w).

(** [request.body && typeof request.body === 'object' ? request.body : {}]. *)
Definition bodyObject (requestBody : option json) : json :=
  match requestBody with
  | Some (JObj props) => JObj props
  | Some (JArr items) => JArr items
  | _ => JObj []
  end.

(** The [profile] object both settings handlers build. *)
Definition profileOf (secrets : StoredSecrets) : Profile :=
  {| blueskyIdentifier := orElse (chain (secret_bluesky secrets) bs_identifier) [];
     blueskyPdsUrl :=
       orElse (chain (secret_bluesky secrets) bs_pdsUrl) (js "https://bsky.social");
     mastodonInstanceUrl :=
       orElse (chain (secret_mastodon secrets) ms_instanceUrl) [];
     mastodonVisibility :=
       orElse (chain (secret_mastodon secrets) ms_visibility) (js "public") |}.

(** Helper server (src/lib/types.ts), [app.get('/api/settings')]. *)
Definition getSettings : Handler Reply :=
  config <- readConfig ;;
  secrets <- readSecrets ;;
  ret (ok (SettingsBody config (summarizeSecrets secrets) (profileOf secrets))).

(** Updates of the copy [next] of the stored secrets. *)
Definition setGatewayApiKey (s : StoredSecrets) (v : option jsstring) : StoredSecrets :=
  {| gatewayApiKey := v; secret_x := secret_x s;
     secret_bluesky := secret_bluesky s; secret_mastodon := secret_mastodon s |}.

Definition setX (s : StoredSecrets) (v : option XSecret) : StoredSecrets :=
  {| gatewayApiKey := gatewayApiKey s; secret_x := v;
     secret_bluesky := secret_bluesky s; secret_mastodon := secret_mastodon s |}.

Definition setBluesky (s : StoredSecrets) (v : option BlueskySecret) : StoredSecrets :=
  {| gatewayApiKey := gatewayApiKey s; secret_x := secret_x s;
     secret_bluesky := v; secret_mastodon := secret_mastodon s |}.

Definition setMastodon (s : StoredSecrets) (v : option MastodonSecret) : StoredSecrets :=
  {| gatewayApiKey := gatewayApiKey s; secret_x := secret_x s;
     secret_bluesky := secret_bluesky s; secret_mastodon := v |}.

(* ================================================================== *)
(** ** Local helper: the handlers *)
(* ================================================================== *)

(** One part of a multipart request. *)
Inductive Part :=
| FilePart (filename mimetype : option jsstring) (data : list N)
| FieldPart (fieldname : jsstring) (value : option jsstring).

Record PostRequest := {
  req_contentType : option jsstring;
  req_body : option json;
  req_parts : list Part;
}.

(** The limits registered with the multipart plugin (src/lib/types.ts,
    [app.register(fastifyMultipart, { limits })]). *)
Definition filesLimit : Z := 12.
Definition fileSizeLimit : Z := 60 * 1024 * 1024.

(** The limit a multipart request can run into. *)
Inductive MultipartLimit := FilesLimit | FileTooLarge.

(** The [for await (const part of parts)] loop of the multipart branch,
    from the state it has reached: it ends with the last [payload] field
    and the buffered files, or with the error the plugin throws into it,
    at a file part when [filesLimit] files have been read already, and
    when a file of more than [fileSizeLimit] bytes is buffered. *)
Fixpoint collectPartsFrom (parts : list Part) (payloadRaw : jsstring)
  (uploadedMedia : list UploadedMedia)
  : jsstring * list UploadedMedia + MultipartLimit :=
  match parts with
  | [] => inl (payloadRaw, uploadedMedia)
  | FilePart filename mimetype data :: rest =>
      if filesLimit <=? Z.of_nat (List.length uploadedMedia) then inr FilesLimit
      else if fileSizeLimit <? Z.of_nat (List.length data) then inr FileTooLarge
      else
        collectPartsFrom rest payloadRaw
          (uploadedMedia
             ++ [{| um_filename := orElse filename (js "upload.bin");
                    um_mimetype := orElse mimetype (js "application/octet-stream");
                    um_data := data |}])
  | FieldPart fieldname value :: rest =>
      if jseqb fieldname (js "payload") then
        collectPartsFrom rest (orElse value []) uploadedMedia
      else collectPartsFrom rest payloadRaw uploadedMedia
  end.

Definition collectParts (parts : list Part)
  : jsstring * list UploadedMedia + MultipartLimit :=
  collectPartsFrom parts [] [].

Section Helper.
Context `{Runtime}.

(** The gateway on the other side of [fetch]: a response, or the message
    of the error [fetch] rejects with. *)
Variable upstream : UpstreamRequest -> UpstreamResponse + jsstring.

(** Helper server (src/lib/types.ts), [app.post('/api/settings/secrets')]. *)
Definition postSecrets (requestBody : option json) : Handler Reply :=
  let body := bodyObject requestBody in
  current <- readSecrets ;;
  let next := current in
  let next :=
    if hasOwn body (js "gatewayApiKey") then
      match trimToUndefined (getProp (Some body) (js "gatewayApiKey")) with
      | Some gatewayApiKey => setGatewayApiKey next (Some gatewayApiKey)
      | None => setGatewayApiKey next None
      end
    else next in
  let next :=
    if hasOwn body (js "xAuthToken") then
      match trimToUndefined (getProp (Some body) (js "xAuthToken")) with
      | Some authToken => setX next (Some {| xs_authToken := Some authToken |})
      | None => setX next None
      end
    else next in
  let touchesBluesky :=
    hasOwn body (js "blueskyIdentifier") || hasOwn body (js "blueskyPdsUrl")
    || hasOwn body (js "blueskyAppPassword") in
  next <-
    (if touchesBluesky then
       let identifier := trimToUndefined (getProp (Some body) (js "blueskyIdentifier")) in
       let pdsUrlRaw := trimToUndefined (getProp (Some body) (js "blueskyPdsUrl")) in
       let appPassword := trimToUndefined (getProp (Some body) (js "blueskyAppPassword")) in
       let pdsUrl :=
         if present pdsUrlRaw then normalizeBaseUrl (option_map JStr pdsUrlRaw)
         else None in
       if negb (present identifier) && negb (present pdsUrl)
          && negb (present appPassword)
       then ret (setBluesky next None)
       else if present identifier && present pdsUrl && present appPassword
       then
         ret (setBluesky next
                (Some {| bs_identifier := identifier; bs_pdsUrl := pdsUrl;
                         bs_appPassword := appPassword |}))
       else
         send (problemReply 400 (js "Bluesky credentials incomplete")
                 (js "Set identifier, PDS URL, and app password together, or clear all three."))
     else ret next) ;;
  let touchesMastodon :=
    hasOwn body (js "mastodonInstanceUrl") || hasOwn body (js "mastodonAccessToken")
    || hasOwn body (js "mastodonVisibility") in
  next <-
    (if touchesMastodon then
       let instanceUrlRaw := trimToUndefined (getProp (Some body) (js "mastodonInstanceUrl")) in
       let accessToken := trimToUndefined (getProp (Some body) (js "mastodonAccessToken")) in
       let visibility :=
         orElse (trimToUndefined (getProp (Some body) (js "mastodonVisibility")))
           (js "public") in
       let instanceUrl :=
         if present instanceUrlRaw then normalizeBaseUrl (option_map JStr instanceUrlRaw)
         else None in
       if negb (present instanceUrl) && negb (present accessToken)
       then ret (setMastodon next None)
       else if present instanceUrl && present accessToken
       then
         ret (setMastodon next
                (Some {| ms_instanceUrl := instanceUrl; ms_accessToken := accessToken;
                         ms_visibility := Some visibility |}))
       else
         send (problemReply 400 (js "Mastodon credentials incomplete")
                 (js "Set instance URL and access token together, or clear both fields."))
     else ret next) ;;
  writeSecrets next ;;;
  ret (ok (SavedBody (summarizeSecrets next) (profileOf next))).

(** Helper server (src/lib/types.ts), [gatewayFetch]: the key check, the
    URL of the route against the gateway base URL, the [Authorization]
    header and the call of [fetch]. *)
Definition gatewayFetch (config : jsstring) (secrets : StoredSecrets)
  (route method : jsstring) (contentTypeHeader : option jsstring)
  (requestBody : FetchBody) : Handler UpstreamResponse :=
  if negb (present (gatewayApiKey secrets)) then
    throw (HelperError 400 (js "Missing gateway API key in secure local storage."))
  else
    match URL_newWithBase route config with
    | inr msg => throw (OtherError msg)
    | inl url =>
        match Headers_set (js "Authorization")
                (js "Bearer " ++ orElse (gatewayApiKey secrets) []) with
        | inr msg => throw (OtherError msg)
        | inl authorization =>
            let request :=
              {| up_url := URL_toString url; up_method := method;
                 up_authorization := authorization;
                 up_contentType := contentTypeHeader; up_body := requestBody |} in
            fun w =>
              let w' :=
                {| keychain := keychain w; gatewayBaseUrl := gatewayBaseUrl w;
                   keychainWrites := keychainWrites w;
                   fetches := fetches w ++ [request] |} in
              match upstream request with
              | inl response => (Continue response, w')
              | inr msg => (Throw (OtherError msg), w')
              end
        end
    end.

(** Helper server (src/lib/types.ts), [relayUpstream]: the header, the
    status code and the body set on the reply. *)
Definition relayUpstream (upstreamResponse : UpstreamResponse) : Reply :=
  let contentType := ur_contentType upstreamResponse in
  let payloadText := ur_text upstreamResponse in
  let header := if present contentType then contentType else None in
  let status := ur_status upstreamResponse in
  if match contentType with
     | Some ct => includes ct (js "application/json") || includes ct (js "problem+json")
     | None => false
     end
  then
    match JSON_parse payloadText with
    | Some parsed => {| code := status; contentType := header; body := JsonBody parsed |}
    | None => {| code := status; contentType := header; body := TextBody payloadText |}
    end
  else {| code := status; contentType := header; body := TextBody payloadText |}.

(** The checks both branches of [/api/posts] run on the resolved
    targets before anything is sent upstream. *)
Definition checkResolved (resolvedTargets : Resolved) : Handler unit :=
  if selectedCount resolvedTargets =? 0 then
    send (problemReply 400 (js "No targets selected")
            (js "Select at least one platform target before publishing."))
  else if 0 <? Z.of_nat (List.length (missing resolvedTargets)) then
    send (problemReply 400 (js "Missing credentials")
            (js "Credentials missing for: " ++ join (js ", ") (missing resolvedTargets)))
  else ret tt.

(** [clientPayload.selectedTargets]: a [TypeError] on [null]. *)
Definition selectedTargetsOf (clientPayload : json) : Handler (option json) :=
  match clientPayload with
  | JNull =>
      throw (OtherError (js "Cannot read properties of null (reading 'selectedTargets')"))
  | _ => ret (getProp (Some clientPayload) (js "selectedTargets"))
  end.

(** Helper server (src/lib/types.ts), [app.post('/api/posts')]. *)
Definition postPosts (request : PostRequest) : Handler Reply :=
  let contentType := orElse (req_contentType request) [] in
  tryCatch
    (config <- readConfig ;;
     secrets <- readSecrets ;;
     if includes contentType (js "multipart/form-data") then
       collected <-
         match collectParts (req_parts request) with
         | inl collected => ret collected
         | inr FilesLimit => throw (OtherError filesLimitMessage)
         | inr FileTooLarge => throw (OtherError fileTooLargeMessage)
         end ;;
       let '(payloadRaw, uploadedMedia) := collected in
       match payloadRaw with
       | [] => send (problemReply 400 (js "Missing payload") (js "payload field is required."))
       | _ :: _ =>
           match JSON_parse payloadRaw with
           | None =>
               send (problemReply 400 (js "Invalid payload JSON")
                       (js "payload must be valid JSON."))
           | Some clientPayload =>
               requested <- selectedTargetsOf clientPayload ;;
               let resolvedTargets := resolveTargetsFromSelection secrets requested in
               checkResolved resolvedTargets ;;;
               let gatewayPayload :=
                 buildGatewayPayload clientPayload (targets resolvedTargets) in
               response <-
                 gatewayFetch config secrets (js "/v1/posts") (js "POST") None
                   (FormData gatewayPayload uploadedMedia) ;;
               ret (relayUpstream response)
           end
       end
     else
       let clientPayload := bodyObject (req_body request) in
       requested <- selectedTargetsOf clientPayload ;;
       let resolvedTargets := resolveTargetsFromSelection secrets requested in
       checkResolved resolvedTargets ;;;
       let gatewayPayload :=
         buildGatewayPayload clientPayload (targets resolvedTargets) in
       response <-
         gatewayFetch config secrets (js "/v1/posts") (js "POST")
           (Some (js "application/json")) (JsonPayload gatewayPayload) ;;
       ret (relayUpstream response))
    (fun error =>
       let status :=
         match error with
         | HelperError status _ => status
         | OtherError _ => 500
         end in
       send (problemReply status (js "Publish failed") (errorMessage error))).

End Helper.

(* ================================================================== *)
(** ** A sample runtime *)
(* ================================================================== *)

(** A small instance of [Runtime], used to run the definitions above on
    concrete requests.  It covers absolute [scheme://host/path?query#hash]
    URLs and absolute paths resolved against them, the JSON documents
    [null], [true], [false], [{}] and [[]], decimal integers and dates that
    start with a four-digit year. *)
Module Sample.

Record Url := {
  protocol : jsstring;
  host : jsstring;
  pathname : jsstring;
  search : jsstring;
  hash : jsstring;
}.

Fixpoint span (p : char16 -> bool) (s : jsstring) : jsstring * jsstring :=
  match s with
  | [] => ([], [])
  | c :: rest =>
      if p c then let '(taken, remaining) := span p rest in (c :: taken, remaining)
      else ([], s)
  end.

Definition isDigit (c : char16) : bool := ((48 <=? c) && (c <=? 57))%N.

Definition isAlpha (c : char16) : bool :=
  (((65 <=? c) && (c <=? 90)) || ((97 <=? c) && (c <=? 122)))%N.

Definition toLower (c : char16) : char16 :=
  if ((65 <=? c) && (c <=? 90))%N then (c + 32)%N else c.

Definition parseUrl (s : jsstring) : option Url :=
  let '(scheme, rest) := span (fun c => isAlpha c || isDigit c) s in
  match scheme, rest with
  | first :: _, 58%N :: 47%N :: 47%N :: rest =>
      if isAlpha first then
        let '(authority, rest) :=
          span (fun c => negb ((c =? 47) || (c =? 63) || (c =? 35))%N) rest in
        let '(path, rest) := span (fun c => negb ((c =? 63) || (c =? 35))%N) rest in
        let '(query, fragment) := span (fun c => negb (c =? 35)%N) rest in
        match authority with
        | [] => None
        | _ :: _ =>
            Some {| protocol := map toLower scheme ++ js ":";
                    host := authority;
                    pathname := match path with [] => js "/" | _ => path end;
                    search := query;
                    hash := fragment |}
        end
      else None
  | _, _ => None
  end.

Definition setPathname (u : Url) (p : jsstring) : Url :=
  {| protocol := protocol u; host := host u;
     pathname :=
       match p with
       | [] => js "/"
       | 47%N :: _ => p
       | _ => js "/" ++ p
       end;
     search := search u; hash := hash u |}.

Definition setSearch (u : Url) (q : jsstring) : Url :=
  {| protocol := protocol u; host := host u; pathname := pathname u;
     search := match q with [] => [] | 63%N :: _ => q | _ => js "?" ++ q end;
     hash := hash u |}.

Definition setHash (u : Url) (h : jsstring) : Url :=
  {| protocol := protocol u; host := host u; pathname := pathname u;
     search := search u;
     hash := match h with [] => [] | 35%N :: _ => h | _ => js "#" ++ h end |}.

Definition href (u : Url) : jsstring :=
  protocol u ++ js "//" ++ host u ++ pathname u ++ search u ++ hash u.

(** The segments of a path, the segment being read held in reverse. *)
Fixpoint segmentsOf (path current : jsstring) : list jsstring :=
  match path with
  | [] => [rev current]
  | c :: rest =>
      if (c =? 47)%N then rev current :: segmentsOf rest []
      else segmentsOf rest (c :: current)
  end.

(** A path without its [.] and [..] segments. *)
Definition removeDotSegments (path : jsstring) : jsstring :=
  let segments :=
    match segmentsOf path [] with
    | [] :: rest => rest
    | all => all
    end in
  let kept :=
    fold_left
      (fun kept segment =>
         if jseqb segment (js ".") then kept
         else if jseqb segment (js "..") then removelast kept
         else kept ++ [segment])
      segments [] in
  js "/" ++ join (js "/") kept.

(** [new URL(url, base)] for an absolute path [url]. *)
Definition resolveUrl (url base : jsstring) : Url + jsstring :=
  match parseUrl base, url with
  | Some parsed, 47%N :: _ =>
      let '(path, rest) := span (fun c => negb ((c =? 63) || (c =? 35))%N) url in
      let '(query, fragment) := span (fun c => negb (c =? 35)%N) rest in
      inl {| protocol := protocol parsed; host := host parsed;
             pathname := removeDotSegments path;
             search := query; hash := fragment |}
  | _, _ => inr (js "Invalid URL")
  end.

(** Header values: the HTTP white space around a value is removed, and a
    value with a NUL, a line break or a code unit above 255 is refused. *)
Definition isHttpWhitespace (c : char16) : bool :=
  ((c =? 9) || (c =? 10) || (c =? 13) || (c =? 32))%N.

Fixpoint dropHttpWhitespace (s : jsstring) : jsstring :=
  match s with
  | [] => []
  | c :: rest => if isHttpWhitespace c then dropHttpWhitespace rest else s
  end.

Definition setHeader (name value : jsstring) : jsstring + jsstring :=
  let normalized := rev (dropHttpWhitespace (rev (dropHttpWhitespace value))) in
  if forallb (fun c => negb ((c =? 0) || (c =? 10) || (c =? 13) || (255 <? c))%N)
       normalized
  then inl normalized
  else inr (js "Invalid header value").

Definition parseJson (s : jsstring) : option json :=
  let t := trim s in
  if jseqb t (js "null") then Some JNull
  else if jseqb t (js "true") then Some (JBool true)
  else if jseqb t (js "false") then Some (JBool false)
  else if jseqb t (js "{}") then Some (JObj [])
  else if jseqb t (js "[]") then Some (JArr [])
  else None.

Definition stringOf (v : json) : jsstring :=
  match v with
  | JNull => js "null"
  | JBool true => js "true"
  | JBool false => js "false"
  | JNum n => decimal n
  | JStr s => s
  | JArr items =>
      join (js ",")
        (map (fun item =>
                match item with
                | JNull => []
                | JBool true => js "true"
                | JBool false => js "false"
                | JNum n => decimal n
                | JStr s => s
                | JArr _ => []
                | JObj _ => js "[object Object]"
                end)
           items)
  | JObj _ => js "[object Object]"
  end.

Definition digitsValue (digits : jsstring) : Z :=
  fold_left (fun acc c => 10 * acc + (Z.of_N c - 48)) digits 0.

Definition parseInteger (s : jsstring) : option Z :=
  match trim s with
  | [] => Some 0
  | 45%N :: (_ :: _) as digits =>
      if forallb isDigit digits then Some (- digitsValue digits) else None
  | digits => if forallb isDigit digits then Some (digitsValue digits) else None
  end.

Definition validDate (s : jsstring) : bool :=
  match trim s with
  | a :: b :: c :: d :: _ => isDigit a && isDigit b && isDigit c && isDigit d
  | _ => false
  end.

#[export] Instance runtime : Runtime := {|
  dateIsValid := validDate;
  JSON_parse := parseJson;
  String_of := stringOf;
  integerOfString := parseInteger;
  URL := Url;
  URL_new := parseUrl;
  URL_protocol := protocol;
  URL_pathname := pathname;
  URL_setPathname := setPathname;
  URL_setSearch := setSearch;
  URL_setHash := setHash;
  URL_toString := href;
  URL_newWithBase := resolveUrl;
  Headers_set := setHeader;
  filesLimitMessage := js "reach files limit";
  fileTooLargeMessage := js "request file too large";
|}.

(** A gateway that accepts every post with a JSON body. *)
Definition gateway (request : UpstreamRequest) : UpstreamResponse + jsstring :=
  inl {| ur_status := 200;
         ur_contentType := Some (js "application/json; charset=utf-8");
         ur_text := js "{}" |}.

Definition emptyWorld : World :=
  {| keychain := None; gatewayBaseUrl := js "http://127.0.0.1:38081";
     keychainWrites := []; fetches := [] |}.

End Sample.

(* ================================================================== *)
(** ** Vocabulary of the statements and sample inputs *)
(* ================================================================== *)

(** A string of code points above U+FFFF: one surrogate pair each. *)
Definition astral (pairs : list (char16 * char16)) : jsstring :=
  flat_map (fun '(hi, lo) => [hi; lo]) pairs.





(** The rule a violation belongs to. *)
Inductive Kind :=
| KTarget | KText | KEmptySegment
| KLimitX | KLimitBluesky | KLimitMastodon
| KBlueskyMedia | KMastodonMedia | KSchedule.

Definition kind (v : Violation) : Kind :=
  match v with
  | SelectTarget => KTarget
  | AddPostText => KText
  | EmptyThreadSegment => KEmptySegment
  | ExceedsX _ _ _ => KLimitX
  | ExceedsBluesky _ _ _ => KLimitBluesky
  | ExceedsMastodon _ _ _ => KLimitMastodon
  | BlueskyOneVideo _ | BlueskyMixedMedia _ | BlueskyFourImages _ => KBlueskyMedia
  | MastodonMaxMedia _ _ _ => KMastodonMedia
  | ScheduleMissing | ScheduleInvalid => KSchedule
  end.

Definition Kind_eqb (a b : Kind) : bool :=
  match a, b with
  | KTarget, KTarget | KText, KText | KEmptySegment, KEmptySegment
  | KLimitX, KLimitX | KLimitBluesky, KLimitBluesky
  | KLimitMastodon, KLimitMastodon | KBlueskyMedia, KBlueskyMedia
  | KMastodonMedia, KMastodonMedia | KSchedule, KSchedule => true
  | _, _ => false
  end.

(** The violations of one rule, in the order they were pushed. *)
Definition only (k : Kind) (errors : list Violation) : list Violation :=
  filter (fun v => Kind_eqb (kind v) k) errors.

(** Every violation of [errors] belongs to one of the rules [ks]. *)
Definition kindsWithin (ks : list Kind) (errors : list Violation) : bool :=
  forallb (fun v => existsb (Kind_eqb (kind v)) ks) errors.

Definition isEmptyString (value : jsstring) : bool :=
  Z.of_nat (List.length value) =? 0.

(** The trimmed text segments the checks run over. *)
Definition trimmedSegments (d : ComposeDraft) : list jsstring :=
  map trim
    match mode d with
    | single => [text d]
    | thread_mode => map seg_text (thread d)
    end.

(** The parts of the error list, in the order they are pushed. *)
Definition mastodonMediaErrors (d : ComposeDraft) (limits : option LimitsResponse)
  : list Violation :=
  match limits with
  | Some l =>
      match limits_mastodon l with
      | Some m =>
          if sel_mastodon (selectedTargets d)
             && negb (masto_maxMediaAttachments m =? 0)
          then
            flat_map (fun '(threadIndex, total) =>
                        when (masto_maxMediaAttachments m <? total)
                          (MastodonMaxMedia threadIndex total
                             (masto_maxMediaAttachments m)))
              (countMedia (media d))
          else []
      | None => []
      end
  | None => []
  end.

Definition scheduleErrors `{Runtime} (d : ComposeDraft) (wantsSchedule : bool)
  : list Violation :=
  if wantsSchedule then
    match trim (scheduleAt d) with
    | [] => [ScheduleMissing]
    | _ :: _ => if dateIsValid (scheduleAt d) then [] else [ScheduleInvalid]
    end
  else [].

(** The limits in force: the fetched ones, or the defaults. *)
Definition xLimitOf (limits : option LimitsResponse) : Z :=
  match limits with
  | Some l => x_maxCharacters (limits_x l)
  | None => 280
  end.

Definition blueskyLimitOf (limits : option LimitsResponse) : Z :=
  match limits with
  | Some l => bsky_maxCharacters (limits_bluesky l)
  | None => 300
  end.

Definition mastodonLimitOf (limits : option LimitsResponse) : option Z :=
  match limits with
  | Some l => option_map masto_maxCharacters (limits_mastodon l)
  | None => None
  end.

Definition labelOf (d : ComposeDraft) (index : Z) : Label :=
  match mode d with
  | single => LPost
  | thread_mode => LSegment index
  end.

(** The number of thread segments that trim to the empty string. *)
Definition emptySegmentCount (d : ComposeDraft) : nat :=
  List.length (filter isEmptyString (trimmedSegments d)).

(** A thread of three segments, the last two of them blank. *)
Definition threadWithTwoBlanks : ComposeDraft :=
  {| mode := thread_mode;
     text := [];
     thread := [ {| seg_text := js "first" |}; {| seg_text := [] |};
                 {| seg_text := js "  " |} ];
     scheduleAt := [];
     selectedTargets := {| sel_x := true; sel_bluesky := false; sel_mastodon := false |};
     clientRequestId := [];
     media := [] |}.

(** A single post made of the same emoji (U+1F600) [n] times. *)
Definition grinning : char16 * char16 := (55357%N, 56832%N).


(** The media attached to segment [k], in the order of the media list. *)
Definition segmentMedia (k : Z) (entries : list DraftMedia) : list DraftMedia :=
  filter (fun entry => media_threadIndex entry =? k) entries.

Definition groupStep (mediaBySegment : NumMap (list DraftMedia)) (entry : DraftMedia)
  : NumMap (list DraftMedia) :=
  let existing :=
    match mapGet mediaBySegment (media_threadIndex entry) with
    | Some l => l
    | None => []
    end in
  mapSet mediaBySegment (media_threadIndex entry) (existing ++ [entry]).

(** A Bluesky media violation naming segment [k]. *)
Definition blueskyMediaAt (k : Z) (v : Violation) : bool :=
  match v with
  | BlueskyOneVideo i | BlueskyMixedMedia i | BlueskyFourImages i => i =? k
  | _ => false
  end.

Definition videoCount (k : Z) (d : ComposeDraft) : Z :=
  Z.of_nat (List.length (filter isVideo (segmentMedia k (media d)))).

Definition imageCount (k : Z) (d : ComposeDraft) : Z :=
  Z.of_nat (List.length (filter isImage (segmentMedia k (media d)))).

(** A post with four images on its only segment. *)
Definition picture (n : Z) : DraftMedia :=
  {| media_id := js "media-" ++ decimal n;
     media_file := {| file_name := js "photo.png"; file_type := js "image/png";
                      file_size := 2048 |};
     media_threadIndex := 0;
     media_altText := [] |}.

Definition clip (n : Z) : DraftMedia :=
  {| media_id := js "media-" ++ decimal n;
     media_file := {| file_name := js "clip.mp4"; file_type := js "video/mp4";
                      file_size := 4096 |};
     media_threadIndex := 0;
     media_altText := [] |}.

Definition postWith (attached : list DraftMedia) : ComposeDraft :=
  {| mode := single;
     text := js "hello";
     thread := [];
     scheduleAt := [];
     selectedTargets := {| sel_x := false; sel_bluesky := true; sel_mastodon := false |};
     clientRequestId := [];
     media := attached |}.

Definition platforms : list Platform := [PX; PBluesky; PMastodon].

(** Whether a selection requests a platform. *)
Definition selects (selection : TargetSelection) (p : Platform) : bool :=
  match p with
  | PX => sel_x selection
  | PBluesky => sel_bluesky selection
  | PMastodon => sel_mastodon selection
  end.

(** Whether the stored secrets hold a platform's complete tuple. *)
Definition credentialed (secrets : StoredSecrets) (p : Platform) : bool :=
  match p with
  | PX => cfg_x (summarizeSecrets secrets)
  | PBluesky => cfg_bluesky (summarizeSecrets secrets)
  | PMastodon => cfg_mastodon (summarizeSecrets secrets)
  end.

(** Whether [targets] carries a platform's block. *)
Definition hasBlock (t : Targets) (p : Platform) : bool :=
  match p with
  | PX => match target_x t with Some _ => true | None => false end
  | PBluesky => match target_bluesky t with Some _ => true | None => false end
  | PMastodon => match target_mastodon t with Some _ => true | None => false end
  end.

(** The selection that requests exactly the credentialed platforms. *)
Definition autoSelection (secrets : StoredSecrets) : TargetSelection :=
  {| sel_x := credentialed secrets PX;
     sel_bluesky := credentialed secrets PBluesky;
     sel_mastodon := credentialed secrets PMastodon |}.

(** Stored secrets with a complete X tuple only. *)
Definition onlyXSecrets : StoredSecrets :=
  {| gatewayApiKey := Some (js "gateway-key");
     secret_x := Some {| xs_authToken := Some (js "x-token") |};
     secret_bluesky := None;
     secret_mastodon := None |}.

Definition noTargetsReply : Reply :=
  problemReply 400 (js "No targets selected")
    (js "Select at least one platform target before publishing.").

Definition missingCredentialsReply (missingIds : list jsstring) : Reply :=
  problemReply 400 (js "Missing credentials")
    (js "Credentials missing for: " ++ join (js ", ") missingIds).

(** The client payload the handler resolves targets from, for a request
    that gets as far as resolving them: the parsed [payload] field of a
    multipart request within the limits, or the body object of a JSON
    request. *)
Definition clientPayloadOf `{Runtime} (request : PostRequest) : option json :=
  if includes (orElse (req_contentType request) []) (js "multipart/form-data") then
    match collectParts (req_parts request) with
    | inl ([], _) | inr _ => None
    | inl (payloadRaw, _) =>
        match JSON_parse payloadRaw with
        | Some JNull | None => None
        | Some clientPayload => Some clientPayload
        end
    end
  else Some (bodyObject (req_body request)).

(** A JSON publish request selecting Bluesky only. *)
Definition blueskyOnlyRequest : PostRequest :=
  {| req_contentType := Some (js "application/json");
     req_body :=
       Some (JObj [(js "text", JStr (js "hello"));
                   (js "selectedTargets",
                    selectionJson {| sel_x := false; sel_bluesky := true;
                                     sel_mastodon := false |})]);
     req_parts := [] |}.

(** A multipart publish request whose payload is the empty object. *)
Definition emptyMultipartRequest : PostRequest :=
  {| req_contentType := Some (js "multipart/form-data; boundary=xyz");
     req_body := None;
     req_parts := [FieldPart (js "payload") (Some (js "{}"))] |}.

Definition onlyXWorld : World :=
  {| keychain := Some onlyXSecrets; gatewayBaseUrl := js "http://127.0.0.1:38081";
     keychainWrites := []; fetches := [] |}.

(** A client payload holds a text when its [text] is a non-empty string,
    and a thread when its [thread] is a non-empty array. *)
Definition holdsText (clientPayload : json) : bool :=
  match getProp (Some clientPayload) (js "text") with
  | Some (JStr (_ :: _)) => true
  | _ => false
  end.

Definition holdsThread (clientPayload : json) : bool :=
  match getProp (Some clientPayload) (js "thread") with
  | Some (JArr (_ :: _)) => true
  | _ => false
  end.

Definition isSet {A} (field : option A) : bool :=
  match field with
  | Some _ => true
  | None => false
  end.

(** A client payload with both a text and a thread, and the empty one. *)
Definition textAndThread : json :=
  JObj [(js "text", JStr (js "hello"));
        (js "thread", JArr [JObj [(js "text", JStr (js "one"))];
                            JObj [(js "text", JStr (js "two"))]])].

Definition blueskyIncompleteReply : Reply :=
  problemReply 400 (js "Bluesky credentials incomplete")
    (js "Set identifier, PDS URL, and app password together, or clear all three.").

Definition mastodonIncompleteReply : Reply :=
  problemReply 400 (js "Mastodon credentials incomplete")
    (js "Set instance URL and access token together, or clear both fields.").

(** How a request fills a platform's tuple: no field, every field, or
    only some of them. *)
Inductive TupleState := Cleared | Complete | Partial.

Definition tupleState (fields : list bool) : TupleState :=
  if forallb negb fields then Cleared
  else if forallb (fun b => b) fields then Complete
  else Partial.

(** The world after [writeSecrets(next)]. *)
Definition written (w : World) (next : StoredSecrets) : World :=
  {| keychain := Some next; gatewayBaseUrl := gatewayBaseUrl w;
     keychainWrites := keychainWrites w ++ [next]; fetches := fetches w |}.

Section SecretsSteps.
Context `{Runtime}.

Definition touchesBluesky (body : json) : bool :=
  hasOwn body (js "blueskyIdentifier") || hasOwn body (js "blueskyPdsUrl")
  || hasOwn body (js "blueskyAppPassword").

Definition touchesMastodon (body : json) : bool :=
  hasOwn body (js "mastodonInstanceUrl") || hasOwn body (js "mastodonAccessToken")
  || hasOwn body (js "mastodonVisibility").

(** The values the handler derives from the Bluesky fields of a body: the
    trimmed identifier and app password, and the normalized PDS URL. *)
Definition blueskyIdentifierOf (body : json) : option jsstring :=
  trimToUndefined (getProp (Some body) (js "blueskyIdentifier")).

Definition blueskyPdsUrlOf (body : json) : option jsstring :=
  let pdsUrlRaw := trimToUndefined (getProp (Some body) (js "blueskyPdsUrl")) in
  if present pdsUrlRaw then normalizeBaseUrl (option_map JStr pdsUrlRaw) else None.

Definition blueskyAppPasswordOf (body : json) : option jsstring :=
  trimToUndefined (getProp (Some body) (js "blueskyAppPassword")).

Definition blueskyTuple (body : json) : TupleState :=
  tupleState [present (blueskyIdentifierOf body); present (blueskyPdsUrlOf body);
              present (blueskyAppPasswordOf body)].

Definition mastodonInstanceUrlOf (body : json) : option jsstring :=
  let instanceUrlRaw := trimToUndefined (getProp (Some body) (js "mastodonInstanceUrl")) in
  if present instanceUrlRaw then normalizeBaseUrl (option_map JStr instanceUrlRaw)
  else None.

Definition mastodonAccessTokenOf (body : json) : option jsstring :=
  trimToUndefined (getProp (Some body) (js "mastodonAccessToken")).

Definition mastodonVisibilityOf (body : json) : jsstring :=
  orElse (trimToUndefined (getProp (Some body) (js "mastodonVisibility"))) (js "public").

Definition mastodonTuple (body : json) : TupleState :=
  tupleState [present (mastodonInstanceUrlOf body); present (mastodonAccessTokenOf body)].

(** The copy [next] after the [gatewayApiKey] and [xAuthToken] steps. *)
Definition afterKeys (body : json) (current : StoredSecrets) : StoredSecrets :=
  let next := current in
  let next :=
    if hasOwn body (js "gatewayApiKey") then
      setGatewayApiKey next (trimToUndefined (getProp (Some body) (js "gatewayApiKey")))
    else next in
  if hasOwn body (js "xAuthToken") then
    match trimToUndefined (getProp (Some body) (js "xAuthToken")) with
    | Some authToken => setX next (Some {| xs_authToken := Some authToken |})
    | None => setX next None
    end
  else next.

(** The copy after the Bluesky step; [None] when the step replies 400. *)
Definition afterBluesky (body : json) (next : StoredSecrets) : option StoredSecrets :=
  if touchesBluesky body then
    match blueskyTuple body with
    | Cleared => Some (setBluesky next None)
    | Complete =>
        Some (setBluesky next
                (Some {| bs_identifier := blueskyIdentifierOf body;
                         bs_pdsUrl := blueskyPdsUrlOf body;
                         bs_appPassword := blueskyAppPasswordOf body |}))
    | Partial => None
    end
  else Some next.

(** The copy after the Mastodon step; [None] when the step replies 400. *)
Definition afterMastodon (body : json) (next : StoredSecrets) : option StoredSecrets :=
  if touchesMastodon body then
    match mastodonTuple body with
    | Cleared => Some (setMastodon next None)
    | Complete =>
        Some (setMastodon next
                (Some {| ms_instanceUrl := mastodonInstanceUrlOf body;
                         ms_accessToken := mastodonAccessTokenOf body;
                         ms_visibility := Some (mastodonVisibilityOf body) |}))
    | Partial => None
    end
  else Some next.

End SecretsSteps.

(** Stored secrets with a complete Bluesky tuple. *)
Definition blueskySecrets : StoredSecrets :=
  {| gatewayApiKey := Some (js "gateway-key");
     secret_x := None;
     secret_bluesky :=
       Some {| bs_identifier := Some (js "alice.bsky.social");
               bs_pdsUrl := Some (js "https://bsky.social");
               bs_appPassword := Some (js "app-password") |};
     secret_mastodon := None |}.

Definition blueskyWorld : World :=
  {| keychain := Some blueskySecrets; gatewayBaseUrl := js "http://127.0.0.1:38081";
     keychainWrites := []; fetches := [] |}.





(** A request that sets only the identifier. *)
Definition identifierOnly : option json :=
  Some (JObj [(js "gatewayApiKey", JStr (js "new-key"));
              (js "blueskyIdentifier", JStr (js "alice.bsky.social"))]).






(** A secret value with its content blanked out: only whether it is
    present is kept. *)
Definition mask (v : option jsstring) : option jsstring :=
  if present v then Some (js "*") else v.

(** The stored secrets with every secret value (gateway API key, X auth
    token, Bluesky app password, Mastodon access token) blanked out. *)
Definition redact (secrets : StoredSecrets) : StoredSecrets :=
  {| gatewayApiKey := mask (gatewayApiKey secrets);
     secret_x :=
       option_map (fun x => {| xs_authToken := mask (xs_authToken x) |})
         (secret_x secrets);
     secret_bluesky :=
       option_map
         (fun b => {| bs_identifier := bs_identifier b; bs_pdsUrl := bs_pdsUrl b;
                      bs_appPassword := mask (bs_appPassword b) |})
         (secret_bluesky secrets);
     secret_mastodon :=
       option_map
         (fun m => {| ms_instanceUrl := ms_instanceUrl m;
                      ms_accessToken := mask (ms_accessToken m);
                      ms_visibility := ms_visibility m |})
         (secret_mastodon secrets) |}.

(** Two worlds whose secrets differ in every secret value. *)
Definition secretWorld (key token password access : jsstring) : World :=
  {| keychain :=
       Some {| gatewayApiKey := Some key;
               secret_x := Some {| xs_authToken := Some token |};
               secret_bluesky :=
                 Some {| bs_identifier := Some (js "alice.bsky.social");
                         bs_pdsUrl := Some (js "https://bsky.social");
                         bs_appPassword := Some password |};
               secret_mastodon :=
                 Some {| ms_instanceUrl := Some (js "https://mastodon.social");
                         ms_accessToken := Some access;
                         ms_visibility := Some (js "unlisted") |} |};
     gatewayBaseUrl := js "http://127.0.0.1:38081";
     keychainWrites := []; fetches := [] |}.

(** Whether the upstream content type names JSON or problem+json. *)
Definition jsonContentType (response : UpstreamResponse) : bool :=
  match ur_contentType response with
  | Some ct => includes ct (js "application/json") || includes ct (js "problem+json")
  | None => false
  end.

(** A plain-text 502 from the gateway. *)
Definition badGateway : UpstreamResponse :=
  {| ur_status := 502;
     ur_contentType := Some (js "text/plain");
     ur_text := js "Bad Gateway" |}.

(** The world after one call of [fetch]. *)
Definition fetched (w : World) (request : UpstreamRequest) : World :=
  {| keychain := keychain w; gatewayBaseUrl := gatewayBaseUrl w;
     keychainWrites := keychainWrites w; fetches := fetches w ++ [request] |}.

(* ================================================================== *)
(** ** Compose pane: editing the draft and building the request *)
(* ================================================================== *)

(** [arr.filter((value, index) => keep(value, index))], indices from
    [start]. *)
Fixpoint filterIndexed {A} (keep : A -> Z -> bool) (start : Z) (arr : list A)
  : list A :=
  match arr with
  | [] => []
  | a :: rest =>
      if keep a start then a :: filterIndexed keep (start + 1) rest
      else filterIndexed keep (start + 1) rest
  end.

(** The state setters [setThread], [setMedia] and [setSelectedTargets]. *)
Definition setThread (d : ComposeDraft) (next : list ThreadSegment) : ComposeDraft :=
  {| mode := mode d; text := text d; thread := next; scheduleAt := scheduleAt d;
     selectedTargets := selectedTargets d; clientRequestId := clientRequestId d;
     media := media d |}.

Definition setMedia (d : ComposeDraft) (next : list DraftMedia) : ComposeDraft :=
  {| mode := mode d; text := text d; thread := thread d; scheduleAt := scheduleAt d;
     selectedTargets := selectedTargets d; clientRequestId := clientRequestId d;
     media := next |}.

Definition setSelectedTargets (d : ComposeDraft) (next : TargetSelection)
  : ComposeDraft :=
  {| mode := mode d; text := text d; thread := thread d; scheduleAt := scheduleAt d;
     selectedTargets := next; clientRequestId := clientRequestId d;
     media := media d |}.

(** [{ ...entry, threadIndex }]. *)
Definition withThreadIndex (entry : DraftMedia) (threadIndex : Z) : DraftMedia :=
  {| media_id := media_id entry; media_file := media_file entry;
     media_threadIndex := threadIndex; media_altText := media_altText entry |}.

(** Compose pane (unnamed/part_001), [setTargetEnabled]. *)
Definition setTargetEnabled (target : Platform) (enabled : bool) (d : ComposeDraft)
  : ComposeDraft :=
  let current := selectedTargets d in
  setSelectedTargets d
    match target with
    | PX => {| sel_x := enabled; sel_bluesky := sel_bluesky current;
               sel_mastodon := sel_mastodon current |}
    | PBluesky => {| sel_x := sel_x current; sel_bluesky := enabled;
                     sel_mastodon := sel_mastodon current |}
    | PMastodon => {| sel_x := sel_x current; sel_bluesky := sel_bluesky current;
                      sel_mastodon := enabled |}
    end.

(** Compose pane (unnamed/part_001), [addThreadSegment]. *)
Definition addThreadSegment (d : ComposeDraft) : ComposeDraft :=
  setThread d (thread d ++ [{| seg_text := [] |}]).

(** Compose pane (unnamed/part_001), [removeThreadSegment]: the thread
    update, then the media update. *)
Definition removeThreadSegment (index : Z) (d : ComposeDraft) : ComposeDraft :=
  let nextThread :=
    let current := thread d in
    if Z.of_nat (List.length current) <=? 1 then current
    else filterIndexed (fun _ itemIndex => negb (itemIndex =? index)) 0 current in
  let nextMedia :=
    map (fun entry =>
           if index <? media_threadIndex entry then
             withThreadIndex entry (media_threadIndex entry - 1)
           else if media_threadIndex entry =? index then
             withThreadIndex entry (Z.max 0 (media_threadIndex entry - 1))
           else entry)
      (media d) in
  setMedia (setThread d nextThread) nextMedia.

(** Compose pane (unnamed/part_001), [updateThreadSegment]. *)
Definition updateThreadSegment (index : Z) (nextValue : jsstring) (d : ComposeDraft)
  : ComposeDraft :=
  setThread d
    (mapIndexed (fun segment segmentIndex =>
                   if segmentIndex =? index then {| seg_text := nextValue |}
                   else segment)
       0 (thread d)).

(** Compose pane (unnamed/part_001), [addMediaFiles]; [None] is a [null]
    file list.  The ids [createDraftId] draws are given with the files. *)
Definition addMediaFiles (files : option (list (jsstring * File))) (d : ComposeDraft)
  : ComposeDraft :=
  match files with
  | None | Some [] => d
  | Some files =>
      let nextItems :=
        map (fun '(id, file) =>
               {| media_id := id; media_file := file; media_threadIndex := 0;
                  media_altText := [] |})
          files in
      setMedia d (media d ++ nextItems)
  end.

(** Compose pane (unnamed/part_001), [removeMedia]. *)
Definition removeMedia (mediaId : jsstring) (d : ComposeDraft) : ComposeDraft :=
  setMedia d (filter (fun entry => negb (jseqb (media_id entry) mediaId)) (media d)).

(** The request body the compose pane sends (src/lib/types.ts,
    [PublishRequestBody]). *)
Record PublishRequestBody := {
  prb_text : option jsstring;
  prb_thread : option (list ThreadSegment);
  prb_scheduleAt : option jsstring;
  prb_clientRequestId : option jsstring;
  prb_selectedTargets : TargetSelection;
  prb_media : option (list MediaMeta);
}.

Section BuildPayload.
Context `{Runtime}.

(** [new Date(s).toISOString()] for a valid date, and [Date.now()]. *)
Variable toISOString : jsstring -> jsstring.
Variable now : Z.

(** Compose pane (unnamed/part_001), [buildPayload]; [None] when
    [toISOString] throws its [RangeError] on an invalid date. *)
Definition buildPayload (d : ComposeDraft) (wantsSchedule : bool)
  : option PublishRequestBody :=
  let payloadText := match mode d with single => Some (text d) | thread_mode => None end in
  let payloadThread :=
    match mode d with single => None | thread_mode => Some (thread d) end in
  let trimmedClientRequestId := trim (clientRequestId d) in
  let payloadClientRequestId :=
    if 0 <? Z.of_nat (List.length trimmedClientRequestId) then trimmedClientRequestId
    else js "web-" ++ decimal now in
  let payloadMedia :=
    if 0 <? Z.of_nat (List.length (media d)) then
      Some (map (fun entry =>
                   {| mm_threadIndex :=
                        match mode d with
                        | single => 0
                        | thread_mode => media_threadIndex entry
                        end;
                      mm_altText :=
                        match trim (media_altText entry) with
                        | [] => None
                        | trimmed => Some trimmed
                        end |})
              (media d))
    else None in
  let finish := fun payloadScheduleAt =>
    {| prb_text := payloadText; prb_thread := payloadThread;
       prb_scheduleAt := payloadScheduleAt;
       prb_clientRequestId := Some payloadClientRequestId;
       prb_selectedTargets := selectedTargets d;
       prb_media := payloadMedia |} in
  if wantsSchedule && (0 <? Z.of_nat (List.length (trim (scheduleAt d)))) then
    if dateIsValid (scheduleAt d) then Some (finish (Some (toISOString (scheduleAt d))))
    else None
  else Some (finish None).

End BuildPayload.

(** The JSON document a request body is sent as: the properties
    [JSON.stringify] writes, in the order [buildPayload] sets them. *)
Definition threadJson (segments : list ThreadSegment) : json :=
  JArr (map (fun segment => JObj [(js "text", JStr (seg_text segment))]) segments).

Definition mediaJson (entries : list MediaMeta) : json :=
  JArr (map (fun entry =>
               JObj ((js "threadIndex", JNum (mm_threadIndex entry))
                     :: match mm_altText entry with
                        | Some alt => [(js "altText", JStr alt)]
                        | None => []
                        end))
          entries).

Definition optionalProp {A} (key : jsstring) (encode : A -> json) (v : option A)
  : list (jsstring * json) :=
  match v with
  | Some a => [(key, encode a)]
  | None => []
  end.

Definition requestBodyJson (payload : PublishRequestBody) : json :=
  JObj ((js "selectedTargets", selectionJson (prb_selectedTargets payload))
        :: optionalProp (js "text") JStr (prb_text payload)
        ++ optionalProp (js "thread") threadJson (prb_thread payload)
        ++ optionalProp (js "scheduleAt") JStr (prb_scheduleAt payload)
        ++ optionalProp (js "clientRequestId") JStr (prb_clientRequestId payload)
        ++ optionalProp (js "media") mediaJson (prb_media payload)).

(* ================================================================== *)
(** ** Local helper: the pass-through handlers *)
(* ================================================================== *)

Section PassThrough.
Context `{Runtime}.
Variable upstream : UpstreamRequest -> UpstreamResponse + jsstring.

(** [new URLSearchParams()] with its entries, and its [toString()]. *)
Variable encodeQuery : list (jsstring * jsstring) -> jsstring.

(** The [catch] block the pass-through handlers share but for the title. *)
Definition failWith (title : jsstring) (error : JsError) : Handler Reply :=
  let status :=
    match error with
    | HelperError status _ => status
    | OtherError _ => 500
    end in
  send (problemReply status title (errorMessage error)).

(** The query of [/api/limits]: the Mastodon instance URL and access
    token, each when it is stored. *)
Definition limitsQuery (secrets : StoredSecrets) : list (jsstring * jsstring) :=
  (if present (chain (secret_mastodon secrets) ms_instanceUrl) then
     [(js "mastodonInstanceUrl",
       orElse (chain (secret_mastodon secrets) ms_instanceUrl) [])]
   else [])
  ++ (if present (chain (secret_mastodon secrets) ms_accessToken) then
        [(js "mastodonAccessToken",
          orElse (chain (secret_mastodon secrets) ms_accessToken) [])]
      else []).

(** Helper server (src/lib/types.ts), [app.get('/api/limits')]. *)
Definition getLimits : Handler Reply :=
  tryCatch
    (config <- readConfig ;;
     secrets <- readSecrets ;;
     let query := limitsQuery secrets in
     response <-
       gatewayFetch upstream config secrets
         (js "/v1/limits"
          ++ (if 0 <? Z.of_nat (List.length query) then js "?" ++ encodeQuery query
              else []))
         (js "GET") None NoBody ;;
     ret (relayUpstream response))
    (failWith (js "Failed to fetch limits")).

(** Helper server (src/lib/types.ts), [app.get('/api/jobs')]. *)
Definition getJobs : Handler Reply :=
  tryCatch
    (config <- readConfig ;;
     secrets <- readSecrets ;;
     response <-
       gatewayFetch upstream config secrets (js "/v1/jobs") (js "GET") None NoBody ;;
     ret (relayUpstream response))
    (failWith (js "Failed to load jobs")).

(** Helper server (src/lib/types.ts), [app.get('/api/jobs/:jobId')]. *)
Definition getJob (jobId : jsstring) : Handler Reply :=
  tryCatch
    (config <- readConfig ;;
     secrets <- readSecrets ;;
     response <-
       gatewayFetch upstream config secrets (js "/v1/jobs/" ++ jobId) (js "GET")
         None NoBody ;;
     ret (relayUpstream response))
    (failWith (js "Failed to load job details")).

(** Helper server (src/lib/types.ts), [app.delete('/api/jobs/:jobId')]. *)
Definition deleteJob (jobId : jsstring) : Handler Reply :=
  tryCatch
    (config <- readConfig ;;
     secrets <- readSecrets ;;
     response <-
       gatewayFetch upstream config secrets (js "/v1/jobs/" ++ jobId) (js "DELETE")
         None NoBody ;;
     ret (relayUpstream response))
    (failWith (js "Failed to cancel job")).

End PassThrough.

(* ================================================================== *)
(** ** Browser client (unnamed/part_000) *)
(* ================================================================== *)

(** [s.replace(/^\/+/, '')] and [s.replace(/\/+$/, '')]. *)
Fixpoint dropLeadingSlashes (s : jsstring) : jsstring :=
  match s with
  | [] => []
  | c :: rest => if (c =? 47)%N then dropLeadingSlashes rest else s
  end.

Definition dropTrailingSlashes (s : jsstring) : jsstring :=
  rev (dropLeadingSlashes (rev s)).

(** [s.split('/')]. *)
Fixpoint split (sep : char16) (s : jsstring) : list jsstring :=
  match s with
  | [] => [[]]
  | c :: rest =>
      if (c =? sep)%N then [] :: split sep rest
      else
        match split sep rest with
        | segment :: more => (c :: segment) :: more
        | [] => [[c]]
        end
  end.

(** Browser client, [normalizeBasePath]; the pattern [/^\/+|\/+$/g]
    removes the leading and the trailing slashes. *)
Definition normalizeBasePath (input : jsstring) : jsstring :=
  let trimmed := trim input in
  if match trimmed with [] => true | _ => false end
     || jseqb trimmed (js "/") || jseqb trimmed (js "__CROSSPOST_BASE_PATH__")
  then []
  else js "/" ++ dropTrailingSlashes (dropLeadingSlashes trimmed).

(** Browser client, [inferBasePathFromLocation]; [None] when there is no
    [window], otherwise [window.location.pathname]. *)
Definition inferBasePathFromLocation (location : option jsstring) : jsstring :=
  match location with
  | None => []
  | Some pathname =>
      if match pathname with [] => true | _ => false end || jseqb pathname (js "/")
      then []
      else
        let trimmed := dropTrailingSlashes pathname in
        let segments :=
          filter (fun segment => match segment with [] => false | _ => true end)
            (split 47%N trimmed) in
        match segments with
        | [] => []
        | first :: _ => js "/" ++ first
        end
  end.

(** Browser client, [resolveBasePath]; [globalValue] is
    [globalThis.__CROSSPOST_BASE_PATH__]. *)
Definition resolveBasePath (globalValue : option json) (location : option jsstring)
  : jsstring :=
  let injected :=
    match globalValue with
    | Some (JStr s) => normalizeBasePath s
    | _ => []
    end in
  match injected with
  | _ :: _ => injected
  | [] => inferBasePathFromLocation location
  end.

(** Browser client, [withBasePath], for the base path [APP_BASE_PATH]. *)
Definition withBasePath (APP_BASE_PATH url : jsstring) : jsstring :=
  let normalized := if startsWith url (js "/") then url else js "/" ++ url in
  APP_BASE_PATH ++ normalized.

(** A response of [fetch]: [response.ok], the status, the content-type
    header and the text of the body. *)
Record HttpResponse := {
  res_ok : bool;
  res_status : Z;
  res_contentType : option jsstring;
  res_text : jsstring;
}.

(** What [request] does: it returns the parsed body, throws an
    [ApiError], or lets the [SyntaxError] of [JSON.parse] through. *)
Inductive RequestResult :=
| Resolved_ (parsed : json)
| ApiError (message : jsstring) (status : Z) (problem : option json)
| SyntaxError.

Section Client.
Context `{Runtime}.

(** The body as [request] reads it: parsed JSON for a JSON content type
    ([null] for an empty body), the text itself otherwise; [None] when
    [JSON.parse] throws. *)
Definition parseBody (response : HttpResponse) : option json :=
  let contentType := orElse (res_contentType response) [] in
  let rawBody := res_text response in
  if includes contentType (js "application/json") then
    match rawBody with
    | [] => Some JNull
    | _ => JSON_parse rawBody
    end
  else Some (JStr rawBody).

(** [a ?? b] on a property that may be absent or [null]. *)
Definition nullish (v : option json) : bool :=
  match v with
  | None | Some JNull => true
  | _ => false
  end.

(** The message an [Error] holds for a value given to its constructor. *)
Definition messageOf (v : json) : jsstring :=
  match v with
  | JStr s => s
  | other => String_of other
  end.

(** Browser client, [request], after [fetch] has resolved. *)
Definition request (response : HttpResponse) : RequestResult :=
  match parseBody response with
  | None => SyntaxError
  | Some parsed =>
      if negb (res_ok response) then
        let problem :=
          match parsed with
          | JObj _ | JArr _ => Some parsed
          | _ => None
          end in
        let message :=
          if negb (nullish (getProp problem (js "detail"))) then
            messageOf (orElse (getProp problem (js "detail")) JNull)
          else if negb (nullish (getProp problem (js "title"))) then
            messageOf (orElse (getProp problem (js "title")) JNull)
          else js "Request failed with status " ++ decimal (res_status response) in
        ApiError message (res_status response) problem
      else Resolved_ parsed
  end.

End Client.

(* ================================================================== *)
(** ** Vocabulary of the further properties *)
(* ================================================================== *)

(** A string without surrogate code units: every code point is one code
    unit. *)
Definition noSurrogates (s : jsstring) : bool :=
  forallb (fun c => negb (isHighSurrogate c || isLowSurrogate c)) s.

Definition anyTargetSelected (d : ComposeDraft) : bool :=
  sel_x (selectedTargets d) || sel_bluesky (selectedTargets d)
  || sel_mastodon (selectedTargets d).

(** A Mastodon media violation naming segment [k]. *)
Definition mastodonMediaAt (k : Z) (v : Violation) : bool :=
  match v with
  | MastodonMaxMedia i _ _ => i =? k
  | _ => false
  end.

(** The number of media attached to segment [k]. *)
Definition mediaCount (k : Z) (d : ComposeDraft) : Z :=
  Z.of_nat (List.length (segmentMedia k (media d))).

(** The fetched Mastodon media limit, when it is known and not zero. *)
Definition mastodonMediaLimit (limits : option LimitsResponse) : option Z :=
  match limits with
  | Some l =>
      match limits_mastodon l with
      | Some m =>
          if masto_maxMediaAttachments m =? 0 then None
          else Some (masto_maxMediaAttachments m)
      | None => None
      end
  | None => None
  end.

(** The step of the loop that counts media by [threadIndex]. *)
Definition countStep (mediaBySegment : NumMap Z) (entry : DraftMedia) : NumMap Z :=
  let existing :=
    match mapGet mediaBySegment (media_threadIndex entry) with
    | Some n => n
    | None => 0
    end in
  mapSet mediaBySegment (media_threadIndex entry) (existing + 1).

(** A trimmed segment is within the character limit of every selected
    target whose limit is known. *)
Definition withinLimits (d : ComposeDraft) (limits : option LimitsResponse)
  (segment : jsstring) : Prop :=
  (sel_x (selectedTargets d) = true -> countCharacters segment <= xLimitOf limits)
  /\ (sel_bluesky (selectedTargets d) = true ->
      countCharacters segment <= blueskyLimitOf limits)
  /\ (sel_mastodon (selectedTargets d) = true ->
      forall cap, mastodonLimitOf limits = Some cap -> cap <> 0 ->
                  countCharacters segment <= cap).

(** The media of segment [k] respect the Bluesky rule. *)
Definition blueskyMediaOk (d : ComposeDraft) (k : Z) : Prop :=
  videoCount k d <= 1
  /\ (videoCount k d = 1 -> imageCount k d = 0)
  /\ (videoCount k d = 0 -> imageCount k d <= 4).

(** What an empty error list says about a draft. *)
Definition Publishable `{Runtime} (d : ComposeDraft) (limits : option LimitsResponse)
  (wantsSchedule : bool) : Prop :=
  anyTargetSelected d = true
  /\ (exists segment, In segment (trimmedSegments d) /\ segment <> [])
  /\ (mode d = thread_mode ->
      forall segment, In segment (trimmedSegments d) -> segment <> [])
  /\ (forall segment, In segment (trimmedSegments d) -> withinLimits d limits segment)
  /\ (sel_bluesky (selectedTargets d) = true -> forall k, blueskyMediaOk d k)
  /\ (sel_mastodon (selectedTargets d) = true ->
      forall cap k, mastodonMediaLimit limits = Some cap ->
                    segmentMedia k (media d) <> [] -> mediaCount k d <= cap)
  /\ (wantsSchedule = true ->
      trim (scheduleAt d) <> [] /\ dateIsValid (scheduleAt d) = true).

(** Sample drafts: a post with no target selected, a thread whose second
    segment is too long for X, a post with three files for Mastodon and a
    post to be scheduled. *)
Definition noTargetPost : ComposeDraft :=
  {| mode := single; text := js "hello"; thread := []; scheduleAt := [];
     selectedTargets := {| sel_x := false; sel_bluesky := false; sel_mastodon := false |};
     clientRequestId := []; media := [] |}.

Definition longSecondSegment : ComposeDraft :=
  {| mode := thread_mode; text := [];
     thread := [ {| seg_text := js "short" |};
                 {| seg_text := astral (repeat grinning 281) |} ];
     scheduleAt := [];
     selectedTargets := {| sel_x := true; sel_bluesky := false; sel_mastodon := false |};
     clientRequestId := []; media := [] |}.

Definition mastodonPost (attached : list DraftMedia) (when_ : jsstring)
  : ComposeDraft :=
  {| mode := single; text := js "hello"; thread := []; scheduleAt := when_;
     selectedTargets := {| sel_x := false; sel_bluesky := false; sel_mastodon := true |};
     clientRequestId := []; media := attached |}.

Definition twoMediaLimits : LimitsResponse :=
  {| limits_x := {| x_maxCharacters := 280; x_assumedUserTier := js "free" |};
     limits_bluesky := {| bsky_maxCharacters := 300; bsky_mediaRule := js "4 images or 1 video" |};
     limits_mastodon :=
       Some {| masto_instanceUrl := js "https://mastodon.social";
               masto_maxCharacters := 500;
               masto_maxMediaAttachments := 2 |} |}.

(** A post that passes every check, and its limits. *)
Definition helloPost : ComposeDraft :=
  {| mode := single; text := js " hello "; thread := [];
     scheduleAt := js "2026-12-24T18:00";
     selectedTargets := {| sel_x := true; sel_bluesky := true; sel_mastodon := true |};
     clientRequestId := js " request-1 ";
     media := [picture 1; picture 2] |}.

(** Every media entry is attached to an existing segment. *)
Definition validMedia (d : ComposeDraft) : Prop :=
  Forall (fun entry =>
            0 <= media_threadIndex entry < Z.of_nat (List.length (thread d)))
    (media d).

(** The thread has a segment and every media entry is attached to one. *)
Definition wellFormedDraft (d : ComposeDraft) : Prop :=
  thread d <> [] /\ validMedia d.

(** A thread of three segments with a file on each of the last two. *)
Definition threeSegments : ComposeDraft :=
  {| mode := thread_mode; text := [];
     thread := [ {| seg_text := js "one" |}; {| seg_text := js "two" |};
                 {| seg_text := js "three" |} ];
     scheduleAt := [];
     selectedTargets := {| sel_x := true; sel_bluesky := true; sel_mastodon := false |};
     clientRequestId := [];
     media := [ withThreadIndex (picture 1) 1; withThreadIndex (picture 2) 2 ] |}.

(** What the compose pane leaves in the metadata of a media entry: an
    index that is not negative and an alt text that is trimmed and not
    empty, or none. *)
Definition normalMeta (entry : MediaMeta) : Prop :=
  0 <= mm_threadIndex entry
  /\ match mm_altText entry with
     | Some alt => trim alt = alt /\ alt <> []
     | None => True
     end.

(** A thread of two segments to be scheduled, with a described picture on
    each segment, and the clock of the sample browser. *)
Definition scheduledThread : ComposeDraft :=
  {| mode := thread_mode; text := [];
     thread := [ {| seg_text := js "first " |}; {| seg_text := js " second" |} ];
     scheduleAt := js "2026-12-24T18:00";
     selectedTargets := {| sel_x := true; sel_bluesky := true; sel_mastodon := false |};
     clientRequestId := js "  ";
     media :=
       [ {| media_id := js "media-1";
            media_file := {| file_name := js "cat.png"; file_type := js "image/png";
                             file_size := 2048 |};
            media_threadIndex := 0; media_altText := js " a cat " |};
         {| media_id := js "media-2";
            media_file := {| file_name := js "dog.png"; file_type := js "image/png";
                             file_size := 1024 |};
            media_threadIndex := 1; media_altText := js "  " |} ] |}.

Definition sampleISOString (s : jsstring) : jsstring := s ++ js ":00.000Z".

Definition sampleNow : Z := 1766599200000.

(** The file a multipart part contributes to the upload, and the value
    it contributes to the [payload] field. *)
Definition fileOf (part : Part) : list UploadedMedia :=
  match part with
  | FilePart filename mimetype data =>
      [{| um_filename := orElse filename (js "upload.bin");
          um_mimetype := orElse mimetype (js "application/octet-stream");
          um_data := data |}]
  | FieldPart _ _ => []
  end.

Definition payloadFieldOf (part : Part) : list jsstring :=
  match part with
  | FilePart _ _ _ => []
  | FieldPart fieldname value =>
      if jseqb fieldname (js "payload") then [orElse value []] else []
  end.

Definition missingKeyMessage : jsstring :=
  js "Missing gateway API key in secure local storage.".

(** Whether a buffered file is larger than the plugin allows. *)
Definition oversized (file : UploadedMedia) : bool :=
  fileSizeLimit <? Z.of_nat (List.length (um_data file)).

(** The [Authorization] value [gatewayFetch] sets for the stored key. *)
Definition bearer (w : World) : jsstring :=
  js "Bearer " ++ orElse (gatewayApiKey (orElse (keychain w) noSecrets)) [].

(** The files the multipart loop has buffered when it ends. *)
Definition uploadedFiles (request : PostRequest) : list UploadedMedia :=
  match collectParts (req_parts request) with
  | inl (_, uploadedMedia) => uploadedMedia
  | inr _ => []
  end.

(** The call of [fetch] that publishes a client payload, for the URL
    fetched and the value of the [Authorization] header. *)
Definition publishCall `{Runtime} (request : PostRequest) (w : World)
  (clientPayload : json) (url authorization : jsstring) : UpstreamRequest :=
  let resolved :=
    resolveTargetsFromSelection (orElse (keychain w) noSecrets)
      (getProp (Some clientPayload) (js "selectedTargets")) in
  let gatewayPayload := buildGatewayPayload clientPayload (targets resolved) in
  if includes (orElse (req_contentType request) []) (js "multipart/form-data") then
    {| up_url := url; up_method := js "POST"; up_authorization := authorization;
       up_contentType := None;
       up_body := FormData gatewayPayload (uploadedFiles request) |}
  else
    {| up_url := url; up_method := js "POST"; up_authorization := authorization;
       up_contentType := Some (js "application/json");
       up_body := JsonPayload gatewayPayload |}.

(** The handlers that pass a request on to the gateway, each with the
    title of its errors, its route and its method. *)
Definition passThroughHandlers `{Runtime}
  (upstream : UpstreamRequest -> UpstreamResponse + jsstring)
  (encodeQuery : list (jsstring * jsstring) -> jsstring) (jobId : jsstring)
  (w : World) : list (Handler Reply * (jsstring * jsstring * jsstring)) :=
  let query := limitsQuery (orElse (keychain w) noSecrets) in
  [ (getLimits upstream encodeQuery,
     (js "Failed to fetch limits",
      js "/v1/limits" ++ match query with
                         | [] => []
                         | _ => js "?" ++ encodeQuery query
                         end,
      js "GET"));
    (getJobs upstream, (js "Failed to load jobs", js "/v1/jobs", js "GET"));
    (getJob upstream jobId,
     (js "Failed to load job details", js "/v1/jobs/" ++ jobId, js "GET"));
    (deleteJob upstream jobId,
     (js "Failed to cancel job", js "/v1/jobs/" ++ jobId, js "DELETE")) ].

(** A world whose keychain holds X credentials but no gateway key. *)
Definition keylessWorld : World :=
  {| keychain :=
       Some {| gatewayApiKey := None;
               secret_x := Some {| xs_authToken := Some (js "x-token") |};
               secret_bluesky := None; secret_mastodon := None |};
     gatewayBaseUrl := js "http://127.0.0.1:38081";
     keychainWrites := []; fetches := [] |}.

(** A JSON publish request selecting X only. *)
Definition xOnlyRequest : PostRequest :=
  {| req_contentType := Some (js "application/json");
     req_body :=
       Some (JObj [(js "text", JStr (js "hello"));
                   (js "selectedTargets", JObj [(js "x", JBool true)])]);
     req_parts := [] |}.

(** Every stored entry is usable: a key that is not empty, and for each
    platform either no tuple or a tuple with every field set. *)
Definition wellStored (secrets : StoredSecrets) : Prop :=
  (gatewayApiKey secrets = None \/ present (gatewayApiKey secrets) = true)
  /\ (secret_x secrets = None \/ present (chain (secret_x secrets) xs_authToken) = true)
  /\ (secret_bluesky secrets = None
      \/ (present (chain (secret_bluesky secrets) bs_identifier) = true
          /\ present (chain (secret_bluesky secrets) bs_pdsUrl) = true
          /\ present (chain (secret_bluesky secrets) bs_appPassword) = true))
  /\ (secret_mastodon secrets = None
      \/ (present (chain (secret_mastodon secrets) ms_instanceUrl) = true
          /\ present (chain (secret_mastodon secrets) ms_accessToken) = true
          /\ present (chain (secret_mastodon secrets) ms_visibility) = true)).

(** A request that changes the Mastodon visibility and nothing else, in a
    world whose keychain holds a Mastodon tuple. *)
Definition visibilityOnly : option json :=
  Some (JObj [(js "mastodonVisibility", JStr (js "unlisted"))]).

Definition mastodonSecrets : StoredSecrets :=
  {| gatewayApiKey := Some (js "gateway-key");
     secret_x := None;
     secret_bluesky := None;
     secret_mastodon :=
       Some {| ms_instanceUrl := Some (js "https://mastodon.social");
               ms_accessToken := Some (js "token");
               ms_visibility := Some (js "public") |} |}.

Definition mastodonWorld : World :=
  {| keychain := Some mastodonSecrets;
     gatewayBaseUrl := js "http://127.0.0.1:38081";
     keychainWrites := []; fetches := [] |}.

(** A request that sets the X token, with white space around it. *)
Definition xTokenOnly : option json :=
  Some (JObj [(js "xAuthToken", JStr (js " x-token "))]).

(** Whether an untyped selection asks for a platform: the truthiness of
    the property of the platform's name. *)
Definition asksFor (requested : json) (p : Platform) : bool :=
  truthy (getProp (Some requested) (platformName p)).

(** A selection that names no platform the helper knows. *)
Definition unknownPlatformOnly : json := JObj [(js "threads", JBool true)].

(** The three replies of [/api/posts] to a multipart request without a
    usable payload. *)
Definition missingPayloadReply : Reply :=
  problemReply 400 (js "Missing payload") (js "payload field is required.").

Definition invalidPayloadReply : Reply :=
  problemReply 400 (js "Invalid payload JSON") (js "payload must be valid JSON.").

Definition nullPayloadReply : Reply :=
  problemReply 500 (js "Publish failed")
    (js "Cannot read properties of null (reading 'selectedTargets')").

(** A multipart request with a payload and thirteen files. *)
Definition thirteenFilesRequest : PostRequest :=
  {| req_contentType := Some (js "multipart/form-data; boundary=x");
     req_body := None;
     req_parts :=
       FieldPart (js "payload") (Some (js "{}"))
       :: repeat (FilePart (Some (js "cat.png")) (Some (js "image/png")) [137; 80]%N)
            13 |}.

(** A multipart request with a file and no [payload] field. *)
Definition fileOnlyRequest : PostRequest :=
  {| req_contentType := Some (js "multipart/form-data; boundary=x");
     req_body := None;
     req_parts := [ FilePart (Some (js "cat.png")) (Some (js "image/png")) [137; 80]%N;
                    FieldPart (js "note") (Some (js "hello")) ] |}.

(** A string made of slashes only. *)
Definition allSlashes (s : jsstring) : Prop := Forall (fun c => c = 47%N) s.

(** The message [request] falls back to. *)
Definition statusMessage (response : HttpResponse) : jsstring :=
  js "Request failed with status " ++ decimal (res_status response).

(** A 500 with an empty JSON object as body. *)
Definition emptyObjectError : HttpResponse :=
  {| res_ok := false; res_status := 500;
     res_contentType := Some (js "application/json; charset=utf-8");
     res_text := js "{}" |}.

(** A 404 the gateway answers with a problem document, as the browser
    receives it when the helper relays it under the gateway's content type. *)
Definition relayedProblem : HttpResponse :=
  {| res_ok := false; res_status := 404;
     res_contentType := Some (js "application/problem+json");
     res_text := js "{}" |}.

(* ================================================================== *)
(** ** Properties of the string operations *)
(* ================================================================== *)

Lemma jseqb_eq (a b : jsstring) : jseqb a b = true <-> a = b.
Proof.
  unfold jseqb. destruct (list_eq_dec N.eq_dec a b); split; congruence.
Qed.

Lemma jseqb_refl (a : jsstring) : jseqb a a = true.
Proof. now apply jseqb_eq. Qed.



Lemma trimStart_id (c : char16) (s : jsstring) :
  isWhiteSpace c = false -> trimStart (c :: s) = c :: s.
Proof. intros Hc. simpl. now rewrite Hc. Qed.









(* ================================================================== *)
(** ** Properties of handlers *)
(* ================================================================== *)

Lemma bind_ret {A B} (a : A) (k : A -> Handler B) (w : World) :
  bind (ret a) k w = k a w.
Proof. reflexivity. Qed.

Lemma bind_send {A B} (r : Reply) (k : A -> Handler B) (w : World) :
  bind (send r) k w = (Return r, w).
Proof. reflexivity. Qed.

Lemma bind_throw {A B} (e : JsError) (k : A -> Handler B) (w : World) :
  bind (throw e) k w = (Throw e, w).
Proof. reflexivity. Qed.

Lemma bind_assoc {A B C} (h : Handler A) (k : A -> Handler B)
  (k' : B -> Handler C) (w : World) :
  bind (bind h k) k' w = bind h (fun a => bind (k a) k') w.
Proof. unfold bind. destruct (h w) as [[a|r|e] w']; reflexivity. Qed.

(** An early reply passes through [try]/[catch]; only a thrown error
    reaches the handler of the [catch] block. *)
Lemma tryCatch_send {A} (r : Reply) (handler : JsError -> Handler A) (w : World) :
  tryCatch (send r) handler w = (Return r, w).
Proof. reflexivity. Qed.

Lemma tryCatch_throw {A} (e : JsError) (handler : JsError -> Handler A) (w : World) :
  tryCatch (throw e) handler w = handler e w.
Proof. reflexivity. Qed.

(** Reading the secrets or the configuration leaves the world as it is. *)
Lemma readSecrets_pure (w : World) :
  readSecrets w = (Continue (orElse (keychain w) noSecrets), w).
Proof. reflexivity. Qed.

Lemma readConfig_pure (w : World) :
  readConfig w = (Continue (gatewayBaseUrl w), w).
Proof. reflexivity. Qed.

(* ================================================================== *)
(** ** Properties of the validation *)
(* ================================================================== *)

Lemma only_app (k : Kind) (a b : list Violation) :
  only k (a ++ b) = only k a ++ only k b.
Proof. apply filter_app. Qed.

Lemma only_when (k : Kind) (c : bool) (v : Violation) :
  only k (when c v) = if c && Kind_eqb (kind v) k then [v] else [].
Proof. destruct c; simpl; [destruct (Kind_eqb (kind v) k)|]; reflexivity. Qed.

Lemma only_outside (k : Kind) (ks : list Kind) (errors : list Violation) :
  kindsWithin ks errors = true ->
  existsb (Kind_eqb k) ks = false ->
  only k errors = [].
Proof.
  intros Hin Hout. induction errors as [|v rest IH]; [reflexivity|].
  simpl in Hin. apply andb_true_iff in Hin as [Hv Hrest].
  simpl. destruct (Kind_eqb (kind v) k) eqn:Hk.
  - assert (kind v = k) as <- by (destruct (kind v), k; simpl in Hk; congruence).
    congruence.
  - now apply IH.
Qed.

Lemma kindsWithin_app (ks : list Kind) (a b : list Violation) :
  kindsWithin ks (a ++ b) = kindsWithin ks a && kindsWithin ks b.
Proof. apply forallb_app. Qed.

Lemma kindsWithin_when (ks : list Kind) (c : bool) (v : Violation) :
  existsb (Kind_eqb (kind v)) ks = true -> kindsWithin ks (when c v) = true.
Proof. intros Hv. destruct c; simpl; [now rewrite Hv|reflexivity]. Qed.

Lemma kindsWithin_concat (ks : list Kind) (parts : list (list Violation)) :
  forallb (kindsWithin ks) parts = true ->
  kindsWithin ks (List.concat parts) = true.
Proof.
  induction parts as [|p rest IH]; intros Hp; [reflexivity|].
  simpl in *. apply andb_true_iff in Hp as [Hhead Hrest].
  rewrite kindsWithin_app, Hhead. now apply IH.
Qed.

Lemma kindsWithin_flat_map {A} (ks : list Kind) (f : A -> list Violation)
  (l : list A) :
  (forall a, kindsWithin ks (f a) = true) ->
  kindsWithin ks (flat_map f l) = true.
Proof.
  intros Hf. induction l as [|a rest IH]; [reflexivity|].
  simpl. now rewrite kindsWithin_app, Hf, IH.
Qed.

Lemma forallb_mapIndexed {A B} (p : B -> bool) (f : A -> Z -> B) (l : list A) :
  (forall a i, p (f a i) = true) ->
  forall start, forallb p (mapIndexed f start l) = true.
Proof.
  intros Hf. induction l as [|a rest IH]; intros start; [reflexivity|].
  simpl. now rewrite Hf, IH.
Qed.

Lemma isEmptyString_nil (value : jsstring) :
  isEmptyString value = true <-> value = [].
Proof.
  unfold isEmptyString. destruct value; simpl; split; try reflexivity;
    try discriminate.
Qed.

Section ValidationFacts.
Context `{Runtime}.
Variables (d : ComposeDraft) (limits : option LimitsResponse)
  (wantsSchedule : bool).

Lemma limit_kinds (segment : jsstring) (index : Z) :
  kindsWithin [KLimitX; KLimitBluesky; KLimitMastodon]
    (segmentLimitErrors d limits segment index) = true.
Proof.
  unfold segmentLimitErrors.
  rewrite !kindsWithin_app, !kindsWithin_when by reflexivity.
  destruct limits as [l|]; simpl; [|reflexivity].
  destruct (limits_mastodon l); simpl; [|reflexivity].
  now rewrite kindsWithin_when.
Qed.

Lemma limits_kinds (segments : list jsstring) (start : Z) :
  kindsWithin [KLimitX; KLimitBluesky; KLimitMastodon]
    (List.concat (mapIndexed (segmentLimitErrors d limits) start segments)) = true.
Proof.
  apply kindsWithin_concat, forallb_mapIndexed. apply limit_kinds.
Qed.

Lemma bluesky_kinds (m : NumMap (list DraftMedia)) :
  kindsWithin [KBlueskyMedia]
    (flat_map (fun '(threadIndex, entries) =>
                 blueskySegmentErrors threadIndex entries) m) = true.
Proof.
  apply kindsWithin_flat_map. intros [i entries]. unfold blueskySegmentErrors.
  now rewrite !kindsWithin_app, !kindsWithin_when.
Qed.

Lemma mastodon_kinds (cap : Z) (m : NumMap Z) :
  kindsWithin [KMastodonMedia]
    (flat_map (fun '(threadIndex, total) =>
                 when (cap <? total) (MastodonMaxMedia threadIndex total cap))
       m) = true.
Proof.
  apply kindsWithin_flat_map. intros [i total]. now apply kindsWithin_when.
Qed.

Lemma getValidationErrors_parts :
  getValidationErrors d limits wantsSchedule =
    when (negb (sel_x (selectedTargets d) || sel_bluesky (selectedTargets d)
                || sel_mastodon (selectedTargets d))) SelectTarget
    ++ when (forallb isEmptyString (trimmedSegments d)) AddPostText
    ++ when (match mode d with thread_mode => true | single => false end
             && existsb isEmptyString (trimmedSegments d)) EmptyThreadSegment
    ++ List.concat (mapIndexed (segmentLimitErrors d limits) 0 (trimmedSegments d))
    ++ (if sel_bluesky (selectedTargets d) then
          flat_map (fun '(threadIndex, entries) =>
                      blueskySegmentErrors threadIndex entries)
            (groupMedia (media d))
        else [])
    ++ (mastodonMediaErrors d limits)
    ++ (scheduleErrors d wantsSchedule).
Proof.
  unfold getValidationErrors, mastodonMediaErrors, scheduleErrors, trimmedSegments.
  simpl existsb. rewrite orb_false_r, orb_assoc. reflexivity.
Qed.

Lemma mastodonMediaErrors_kinds :
  kindsWithin [KMastodonMedia] (mastodonMediaErrors d limits) = true.
Proof.
  unfold mastodonMediaErrors. destruct limits as [l|]; [|reflexivity].
  destruct (limits_mastodon l) as [m|]; [|reflexivity].
  destruct (_ && _); [apply mastodon_kinds|reflexivity].
Qed.

Lemma scheduleErrors_kinds : kindsWithin [KSchedule] (scheduleErrors d wantsSchedule) = true.
Proof.
  unfold scheduleErrors. destruct wantsSchedule; [|reflexivity].
  destruct (trim (scheduleAt d)); [reflexivity|].
  now destruct (dateIsValid (scheduleAt d)).
Qed.

Lemma blueskyMedia_kinds :
  kindsWithin [KBlueskyMedia]
    (if sel_bluesky (selectedTargets d) then
       flat_map (fun '(threadIndex, entries) =>
                   blueskySegmentErrors threadIndex entries)
         (groupMedia (media d))
     else []) = true.
Proof. destruct (sel_bluesky _); [apply bluesky_kinds|reflexivity]. Qed.

(** The violations of rule [k] among the whole list, part by part. *)
Lemma only_getValidationErrors (k : Kind) :
  only k (getValidationErrors d limits wantsSchedule) =
    (if negb (sel_x (selectedTargets d) || sel_bluesky (selectedTargets d)
              || sel_mastodon (selectedTargets d)) && Kind_eqb KTarget k
     then [SelectTarget] else [])
    ++ (if forallb isEmptyString (trimmedSegments d) && Kind_eqb KText k
        then [AddPostText] else [])
    ++ (if match mode d with thread_mode => true | single => false end
           && existsb isEmptyString (trimmedSegments d)
           && Kind_eqb KEmptySegment k
        then [EmptyThreadSegment] else [])
    ++ only k (List.concat
                 (mapIndexed (segmentLimitErrors d limits) 0 (trimmedSegments d)))
    ++ only k (if sel_bluesky (selectedTargets d) then
                 flat_map (fun '(threadIndex, entries) =>
                             blueskySegmentErrors threadIndex entries)
                   (groupMedia (media d))
               else [])
    ++ only k (mastodonMediaErrors d limits)
    ++ only k (scheduleErrors d wantsSchedule).
Proof.
  rewrite getValidationErrors_parts, !only_app, !only_when. reflexivity.
Qed.

End ValidationFacts.

Lemma only_inside (k : Kind) (errors : list Violation) :
  kindsWithin [k] errors = true -> only k errors = errors.
Proof.
  induction errors as [|v rest IH]; intros Hk; [reflexivity|].
  simpl in Hk. apply andb_true_iff in Hk as [Hv Hrest].
  rewrite orb_false_r in Hv. simpl. rewrite Hv. now rewrite IH.
Qed.

Lemma only_concat (k : Kind) (parts : list (list Violation)) :
  only k (List.concat parts) = List.concat (map (only k) parts).
Proof.
  induction parts as [|p rest IH]; [reflexivity|].
  simpl. now rewrite only_app, IH.
Qed.

Lemma map_mapIndexed {A B C} (g : B -> C) (f : A -> Z -> B) (l : list A) :
  forall start, map g (mapIndexed f start l) = mapIndexed (fun a i => g (f a i)) start l.
Proof.
  induction l as [|a rest IH]; intros start; [reflexivity|].
  simpl. now rewrite IH.
Qed.

Lemma mapIndexed_ext {A B} (f g : A -> Z -> B) (l : list A) :
  (forall a i, f a i = g a i) ->
  forall start, mapIndexed f start l = mapIndexed g start l.
Proof.
  intros Hfg. induction l as [|a rest IH]; intros start; [reflexivity|].
  simpl. now rewrite Hfg, IH.
Qed.

Section LimitFacts.
Context `{Runtime}.
Variables (d : ComposeDraft) (limits : option LimitsResponse)
  (wantsSchedule : bool).

Lemma only_limits (k : Kind) :
  existsb (Kind_eqb k) [KLimitX; KLimitBluesky; KLimitMastodon] = true ->
  only k (getValidationErrors d limits wantsSchedule) =
    List.concat
      (mapIndexed (fun segment index =>
                     only k (segmentLimitErrors d limits segment index))
         0 (trimmedSegments d)).
Proof.
  intros Hk. rewrite only_getValidationErrors.
  rewrite (only_outside k _ _ (blueskyMedia_kinds d))
    by (destruct k; simpl in *; congruence).
  rewrite (only_outside k _ _ (mastodonMediaErrors_kinds d limits))
    by (destruct k; simpl in *; congruence).
  rewrite (only_outside k _ _ (scheduleErrors_kinds d wantsSchedule))
    by (destruct k; simpl in *; congruence).
  rewrite only_concat, map_mapIndexed, !app_nil_r.
  destruct k; simpl in Hk; try discriminate;
    rewrite !andb_false_r; reflexivity.
Qed.

(** X-limit violations: one per segment longer than the limit, when X
    is selected. *)
Lemma only_limitX :
  only KLimitX (getValidationErrors d limits wantsSchedule) =
    List.concat
      (mapIndexed (fun segment index =>
                     when (sel_x (selectedTargets d)
                           && (xLimitOf limits <? countCharacters segment))
                       (ExceedsX (labelOf d index) (countCharacters segment)
                          (xLimitOf limits)))
         0 (trimmedSegments d)).
Proof.
  rewrite only_limits by reflexivity. f_equal. apply mapIndexed_ext.
  intros segment index. unfold segmentLimitErrors.
  rewrite !only_app, !only_when. simpl. rewrite andb_true_r, andb_false_r.
  fold (xLimitOf limits). fold (labelOf d index).
  assert (Hm : only KLimitX
                 match
                   match limits with
                   | Some l => option_map masto_maxCharacters (limits_mastodon l)
                   | None => None
                   end
                 with
                 | Some mastodonLimit =>
                     when (sel_mastodon (selectedTargets d)
                           && negb (mastodonLimit =? 0)
                           && (mastodonLimit <? countCharacters segment))
                       (ExceedsMastodon (labelOf d index)
                          (countCharacters segment) mastodonLimit)
                 | None => []
                 end = []).
  { destruct (match limits with Some _ => _ | None => _ end);
      [rewrite only_when; simpl; now rewrite andb_false_r|reflexivity]. }
  rewrite Hm, app_nil_r.
  now destruct (sel_x (selectedTargets d) && _).
Qed.

Lemma only_limitBluesky :
  only KLimitBluesky (getValidationErrors d limits wantsSchedule) =
    List.concat
      (mapIndexed (fun segment index =>
                     when (sel_bluesky (selectedTargets d)
                           && (blueskyLimitOf limits <? countCharacters segment))
                       (ExceedsBluesky (labelOf d index) (countCharacters segment)
                          (blueskyLimitOf limits)))
         0 (trimmedSegments d)).
Proof.
  rewrite only_limits by reflexivity. f_equal. apply mapIndexed_ext.
  intros segment index. unfold segmentLimitErrors.
  rewrite !only_app, !only_when. simpl. rewrite andb_true_r, andb_false_r.
  fold (blueskyLimitOf limits). fold (labelOf d index).
  assert (Hm : only KLimitBluesky
                 match
                   match limits with
                   | Some l => option_map masto_maxCharacters (limits_mastodon l)
                   | None => None
                   end
                 with
                 | Some mastodonLimit =>
                     when (sel_mastodon (selectedTargets d)
                           && negb (mastodonLimit =? 0)
                           && (mastodonLimit <? countCharacters segment))
                       (ExceedsMastodon (labelOf d index)
                          (countCharacters segment) mastodonLimit)
                 | None => []
                 end = []).
  { destruct (match limits with Some _ => _ | None => _ end);
      [rewrite only_when; simpl; now rewrite andb_false_r|reflexivity]. }
  rewrite Hm, app_nil_r.
  now destruct (sel_bluesky (selectedTargets d) && _).
Qed.

Lemma only_limitMastodon :
  only KLimitMastodon (getValidationErrors d limits wantsSchedule) =
    List.concat
      (mapIndexed (fun segment index =>
                     match mastodonLimitOf limits with
                     | Some mastodonLimit =>
                         when (sel_mastodon (selectedTargets d)
                               && negb (mastodonLimit =? 0)
                               && (mastodonLimit <? countCharacters segment))
                           (ExceedsMastodon (labelOf d index)
                              (countCharacters segment) mastodonLimit)
                     | None => []
                     end)
         0 (trimmedSegments d)).
Proof.
  rewrite only_limits by reflexivity. f_equal. apply mapIndexed_ext.
  intros segment index. unfold segmentLimitErrors.
  rewrite !only_app, !only_when. simpl. rewrite !andb_false_r. simpl.
  fold (mastodonLimitOf limits). fold (labelOf d index).
  destruct (mastodonLimitOf limits); [|reflexivity].
  rewrite only_when. simpl. now rewrite andb_true_r.
Qed.

End LimitFacts.


(* ================================================================== *)
(** ** Thread text and character limits *)
(* ================================================================== *)

(** C3, as stated, fails: in a thread with one non-empty and two empty
    segments the validation pushes a single "Each thread segment should
    contain text." violation, not one for each of the two empty segments. *)
Lemma thread_empty_segments_flagged_once :
  mode threadWithTwoBlanks = thread_mode
  /\ existsb (fun s => negb (isEmptyString s)) (trimmedSegments threadWithTwoBlanks) = true
  /\ emptySegmentCount threadWithTwoBlanks = 2%nat
  /\ only KEmptySegment
       (@getValidationErrors Sample.runtime threadWithTwoBlanks None false)
     = [EmptyThreadSegment]
  /\ List.length
       (only KEmptySegment
          (@getValidationErrors Sample.runtime threadWithTwoBlanks None false))
     <> emptySegmentCount threadWithTwoBlanks
  /\ @getValidationMessages Sample.runtime threadWithTwoBlanks None false
     = [js "Each thread segment should contain text."].
Proof. repeat split; try reflexivity. vm_compute. discriminate. Qed.

(** C3 (amended): in thread mode the missing-text violation is pushed
    exactly when every segment trims to empty, and the empty-segment
    violation is pushed once, exactly when at least one segment trims to
    empty, however many segments are empty. *)
Theorem thread_text_violations `{Runtime} (d : ComposeDraft)
  (limits : option LimitsResponse) (wantsSchedule : bool) :
  mode d = thread_mode ->
  let errors := getValidationErrors d limits wantsSchedule in
  let segments := map (fun s => trim (seg_text s)) (thread d) in
  only KText errors
    = (if forallb isEmptyString segments then [AddPostText] else [])
  /\ only KEmptySegment errors
    = (if existsb isEmptyString segments then [EmptyThreadSegment] else [])
  /\ (In AddPostText errors <-> forall s, In s segments -> s = []).
Proof.
  intros Hmode errors segments.
  assert (Hseg : trimmedSegments d = segments).
  { unfold trimmedSegments, segments. rewrite Hmode. apply map_map. }
  assert (Htext : only KText errors
                  = (if forallb isEmptyString segments then [AddPostText] else [])).
  { unfold errors. rewrite only_getValidationErrors.
    rewrite (only_outside KText _ _ (limits_kinds d limits _ _)) by reflexivity.
    rewrite (only_outside KText _ _ (blueskyMedia_kinds d)) by reflexivity.
    rewrite (only_outside KText _ _ (mastodonMediaErrors_kinds d limits)) by reflexivity.
    rewrite (only_outside KText _ _ (scheduleErrors_kinds d wantsSchedule)) by reflexivity.
    rewrite Hseg. simpl. rewrite !andb_false_r, andb_true_r. simpl.
    now rewrite app_nil_r. }
  split; [exact Htext|]. split.
  - unfold errors. rewrite only_getValidationErrors.
    rewrite (only_outside KEmptySegment _ _ (limits_kinds d limits _ _)) by reflexivity.
    rewrite (only_outside KEmptySegment _ _ (blueskyMedia_kinds d)) by reflexivity.
    rewrite (only_outside KEmptySegment _ _ (mastodonMediaErrors_kinds d limits))
      by reflexivity.
    rewrite (only_outside KEmptySegment _ _ (scheduleErrors_kinds d wantsSchedule))
      by reflexivity.
    rewrite Hseg, Hmode. simpl. rewrite !andb_false_r, andb_true_r. simpl.
    now rewrite app_nil_r.
  - assert (Hin : In AddPostText errors <-> In AddPostText (only KText errors)).
    { unfold only. rewrite filter_In. simpl. tauto. }
    rewrite Hin, Htext. destruct (forallb isEmptyString segments) eqn:Hall.
    + rewrite forallb_forall in Hall. split; [|simpl; tauto].
      intros _ s Hs. now apply isEmptyString_nil, Hall.
    + split; [intros []|]. intros Hempty.
      assert (forallb isEmptyString segments = true); [|congruence].
      apply forallb_forall. intros s Hs. now apply isEmptyString_nil, Hempty.
Qed.

Lemma thread_text_violations_witness :
  mode threadWithTwoBlanks = thread_mode
  /\ only KText (@getValidationErrors Sample.runtime threadWithTwoBlanks None false) = []
  /\ only KEmptySegment
       (@getValidationErrors Sample.runtime threadWithTwoBlanks None false)
     = [EmptyThreadSegment].
Proof.
  split; [reflexivity|].
  pose proof (@thread_text_violations Sample.runtime threadWithTwoBlanks None false
                eq_refl) as [Htext [Hempty _]].
  split; [exact Htext | exact Hempty].
Defined.










(* ================================================================== *)
(** ** The Bluesky media rule *)
(* ================================================================== *)

Section NumMapFacts.
Context {V : Type}.

Lemma mapGet_mapSet (m : NumMap V) (key : Z) (value : V) (key' : Z) :
  mapGet (mapSet m key value) key'
  = if key =? key' then Some value else mapGet m key'.
Proof.
  induction m as [|[k v] rest IH]; simpl.
  - reflexivity.
  - destruct (Z.eqb_spec k key) as [->|Hk]; simpl.
    + now destruct (Z.eqb_spec key key').
    + rewrite IH. destruct (Z.eqb_spec k key') as [->|Hk'];
        [destruct (Z.eqb_spec key key'); congruence | reflexivity].
Qed.

Lemma in_keys_mapSet (m : NumMap V) (key : Z) (value : V) (k : Z) :
  In k (map fst (mapSet m key value)) <-> In k (map fst m) \/ k = key.
Proof.
  induction m as [|[k0 v0] rest IH]; simpl.
  - intuition.
  - destruct (Z.eqb_spec k0 key) as [->|Hk]; simpl; [intuition|].
    rewrite IH. intuition.
Qed.

Lemma NoDup_mapSet (m : NumMap V) (key : Z) (value : V) :
  NoDup (map fst m) -> NoDup (map fst (mapSet m key value)).
Proof.
  induction m as [|[k0 v0] rest IH]; simpl; intros Hnd.
  - constructor; [intros []|constructor].
  - inversion Hnd as [|? ? Hnotin Hrest]; subst.
    destruct (Z.eqb_spec k0 key) as [->|Hk]; simpl.
    + now constructor.
    + constructor; [|now apply IH].
      rewrite in_keys_mapSet. intros [Hin|Heq]; [contradiction|congruence].
Qed.

Lemma mapGet_absent (m : NumMap V) (key : Z) :
  ~ In key (map fst m) -> mapGet m key = None.
Proof.
  induction m as [|[k v] rest IH]; simpl; intros Hnot; [reflexivity|].
  destruct (Z.eqb_spec k key) as [->|Hk]; [tauto|]. apply IH. tauto.
Qed.

End NumMapFacts.

Lemma groupMedia_fold (entries : list DraftMedia) :
  groupMedia entries = fold_left groupStep entries [].
Proof. reflexivity. Qed.

Lemma group_fold_get (entries : list DraftMedia) :
  forall (m : NumMap (list DraftMedia)) (k : Z),
    mapGet (fold_left groupStep entries m) k
    = match segmentMedia k entries with
      | [] => mapGet m k
      | extra => Some (orElse (mapGet m k) [] ++ extra)
      end.
Proof.
  induction entries as [|e rest IH]; intros m k; [reflexivity|].
  simpl fold_left. rewrite IH.
  assert (Hstep : mapGet (groupStep m e) k
                  = if media_threadIndex e =? k
                    then Some (orElse (mapGet m (media_threadIndex e)) [] ++ [e])
                    else mapGet m k).
  { unfold groupStep. now rewrite mapGet_mapSet. }
  rewrite Hstep. unfold segmentMedia. simpl filter. fold (segmentMedia k rest).
  destruct (Z.eqb_spec (media_threadIndex e) k) as [->|Hk]; [|reflexivity].
  destruct (segmentMedia k rest); simpl; [reflexivity|].
  now rewrite <- app_assoc.
Qed.

Lemma group_fold_NoDup (entries : list DraftMedia) :
  forall m : NumMap (list DraftMedia),
    NoDup (map fst m) -> NoDup (map fst (fold_left groupStep entries m)).
Proof.
  induction entries as [|e rest IH]; intros m Hnd; [exact Hnd|].
  simpl. apply IH. now apply NoDup_mapSet.
Qed.

(** The group of segment [k]: its media in order, when it has any. *)
Lemma groupMedia_get (entries : list DraftMedia) (k : Z) :
  mapGet (groupMedia entries) k
  = match segmentMedia k entries with
    | [] => None
    | group => Some group
    end.
Proof.
  rewrite groupMedia_fold, group_fold_get. simpl.
  now destruct (segmentMedia k entries).
Qed.

Lemma groupMedia_NoDup (entries : list DraftMedia) :
  NoDup (map fst (groupMedia entries)).
Proof. rewrite groupMedia_fold. apply group_fold_NoDup. constructor. Qed.

Lemma filter_when (p : Violation -> bool) (c : bool) (v : Violation) :
  filter p (when c v) = when (c && p v) v.
Proof. destruct c; simpl; [destruct (p v)|]; reflexivity. Qed.

Lemma blueskyMediaAt_segment (k i : Z) (entries : list DraftMedia) :
  filter (blueskyMediaAt k) (blueskySegmentErrors i entries)
  = if i =? k then blueskySegmentErrors i entries else [].
Proof.
  unfold blueskySegmentErrors. rewrite !filter_app, !filter_when. simpl.
  destruct (i =? k); [now rewrite !andb_true_r | now rewrite !andb_false_r].
Qed.

Lemma blueskyMediaAt_groups (k : Z) (m : NumMap (list DraftMedia)) :
  NoDup (map fst m) ->
  filter (blueskyMediaAt k)
    (flat_map (fun '(threadIndex, entries) =>
                 blueskySegmentErrors threadIndex entries) m)
  = match mapGet m k with
    | Some entries => blueskySegmentErrors k entries
    | None => []
    end.
Proof.
  induction m as [|[i entries] rest IH]; intros Hnd; [reflexivity|].
  inversion Hnd as [|? ? Hnotin Hrest]; subst.
  simpl. rewrite filter_app, blueskyMediaAt_segment, IH by assumption.
  destruct (Z.eqb_spec i k) as [->|Hk]; [|reflexivity].
  rewrite (mapGet_absent rest k Hnotin). apply app_nil_r.
Qed.

Lemma blueskyMediaAt_kind (k : Z) (v : Violation) :
  blueskyMediaAt k v = true -> kind v = KBlueskyMedia.
Proof. destruct v; simpl; intros; congruence. Qed.

Lemma filter_only (p : Violation -> bool) (k : Kind) (errors : list Violation) :
  (forall v, p v = true -> kind v = k) ->
  filter p errors = filter p (only k errors).
Proof.
  intros Hp. induction errors as [|v rest IH]; [reflexivity|].
  simpl. destruct (p v) eqn:Hv.
  - rewrite (Hp v Hv). replace (Kind_eqb k k) with true by now destruct k.
    simpl. now rewrite Hv, IH.
  - destruct (Kind_eqb (kind v) k); simpl; [rewrite Hv|]; exact IH.
Qed.

Lemma only_blueskyMedia `{Runtime} (d : ComposeDraft)
  (limits : option LimitsResponse) (wantsSchedule : bool) :
  only KBlueskyMedia (getValidationErrors d limits wantsSchedule)
  = if sel_bluesky (selectedTargets d) then
      flat_map (fun '(threadIndex, entries) =>
                  blueskySegmentErrors threadIndex entries)
        (groupMedia (media d))
    else [].
Proof.
  rewrite only_getValidationErrors.
  rewrite (only_outside KBlueskyMedia _ _ (limits_kinds d limits _ _)) by reflexivity.
  rewrite (only_outside KBlueskyMedia _ _ (mastodonMediaErrors_kinds d limits))
    by reflexivity.
  rewrite (only_outside KBlueskyMedia _ _ (scheduleErrors_kinds d wantsSchedule))
    by reflexivity.
  rewrite (only_inside KBlueskyMedia _ (blueskyMedia_kinds d)).
  simpl. rewrite !andb_false_r. simpl. now rewrite app_nil_r.
Qed.

Lemma blueskyMediaAt_errors `{Runtime} (d : ComposeDraft)
  (limits : option LimitsResponse) (wantsSchedule : bool) (k : Z) :
  filter (blueskyMediaAt k) (getValidationErrors d limits wantsSchedule)
  = if sel_bluesky (selectedTargets d)
    then blueskySegmentErrors k (segmentMedia k (media d))
    else [].
Proof.
  rewrite (filter_only _ KBlueskyMedia _ (blueskyMediaAt_kind k)).
  rewrite only_blueskyMedia. destruct (sel_bluesky (selectedTargets d));
    [|reflexivity].
  rewrite blueskyMediaAt_groups by apply groupMedia_NoDup.
  rewrite groupMedia_get. now destruct (segmentMedia k (media d)).
Qed.

(** C4: with Bluesky selected, the media are grouped by [threadIndex] and,
    for each segment [k], the validation pushes "allows only one video"
    when the segment has two or more videos, "cannot mix video and images"
    when it has one video and at least one image, and "supports up to 4
    images" when it has no video and more than four images; each at most
    once per segment and nothing else for that segment.  A segment with a
    video and an image therefore always has a violation, and one with no
    video and at most four images has none. *)
Theorem bluesky_media_rule `{Runtime} (d : ComposeDraft)
  (limits : option LimitsResponse) (wantsSchedule : bool) (k : Z) :
  sel_bluesky (selectedTargets d) = true ->
  let errors := getValidationErrors d limits wantsSchedule in
  let videos := videoCount k d in
  let images := imageCount k d in
  filter (blueskyMediaAt k) errors
  = when (1 <? videos) (BlueskyOneVideo k)
    ++ when ((videos =? 1) && (0 <? images)) (BlueskyMixedMedia k)
    ++ when ((videos =? 0) && (4 <? images)) (BlueskyFourImages k)
  /\ (2 <= videos -> In (BlueskyOneVideo k) errors)
  /\ (videos = 1 -> 1 <= images -> In (BlueskyMixedMedia k) errors)
  /\ (1 <= videos -> 1 <= images ->
      exists v, In v errors /\ blueskyMediaAt k v = true)
  /\ (videos = 0 -> 4 < images -> In (BlueskyFourImages k) errors)
  /\ (videos = 0 -> images <= 4 -> filter (blueskyMediaAt k) errors = []).
Proof.
  intros Hsel errors videos images.
  assert (Heq : filter (blueskyMediaAt k) errors
                = when (1 <? videos) (BlueskyOneVideo k)
                  ++ when ((videos =? 1) && (0 <? images)) (BlueskyMixedMedia k)
                  ++ when ((videos =? 0) && (4 <? images)) (BlueskyFourImages k)).
  { unfold errors. rewrite blueskyMediaAt_errors, Hsel. reflexivity. }
  assert (Hin : forall v, In v (filter (blueskyMediaAt k) errors) -> In v errors).
  { intros v Hv. now apply filter_In in Hv. }
  assert (Hone : 2 <= videos -> In (BlueskyOneVideo k) errors).
  { intros Hv. apply Hin. rewrite Heq.
    replace (1 <? videos) with true by (symmetry; apply Z.ltb_lt; lia).
    now left. }
  assert (Hmix : videos = 1 -> 1 <= images -> In (BlueskyMixedMedia k) errors).
  { intros Hv Hi. apply Hin. rewrite Heq, Hv.
    replace (0 <? images) with true by (symmetry; apply Z.ltb_lt; lia).
    now left. }
  split; [exact Heq|]. split; [exact Hone|]. split; [exact Hmix|]. split.
  { intros Hv Hi. destruct (Z.eq_dec videos 1) as [Hv1|Hv1].
    - exists (BlueskyMixedMedia k). split; [now apply Hmix|apply Z.eqb_refl].
    - exists (BlueskyOneVideo k). split; [apply Hone; lia|apply Z.eqb_refl]. }
  split.
  { intros Hv Hi. apply Hin. rewrite Heq, Hv.
    replace (4 <? images) with true by (symmetry; apply Z.ltb_lt; lia).
    now left. }
  intros Hv Hi. rewrite Heq, Hv.
  replace (4 <? images) with false by (symmetry; apply Z.ltb_ge; lia).
  reflexivity.
Qed.

Lemma bluesky_media_rule_witness :
  sel_bluesky (selectedTargets (postWith [picture 1; picture 2; picture 3; picture 4]))
  = true
  /\ filter (blueskyMediaAt 0)
       (@getValidationErrors Sample.runtime
          (postWith [picture 1; picture 2; picture 3; picture 4]) None false) = []
  /\ In (BlueskyOneVideo 0)
       (@getValidationErrors Sample.runtime (postWith [clip 1; clip 2]) None false)
  /\ In (BlueskyMixedMedia 0)
       (@getValidationErrors Sample.runtime (postWith [clip 1; picture 2]) None false)
  /\ In (BlueskyFourImages 0)
       (@getValidationErrors Sample.runtime
          (postWith [picture 1; picture 2; picture 3; picture 4; picture 5])
          None false).
Proof.
  split; [reflexivity|].
  pose proof (@bluesky_media_rule Sample.runtime
                (postWith [picture 1; picture 2; picture 3; picture 4]) None false 0
                eq_refl) as (_ & _ & _ & _ & _ & Hfour).
  pose proof (@bluesky_media_rule Sample.runtime (postWith [clip 1; clip 2]) None
                false 0 eq_refl) as (_ & Hvideos & _).
  pose proof (@bluesky_media_rule Sample.runtime (postWith [clip 1; picture 2]) None
                false 0 eq_refl) as (_ & _ & Hmixed & _).
  pose proof (@bluesky_media_rule Sample.runtime
                (postWith [picture 1; picture 2; picture 3; picture 4; picture 5])
                None false 0 eq_refl) as (_ & _ & _ & _ & Hfive & _).
  split; [apply Hfour; vm_compute; [reflexivity | discriminate]|].
  split; [apply Hvideos; vm_compute; discriminate|].
  split; [apply Hmixed; vm_compute; [reflexivity | discriminate]|].
  apply Hfive; vm_compute; reflexivity.
Defined.

(* ================================================================== *)
(** ** The credential resolver *)
(* ================================================================== *)

Lemma selection_wants (selection : TargetSelection) :
  truthy (getProp (Some (selectionJson selection)) (js "x")) = sel_x selection
  /\ truthy (getProp (Some (selectionJson selection)) (js "bluesky"))
     = sel_bluesky selection
  /\ truthy (getProp (Some (selectionJson selection)) (js "mastodon"))
     = sel_mastodon selection.
Proof. destruct selection as [x b m]. repeat split. Qed.

Lemma selection_count (selection : TargetSelection) :
  Z.of_nat
    (List.length
       (filter (fun v => truthy (Some v)) (objectValues (selectionJson selection))))
  = Z.of_nat (List.length (filter (selects selection) platforms)).
Proof. destruct selection as [[] [] []]; reflexivity. Qed.

Lemma resolve_undefined (secrets : StoredSecrets) :
  resolveTargetsFromSelection secrets None
  = resolveTargetsFromSelection secrets (Some (selectionJson (autoSelection secrets))).
Proof. reflexivity. Qed.

Lemma resolve_selection (secrets : StoredSecrets) (selection : TargetSelection) :
  resolveTargetsFromSelection secrets (Some (selectionJson selection))
  = {| targets :=
         {| target_x :=
              if sel_x selection && credentialed secrets PX then
                Some {| xt_authToken := chain (secret_x secrets) xs_authToken;
                        xt_client := js "web" |}
              else None;
            target_bluesky :=
              if sel_bluesky selection && credentialed secrets PBluesky then
                Some {| bt_identifier := chain (secret_bluesky secrets) bs_identifier;
                        bt_pdsUrl := chain (secret_bluesky secrets) bs_pdsUrl;
                        bt_appPassword :=
                          chain (secret_bluesky secrets) bs_appPassword |}
              else None;
            target_mastodon :=
              if sel_mastodon selection && credentialed secrets PMastodon then
                Some {| mt_instanceUrl :=
                          chain (secret_mastodon secrets) ms_instanceUrl;
                        mt_accessToken :=
                          chain (secret_mastodon secrets) ms_accessToken;
                        mt_visibility :=
                          orElse (chain (secret_mastodon secrets) ms_visibility)
                            (js "public") |}
              else None |};
       missing :=
         map platformName
           (filter (fun p => selects selection p && negb (credentialed secrets p))
              platforms);
       selectedCount :=
         Z.of_nat (List.length (filter (selects selection) platforms)) |}.
Proof.
  destruct selection as [x b m].
  unfold resolveTargetsFromSelection, credentialed, summarizeSecrets, selectionJson.
  cbn [cfg_x cfg_bluesky cfg_mastodon sel_x sel_bluesky sel_mastodon]. cbv zeta.
  generalize (present (chain (secret_x secrets) xs_authToken)) as hasX.
  generalize (present (chain (secret_bluesky secrets) bs_identifier)
              && present (chain (secret_bluesky secrets) bs_pdsUrl)
              && present (chain (secret_bluesky secrets) bs_appPassword))
    as hasBluesky.
  generalize (present (chain (secret_mastodon secrets) ms_instanceUrl)
              && present (chain (secret_mastodon secrets) ms_accessToken))
    as hasMastodon.
  intros hasMastodon hasBluesky hasX.
  destruct x, b, m, hasX, hasBluesky, hasMastodon; reflexivity.
Qed.

Lemma autoSelection_selects (secrets : StoredSecrets) (p : Platform) :
  selects (autoSelection secrets) p = credentialed secrets p.
Proof. now destruct p. Qed.

(** C1: for stored secrets and a requested selection (or none), the
    resolver emits a block for exactly the platforms that are selected and
    fully credentialed, each block carrying the stored values; [missing]
    lists exactly the selected platforms without credentials; and
    [selectedCount] is the number of platforms the selection requests.
    Without a requested selection the selection is exactly the credentialed
    platforms, so nothing is missing; with no secrets and no selection the
    result is empty. *)
Theorem resolve_targets (secrets : StoredSecrets) (requested : option TargetSelection) :
  let selection := orElse requested (autoSelection secrets) in
  let r := resolveTargetsFromSelection secrets (option_map selectionJson requested) in
  (forall p, hasBlock (targets r) p = selects selection p && credentialed secrets p)
  /\ (forall block, target_x (targets r) = Some block ->
        xt_authToken block = chain (secret_x secrets) xs_authToken
        /\ present (xt_authToken block) = true
        /\ xt_client block = js "web")
  /\ (forall block, target_bluesky (targets r) = Some block ->
        bt_identifier block = chain (secret_bluesky secrets) bs_identifier
        /\ bt_pdsUrl block = chain (secret_bluesky secrets) bs_pdsUrl
        /\ bt_appPassword block = chain (secret_bluesky secrets) bs_appPassword
        /\ present (bt_identifier block) && present (bt_pdsUrl block)
           && present (bt_appPassword block) = true)
  /\ (forall block, target_mastodon (targets r) = Some block ->
        mt_instanceUrl block = chain (secret_mastodon secrets) ms_instanceUrl
        /\ mt_accessToken block = chain (secret_mastodon secrets) ms_accessToken
        /\ mt_visibility block
           = orElse (chain (secret_mastodon secrets) ms_visibility) (js "public")
        /\ present (mt_instanceUrl block) && present (mt_accessToken block) = true)
  /\ missing r
     = map platformName
         (filter (fun p => selects selection p && negb (credentialed secrets p))
            platforms)
  /\ selectedCount r = Z.of_nat (List.length (filter (selects selection) platforms))
  /\ (requested = None ->
      (forall p, selects selection p = credentialed secrets p) /\ missing r = [])
  /\ resolveTargetsFromSelection noSecrets None
     = {| targets := noTargets; missing := []; selectedCount := 0 |}.
Proof.
  intros selection r.
  assert (Hr : r = resolveTargetsFromSelection secrets (Some (selectionJson selection))).
  { unfold r, selection. destruct requested; [reflexivity|apply resolve_undefined]. }
  rewrite resolve_selection in Hr. rewrite Hr. cbn [targets missing selectedCount].
  split.
  { intros []; cbn [hasBlock target_x target_bluesky target_mastodon selects].
    - now destruct (sel_x selection && credentialed secrets PX).
    - now destruct (sel_bluesky selection && credentialed secrets PBluesky).
    - now destruct (sel_mastodon selection && credentialed secrets PMastodon). }
  split.
  { cbn [target_x]. intros block.
    destruct (sel_x selection); [|discriminate]. cbn [andb].
    destruct (credentialed secrets PX) eqn:Hc; [|discriminate].
    intros Hblock. injection Hblock as <-. cbn [xt_authToken xt_client]. now repeat split. }
  split.
  { cbn [target_bluesky]. intros block.
    destruct (sel_bluesky selection); [|discriminate]. cbn [andb].
    destruct (credentialed secrets PBluesky) eqn:Hc; [|discriminate].
    intros Hblock. injection Hblock as <-. cbn [bt_identifier bt_pdsUrl bt_appPassword].
    now repeat split. }
  split.
  { cbn [target_mastodon]. intros block.
    destruct (sel_mastodon selection); [|discriminate]. cbn [andb].
    destruct (credentialed secrets PMastodon) eqn:Hc; [|discriminate].
    intros Hblock. injection Hblock as <-. cbn [mt_instanceUrl mt_accessToken mt_visibility].
    now repeat split. }
  split; [reflexivity|]. split; [reflexivity|]. split; [|reflexivity].
  intros ->. unfold selection. cbn [orElse]. split.
  - apply autoSelection_selects.
  - unfold platforms. cbn [filter]. rewrite !autoSelection_selects.
    now rewrite !andb_negb_r.
Qed.

Lemma resolve_targets_witness :
  let selection := {| sel_x := true; sel_bluesky := true; sel_mastodon := false |} in
  let r := resolveTargetsFromSelection onlyXSecrets (Some (selectionJson selection)) in
  missing r = [js "bluesky"]
  /\ hasBlock (targets r) PX = true
  /\ hasBlock (targets r) PBluesky = false
  /\ selectedCount r = 2
  /\ missing (resolveTargetsFromSelection onlyXSecrets None) = [].
Proof.
  intros selection r.
  pose proof (resolve_targets onlyXSecrets (Some selection))
    as (Hblocks & _ & _ & _ & Hmissing & Hcount & _).
  pose proof (resolve_targets onlyXSecrets None) as (_ & _ & _ & _ & _ & _ & Hauto & _).
  split; [exact Hmissing|]. split; [exact (Hblocks PX)|].
  split; [exact (Hblocks PBluesky)|]. split; [exact Hcount|].
  exact (proj2 (Hauto eq_refl)).
Defined.

(* ================================================================== *)
(** ** POST /api/posts: selection and credential errors *)
(* ================================================================== *)

Section PostsFacts.
Context `{Runtime}.
Variable upstream : UpstreamRequest -> UpstreamResponse + jsstring.

Lemma checkResolved_empty (r : Resolved) (k : unit -> Handler Reply) (w : World) :
  selectedCount r = 0 -> bind (checkResolved r) k w = (Return noTargetsReply, w).
Proof. intros Hc. unfold bind, checkResolved. now rewrite Hc. Qed.

Lemma checkResolved_missing (r : Resolved) (k : unit -> Handler Reply) (w : World) :
  1 <= selectedCount r -> missing r <> [] ->
  bind (checkResolved r) k w = (Return (missingCredentialsReply (missing r)), w).
Proof.
  intros Hc Hm. unfold bind, checkResolved.
  replace (selectedCount r =? 0) with false by (symmetry; apply Z.eqb_neq; lia).
  destruct (missing r) as [|m rest]; [congruence|]. reflexivity.
Qed.

Lemma selectedTargetsOf_bind (clientPayload : json)
  (k : option json -> Handler Reply) (w : World) :
  clientPayload <> JNull ->
  bind (selectedTargetsOf clientPayload) k w
  = k (getProp (Some clientPayload) (js "selectedTargets")) w.
Proof. intros Hn. destruct clientPayload; try reflexivity. congruence. Qed.

(** What the handler does once it has a client payload: the steps shared
    by the multipart and the JSON branch. *)
Lemma postPosts_resolves (request : PostRequest) (w : World) (clientPayload : json) :
  clientPayloadOf request = Some clientPayload ->
  exists k : unit -> Handler Reply,
    postPosts upstream request w
    = tryCatch
        (bind (checkResolved
                 (resolveTargetsFromSelection (orElse (keychain w) noSecrets)
                    (getProp (Some clientPayload) (js "selectedTargets"))))
           k)
        (fun error =>
           let status :=
             match error with
             | HelperError status _ => status
             | OtherError _ => 500
             end in
           send (problemReply status (js "Publish failed") (errorMessage error)))
        w.
Proof.
  unfold clientPayloadOf, postPosts. intros Hpayload.
  destruct (includes (orElse (req_contentType request) []) (js "multipart/form-data")).
  - destruct (collectParts (req_parts request)) as [[payloadRaw uploadedMedia]|limit];
      [|discriminate].
    destruct payloadRaw as [|c raw]; [discriminate|].
    destruct (JSON_parse (c :: raw)) as [parsed|] eqn:Hparse; [|discriminate].
    assert (Hnull : parsed <> JNull) by (intros ->; discriminate).
    assert (parsed = clientPayload) as ->.
    { destruct parsed; congruence. }
    eexists. unfold tryCatch, bind at 1 2, readConfig, readSecrets.
    rewrite bind_ret. cbv iota beta. rewrite Hparse.
    rewrite selectedTargetsOf_bind by assumption. reflexivity.
  - injection Hpayload as <-. eexists.
    unfold tryCatch, bind at 1 2, readConfig, readSecrets.
    rewrite selectedTargetsOf_bind by (destruct (req_body request) as [[]|]; discriminate).
    reflexivity.
Qed.

End PostsFacts.

Lemma selectedCount_nonneg (secrets : StoredSecrets) (requested : option json) :
  0 <= selectedCount (resolveTargetsFromSelection secrets requested).
Proof.
  unfold resolveTargetsFromSelection. cbv zeta.
  repeat match goal with
         | |- context [if ?c then _ else _] => destruct c
         end;
    cbn [selectedCount]; apply Nat2Z.is_nonneg.
Qed.

(** C2: for every publish request, JSON or multipart, that carries a
    client payload, the handler answers 400 "No targets selected" when the
    resolved [selectedCount] is 0, and 400 "Missing credentials", with the
    missing platform ids listed in the detail, when [selectedCount] is at
    least 1 and a selected platform lacks credentials.  The emptiness check
    comes first, and in both cases the world is left as it was: nothing is
    sent upstream. *)
Theorem posts_reject_unresolved_targets `{Runtime}
  (upstream : UpstreamRequest -> UpstreamResponse + jsstring)
  (request : PostRequest) (w : World) (clientPayload : json) :
  clientPayloadOf request = Some clientPayload ->
  let resolved :=
    resolveTargetsFromSelection (orElse (keychain w) noSecrets)
      (getProp (Some clientPayload) (js "selectedTargets")) in
  let result := respond (postPosts upstream request) w in
  (selectedCount resolved = 0 -> result = (noTargetsReply, w))
  /\ (1 <= selectedCount resolved -> missing resolved <> [] ->
      result = (missingCredentialsReply (missing resolved), w))
  /\ (selectedCount resolved = 0 \/ missing resolved <> [] ->
      code (fst result) = 400 /\ fetches (snd result) = fetches w).
Proof.
  intros Hpayload resolved result.
  destruct (postPosts_resolves upstream request w clientPayload Hpayload) as [k Hk].
  fold resolved in Hk.
  assert (Hempty : selectedCount resolved = 0 -> result = (noTargetsReply, w)).
  { intros Hc. unfold result, respond. rewrite Hk. unfold tryCatch.
    now rewrite checkResolved_empty. }
  assert (Hmissing : 1 <= selectedCount resolved -> missing resolved <> [] ->
                     result = (missingCredentialsReply (missing resolved), w)).
  { intros Hc Hm. unfold result, respond. rewrite Hk. unfold tryCatch.
    now rewrite checkResolved_missing. }
  split; [exact Hempty|]. split; [exact Hmissing|].
  intros Hcase.
  assert (Hcount : 0 <= selectedCount resolved).
  { apply selectedCount_nonneg. }
  destruct (Z.eq_dec (selectedCount resolved) 0) as [Hzero|Hpos].
  - now rewrite (Hempty Hzero).
  - destruct Hcase as [Hzero|Hm]; [contradiction|].
    rewrite (Hmissing ltac:(lia) Hm). now split.
Qed.

Lemma posts_reject_unresolved_targets_witness :
  clientPayloadOf (H := Sample.runtime) blueskyOnlyRequest
  = Some (bodyObject (req_body blueskyOnlyRequest))
  /\ respond (@postPosts Sample.runtime Sample.gateway blueskyOnlyRequest) onlyXWorld
     = (missingCredentialsReply [js "bluesky"], onlyXWorld)
  /\ respond (@postPosts Sample.runtime Sample.gateway emptyMultipartRequest)
       Sample.emptyWorld
     = (noTargetsReply, Sample.emptyWorld).
Proof.
  split; [reflexivity|].
  pose proof (@posts_reject_unresolved_targets Sample.runtime Sample.gateway
                blueskyOnlyRequest onlyXWorld _ eq_refl) as (_ & Hmissing & _).
  pose proof (@posts_reject_unresolved_targets Sample.runtime Sample.gateway
                emptyMultipartRequest Sample.emptyWorld (JObj []) eq_refl)
    as (Hempty & _).
  split.
  - apply Hmissing; vm_compute; discriminate.
  - apply Hempty. reflexivity.
Defined.

(* ================================================================== *)
(** ** The gateway payload: text and thread *)
(* ================================================================== *)

(** C6, as stated, fails: a client payload with both a text and a thread
    yields a gateway payload with both fields set, and an empty client
    payload yields one with neither. *)
Lemma gateway_payload_both_or_neither :
  let both := @buildGatewayPayload Sample.runtime textAndThread noTargets in
  let neither := @buildGatewayPayload Sample.runtime (JObj []) noTargets in
  gp_text both = Some (js "hello")
  /\ gp_thread both = Some [ {| seg_text := js "one" |}; {| seg_text := js "two" |} ]
  /\ gp_text neither = None
  /\ gp_thread neither = None.
Proof. repeat split. Qed.

Lemma sanitizeThread_length `{Runtime} (thread : option json)
  (segments : list ThreadSegment) :
  sanitizeThread thread = Some segments ->
  exists items, thread = Some (JArr items)
                /\ List.length segments = List.length items.
Proof.
  unfold sanitizeThread. destruct thread as [[]|]; try discriminate.
  destruct (0 <? _); [|discriminate]. intros Hs. injection Hs as <-.
  eexists. split; [reflexivity|]. apply length_map.
Qed.

(** C6 (amended): the gateway payload has [text] set exactly when the client
    payload's [text] is a non-empty string, and [thread] set exactly when
    the client payload's [thread] is a non-empty array, its elements
    coerced to text segments one for one; anything else in [thread] is
    discarded.  So exactly one of the two is set exactly when the client
    payload holds exactly one of them. *)
Theorem gateway_payload_text_or_thread `{Runtime} (clientPayload : json)
  (targets : Targets) :
  let payload := buildGatewayPayload clientPayload targets in
  isSet (gp_text payload) = holdsText clientPayload
  /\ isSet (gp_thread payload) = holdsThread clientPayload
  /\ (forall s, gp_text payload = Some s ->
        getProp (Some clientPayload) (js "text") = Some (JStr s))
  /\ (forall segments, gp_thread payload = Some segments ->
        exists items,
          getProp (Some clientPayload) (js "thread") = Some (JArr items)
          /\ List.length segments = List.length items
          /\ forall i s,
               nth_error items i = Some (JObj [(js "text", JStr s)]) ->
               nth_error segments i = Some {| seg_text := s |})
  /\ (xorb (isSet (gp_text payload)) (isSet (gp_thread payload))
      = xorb (holdsText clientPayload) (holdsThread clientPayload))
  /\ gp_targets payload = targets.
Proof.
  intros payload.
  assert (Htext : isSet (gp_text payload) = holdsText clientPayload).
  { unfold payload, buildGatewayPayload, holdsText. cbn [gp_text].
    destruct (getProp (Some clientPayload) (js "text")) as [[| | |[|c s]| |]|];
      reflexivity. }
  assert (Hthread : isSet (gp_thread payload) = holdsThread clientPayload).
  { unfold payload, buildGatewayPayload, holdsThread, sanitizeThread.
    cbn [gp_thread].
    destruct (getProp (Some clientPayload) (js "thread")) as [[| | | |[|i items]|]|];
      reflexivity. }
  split; [exact Htext|]. split; [exact Hthread|]. split.
  { unfold payload, buildGatewayPayload. cbn [gp_text].
    destruct (getProp (Some clientPayload) (js "text")) as [[| | |[|c s]| |]|];
      try discriminate.
    intros s' Hs. now injection Hs as <-. }
  split.
  { unfold payload, buildGatewayPayload. cbn [gp_thread]. intros segments Hs.
    unfold sanitizeThread in Hs.
    destruct (getProp (Some clientPayload) (js "thread")) as [[| | | |items|]|];
      try discriminate.
    destruct (0 <? _); [|discriminate]. injection Hs as <-. exists items.
    split; [reflexivity|]. split; [apply length_map|].
    intros i s Hi. rewrite nth_error_map, Hi. reflexivity. }
  split; [now rewrite Htext, Hthread | reflexivity].
Qed.

Lemma gateway_payload_text_or_thread_witness :
  let payload :=
    @buildGatewayPayload Sample.runtime (JObj [(js "text", JStr (js "hello"))])
      noTargets in
  gp_text payload = Some (js "hello")
  /\ isSet (gp_thread payload) = false
  /\ getProp (Some (JObj [(js "text", JStr (js "hello"))])) (js "text")
     = Some (JStr (js "hello")).
Proof.
  intros payload.
  pose proof (@gateway_payload_text_or_thread Sample.runtime
                (JObj [(js "text", JStr (js "hello"))]) noTargets)
    as (_ & Hthread & Htext & _).
  split; [reflexivity|]. split; [exact Hthread|].
  exact (Htext (js "hello") eq_refl).
Defined.

(* ================================================================== *)
(** ** POST /api/settings/secrets *)
(* ================================================================== *)

(** The handler, run: either of the two 400 replies with the world as it
    was, or the saved summary with the new secrets written. *)
Lemma postSecrets_run `{Runtime} (requestBody : option json) (w : World) :
  respond (postSecrets requestBody) w
  = let body := bodyObject requestBody in
    match afterBluesky body (afterKeys body (orElse (keychain w) noSecrets)) with
    | None => (blueskyIncompleteReply, w)
    | Some next =>
        match afterMastodon body next with
        | None => (mastodonIncompleteReply, w)
        | Some next =>
            (ok (SavedBody (summarizeSecrets next) (profileOf next)), written w next)
        end
    end.
Proof.
  unfold postSecrets, respond. cbv zeta.
  unfold bind at 1. unfold readSecrets at 1.
  set (body := bodyObject requestBody).
  set (current := orElse (keychain w) noSecrets).
  assert (Hkeys :
    (if hasOwn body (js "xAuthToken") then
       match trimToUndefined (getProp (Some body) (js "xAuthToken")) with
       | Some authToken =>
           setX
             (if hasOwn body (js "gatewayApiKey") then
                match trimToUndefined (getProp (Some body) (js "gatewayApiKey")) with
                | Some gatewayApiKey => setGatewayApiKey current (Some gatewayApiKey)
                | None => setGatewayApiKey current None
                end
              else current)
             (Some {| xs_authToken := Some authToken |})
       | None =>
           setX
             (if hasOwn body (js "gatewayApiKey") then
                match trimToUndefined (getProp (Some body) (js "gatewayApiKey")) with
                | Some gatewayApiKey => setGatewayApiKey current (Some gatewayApiKey)
                | None => setGatewayApiKey current None
                end
              else current)
             None
       end
     else
       if hasOwn body (js "gatewayApiKey") then
         match trimToUndefined (getProp (Some body) (js "gatewayApiKey")) with
         | Some gatewayApiKey => setGatewayApiKey current (Some gatewayApiKey)
         | None => setGatewayApiKey current None
         end
       else current)
    = afterKeys body current).
  { unfold afterKeys. cbv zeta.
    destruct (hasOwn body (js "gatewayApiKey"));
      destruct (trimToUndefined (getProp (Some body) (js "gatewayApiKey")));
      reflexivity. }
  rewrite Hkeys. generalize (afterKeys body current) as next. intros next.
  unfold afterBluesky, afterMastodon, blueskyTuple, mastodonTuple, tupleState.
  fold (touchesBluesky body). fold (touchesMastodon body).
  fold (blueskyIdentifierOf body). fold (blueskyPdsUrlOf body).
  fold (blueskyAppPasswordOf body). fold (mastodonInstanceUrlOf body).
  fold (mastodonAccessTokenOf body). fold (mastodonVisibilityOf body).
  cbn [forallb].
  destruct (touchesBluesky body);
    [destruct (present (blueskyIdentifierOf body)),
       (present (blueskyPdsUrlOf body)), (present (blueskyAppPasswordOf body))|];
    cbn [negb andb bind ret send];
    try reflexivity;
    (destruct (touchesMastodon body);
     [destruct (present (mastodonInstanceUrlOf body)),
        (present (mastodonAccessTokenOf body))|];
     reflexivity).
Qed.







(** C10: a rejected request writes nothing.  Whenever the handler answers
    400, which it does exactly for a partial Bluesky or Mastodon tuple, the
    world is as it was before: the keychain entry is unchanged and no
    write was made, whatever other fields the request carried.  Otherwise
    it answers 200 after exactly one write. *)
Theorem secrets_rejection_writes_nothing `{Runtime} (requestBody : option json)
  (w : World) :
  let result := respond (postSecrets requestBody) w in
  (code (fst result) = 400 -> snd result = w)
  /\ (code (fst result) = 400 ->
      fst result = blueskyIncompleteReply \/ fst result = mastodonIncompleteReply)
  /\ (code (fst result) <> 400 ->
      code (fst result) = 200
      /\ exists next, snd result = written w next)
  /\ (snd result = w -> code (fst result) = 400).
Proof.
  intros result. unfold result. rewrite postSecrets_run. cbv zeta.
  destruct (afterBluesky _ _) as [next1|].
  - destruct (afterMastodon _ next1) as [next|]; cbn [fst snd code ok].
    + split; [discriminate|]. split; [discriminate|].
      split; [intros _; split; [reflexivity|now exists next]|].
      intros Hsame. apply (f_equal keychainWrites) in Hsame.
      cbn [written keychainWrites] in Hsame.
      apply (f_equal (@List.length _)) in Hsame.
      rewrite length_app in Hsame. simpl in Hsame. lia.
    + split; [reflexivity|]. split; [now right|].
      split; [intros Hne; now contradiction Hne|reflexivity].
  - cbn [fst snd]. split; [reflexivity|]. split; [now left|].
    split; [intros Hne; now contradiction Hne|reflexivity].
Qed.

Lemma secrets_rejection_writes_nothing_witness :
  hasOwn (bodyObject identifierOnly) (js "gatewayApiKey") = true
  /\ code (fst (respond (@postSecrets Sample.runtime identifierOnly) blueskyWorld))
     = 400
  /\ snd (respond (@postSecrets Sample.runtime identifierOnly) blueskyWorld)
     = blueskyWorld.
Proof.
  split; [reflexivity|]. split; [reflexivity|].
  exact (proj1 (@secrets_rejection_writes_nothing Sample.runtime identifierOnly
                  blueskyWorld) eq_refl).
Defined.

(* ================================================================== *)
(** ** No raw secrets in the settings replies *)
(* ================================================================== *)

Lemma present_mask (v : option jsstring) : present (mask v) = present v.
Proof. unfold mask. now destruct (present v) eqn:Hv. Qed.

Lemma summarizeSecrets_redact (secrets : StoredSecrets) :
  summarizeSecrets (redact secrets) = summarizeSecrets secrets.
Proof.
  destruct secrets as [key [[token]|] [[identifier pdsUrl appPassword]|]
                         [[instanceUrl accessToken visibility]|]];
    unfold summarizeSecrets, redact; cbn; now rewrite ?present_mask.
Qed.

Lemma profileOf_redact (secrets : StoredSecrets) :
  profileOf (redact secrets) = profileOf secrets.
Proof.
  destruct secrets as [key [[token]|] [[identifier pdsUrl appPassword]|]
                         [[instanceUrl accessToken visibility]|]];
    reflexivity.
Qed.

(** C9: the replies of GET /api/settings and POST /api/settings/secrets
    carry no raw secret value.  Both are computed from the stored secrets
    with the gateway API key, auth token, app password and access token
    blanked out: [configured] holds four booleans, [profile] the four
    non-secret fields.  Hence two stores that differ only in secret values
    get the same GET reply, and a POST reply is one of the two fixed 400
    problems or the summary of the redacted new secrets. *)
Theorem settings_replies_hide_secrets `{Runtime} (w1 w2 : World)
  (requestBody : option json) :
  gatewayBaseUrl w1 = gatewayBaseUrl w2 ->
  redact (orElse (keychain w1) noSecrets) = redact (orElse (keychain w2) noSecrets) ->
  fst (respond getSettings w1) = fst (respond getSettings w2)
  /\ fst (respond getSettings w1)
     = ok (SettingsBody (gatewayBaseUrl w1)
             (summarizeSecrets (redact (orElse (keychain w1) noSecrets)))
             (profileOf (redact (orElse (keychain w1) noSecrets))))
  /\ snd (respond getSettings w1) = w1
  /\ (fst (respond (postSecrets requestBody) w1) = blueskyIncompleteReply
      \/ fst (respond (postSecrets requestBody) w1) = mastodonIncompleteReply
      \/ exists next,
           keychain (snd (respond (postSecrets requestBody) w1)) = Some next
           /\ fst (respond (postSecrets requestBody) w1)
              = ok (SavedBody (summarizeSecrets (redact next))
                      (profileOf (redact next)))).
Proof.
  intros Hurl Hredact.
  assert (Hget : forall w,
             respond getSettings w
             = (ok (SettingsBody (gatewayBaseUrl w)
                      (summarizeSecrets (redact (orElse (keychain w) noSecrets)))
                      (profileOf (redact (orElse (keychain w) noSecrets)))), w)).
  { intros w. rewrite summarizeSecrets_redact, profileOf_redact. reflexivity. }
  rewrite !Hget. cbn [fst snd]. split; [now rewrite Hurl, Hredact|].
  split; [reflexivity|]. split; [reflexivity|].
  rewrite postSecrets_run. cbv zeta.
  destruct (afterBluesky _ _) as [next1|]; [|now left].
  destruct (afterMastodon _ next1) as [next|]; [|now right; left].
  right; right. exists next. cbn [fst snd written keychain].
  now rewrite summarizeSecrets_redact, profileOf_redact.
Qed.

Lemma settings_replies_hide_secrets_witness :
  keychain (secretWorld (js "key-1") (js "token-1") (js "password-1") (js "access-1"))
  <> keychain (secretWorld (js "key-2") (js "token-2") (js "password-2") (js "access-2"))
  /\ fst (respond getSettings
            (secretWorld (js "key-1") (js "token-1") (js "password-1") (js "access-1")))
     = fst (respond getSettings
              (secretWorld (js "key-2") (js "token-2") (js "password-2") (js "access-2"))).
Proof.
  split; [discriminate|].
  exact (proj1 (@settings_replies_hide_secrets Sample.runtime
                  (secretWorld (js "key-1") (js "token-1") (js "password-1")
                     (js "access-1"))
                  (secretWorld (js "key-2") (js "token-2") (js "password-2")
                     (js "access-2"))
                  None eq_refl eq_refl)).
Defined.

(* ================================================================== *)
(** ** The relay *)
(* ================================================================== *)

(** C8: the relay always answers with the upstream status code.  When the
    upstream content type is neither application/json nor problem+json the
    body is the upstream text, unchanged; when it is one of them the body
    is the parsed upstream text (the text itself when it does not parse).
    The upstream content type is passed on. *)
Theorem relay_preserves_status_and_body `{Runtime} (response : UpstreamResponse) :
  let reply := relayUpstream response in
  code reply = ur_status response
  /\ (jsonContentType response = false ->
      body reply = TextBody (ur_text response))
  /\ (jsonContentType response = true ->
      forall parsed, JSON_parse (ur_text response) = Some parsed ->
                     body reply = JsonBody parsed)
  /\ (jsonContentType response = true ->
      JSON_parse (ur_text response) = None ->
      body reply = TextBody (ur_text response))
  /\ contentType reply
     = (if present (ur_contentType response) then ur_contentType response else None).
Proof.
  intros reply. unfold reply, relayUpstream, jsonContentType.
  destruct (match ur_contentType response with
            | Some ct => includes ct (js "application/json")
                         || includes ct (js "problem+json")
            | None => false
            end).
  - destruct (JSON_parse (ur_text response)) as [parsed|];
      cbn [code body contentType]; repeat split; try discriminate.
    intros _ parsed' Hparsed. now injection Hparsed as <-.
  - cbn [code body contentType]. repeat split; discriminate.
Qed.

Lemma relay_preserves_status_and_body_witness :
  jsonContentType badGateway = false
  /\ @relayUpstream Sample.runtime badGateway
     = {| code := 502; contentType := Some (js "text/plain");
          body := TextBody (js "Bad Gateway") |}.
Proof.
  split; [reflexivity|].
  pose proof (@relay_preserves_status_and_body Sample.runtime badGateway)
    as (Hcode & Htext & _ & _ & Hheader).
  specialize (Htext eq_refl).
  destruct (@relayUpstream Sample.runtime badGateway) as [c ct b].
  cbn [code body contentType] in Hcode, Htext, Hheader.
  now rewrite Hcode, Htext, Hheader.
Defined.

(* ================================================================== *)
(** ** Further properties of the string operations *)
(* ================================================================== *)

Lemma trimStart_head (s : jsstring) :
  match trimStart s with
  | [] => True
  | c :: _ => isWhiteSpace c = false
  end.
Proof.
  induction s as [|c rest IH]; simpl; [exact I|].
  destruct (isWhiteSpace c) eqn:Hc; [exact IH|exact Hc].
Qed.

Lemma trimStart_idempotent (s : jsstring) : trimStart (trimStart s) = trimStart s.
Proof.
  pose proof (trimStart_head s) as Hhead.
  destruct (trimStart s) as [|c rest]; [reflexivity|]. now apply trimStart_id.
Qed.

Lemma trimStart_snoc (s : jsstring) (c : char16) :
  isWhiteSpace c = false -> trimStart (s ++ [c]) = trimStart s ++ [c].
Proof.
  intros Hc. induction s as [|a rest IH]; simpl; [now rewrite Hc|].
  now destruct (isWhiteSpace a).
Qed.

Lemma trimEnd_cons (c : char16) (s : jsstring) :
  isWhiteSpace c = false -> trimEnd (c :: s) = c :: trimEnd s.
Proof.
  intros Hc. unfold trimEnd. simpl rev. rewrite trimStart_snoc by assumption.
  now rewrite rev_app_distr.
Qed.

Lemma trimEnd_idempotent (s : jsstring) : trimEnd (trimEnd s) = trimEnd s.
Proof. unfold trimEnd. now rewrite rev_involutive, trimStart_idempotent. Qed.

(** The shape of a trimmed string: empty, or a first code unit that is not
    white space followed by a string trimmed at its end. *)
Lemma trim_shape (s : jsstring) :
  trim s = match trimStart s with
           | [] => []
           | c :: rest => c :: trimEnd rest
           end.
Proof.
  unfold trim. pose proof (trimStart_head s) as Hhead.
  destruct (trimStart s) as [|c rest]; [reflexivity|]. now apply trimEnd_cons.
Qed.

Lemma trim_idempotent (s : jsstring) : trim (trim s) = trim s.
Proof.
  rewrite (trim_shape s). pose proof (trimStart_head s) as Hhead.
  destruct (trimStart s) as [|c rest]; [reflexivity|].
  unfold trim. rewrite trimStart_id by assumption.
  rewrite trimEnd_cons by assumption. now rewrite trimEnd_idempotent.
Qed.

Lemma spread_bounds (s : jsstring) :
  (List.length (spread s) <= List.length s <= 2 * List.length (spread s))%nat
  /\ forall c,
       (List.length (spread (c :: s)) <= List.length (c :: s)
        <= 2 * List.length (spread (c :: s)))%nat.
Proof.
  induction s as [|d rest [IH IHc]].
  - split; [simpl; lia|]. intros c. simpl. destruct (isHighSurrogate c); simpl; lia.
  - split; [apply IHc|]. intros c. simpl spread.
    destruct (isHighSurrogate c).
    + destruct (isLowSurrogate d).
      * simpl List.length. simpl List.length in IH. lia.
      * specialize (IHc d). simpl List.length in *. lia.
    + specialize (IHc d). simpl List.length in *. lia.
Qed.

Lemma spread_noSurrogates (s : jsstring) :
  noSurrogates s = true -> spread s = map (fun c => [c]) s.
Proof.
  induction s as [|c rest IH]; intros Hs; [reflexivity|].
  simpl in Hs. apply andb_true_iff in Hs as [Hc Hrest].
  apply negb_true_iff, orb_false_iff in Hc as [Hhigh _].
  simpl. rewrite Hhigh. now rewrite IH.
Qed.

(** X1: [countCharacters] lies between half the number of code units and
    the number of code units, and is the number of code units for a string
    without surrogates. *)
Theorem countCharacters_bounds (s : jsstring) :
  countCharacters s <= Z.of_nat (List.length s) <= 2 * countCharacters s
  /\ (noSurrogates s = true -> countCharacters s = Z.of_nat (List.length s))
  /\ (countCharacters s = 0 <-> s = []).
Proof.
  unfold countCharacters. destruct (spread_bounds s) as [Hb _].
  split; [lia|]. split.
  - intros Hs. rewrite spread_noSurrogates by assumption. now rewrite length_map.
  - split; [|now intros ->].
    intros Hz. destruct s as [|c rest]; [reflexivity|].
    change (List.length (c :: rest)) with (S (List.length rest)) in Hb. lia.
Qed.

Lemma countCharacters_bounds_witness :
  noSurrogates (js "hello") = true /\ countCharacters (js "hello") = 5.
Proof.
  split; [reflexivity|].
  exact (proj1 (proj2 (countCharacters_bounds (js "hello"))) eq_refl).
Defined.

(* ================================================================== *)
(** ** Further properties of the validation *)
(* ================================================================== *)

Lemma Kind_eqb_refl (k : Kind) : Kind_eqb k k = true.
Proof. now destruct k. Qed.

Lemma In_only (v : Violation) (errors : list Violation) :
  In v errors <-> In v (only (kind v) errors).
Proof. unfold only. rewrite filter_In, Kind_eqb_refl. tauto. Qed.

Lemma In_when (v v' : Violation) (c : bool) :
  In v (when c v') <-> c = true /\ v = v'.
Proof.
  destruct c; simpl; split; try tauto; try (intros [? ?]; discriminate).
  - intros [->|[]]. now split.
  - intros [_ ->]. now left.
Qed.

Lemma In_concat_mapIndexed {A B} (f : A -> Z -> list B) (l : list A) (b : B) :
  forall start,
    In b (List.concat (mapIndexed f start l))
    <-> exists i a, nth_error l i = Some a /\ In b (f a (start + Z.of_nat i)).
Proof.
  induction l as [|a rest IH]; intros start; simpl.
  - split; [intros []|]. intros (i & a & Hnth & _). now destruct i.
  - rewrite in_app_iff, IH. split.
    + intros [Hb|(i & a' & Hnth & Hb)].
      * exists 0%nat, a. split; [reflexivity|]. now rewrite Z.add_0_r.
      * exists (S i), a'. split; [exact Hnth|].
        now replace (start + Z.of_nat (S i)) with (start + 1 + Z.of_nat i) by lia.
    + intros (i & a' & Hnth & Hb). destruct i as [|i].
      * injection Hnth as <-. left. now rewrite Z.add_0_r in Hb.
      * right. exists i, a'. split; [exact Hnth|].
        now replace (start + 1 + Z.of_nat i) with (start + Z.of_nat (S i)) by lia.
Qed.

Section RuleFacts.
Context `{Runtime}.
Variables (d : ComposeDraft) (limits : option LimitsResponse)
  (wantsSchedule : bool).

Lemma only_target :
  only KTarget (getValidationErrors d limits wantsSchedule)
  = when (negb (anyTargetSelected d)) SelectTarget.
Proof.
  rewrite only_getValidationErrors.
  rewrite (only_outside KTarget _ _ (limits_kinds d limits _ _)) by reflexivity.
  rewrite (only_outside KTarget _ _ (blueskyMedia_kinds d)) by reflexivity.
  rewrite (only_outside KTarget _ _ (mastodonMediaErrors_kinds d limits)) by reflexivity.
  rewrite (only_outside KTarget _ _ (scheduleErrors_kinds d wantsSchedule))
    by reflexivity.
  cbn [Kind_eqb]. rewrite !andb_false_r, andb_true_r. cbn [app].
  rewrite app_nil_r. fold (anyTargetSelected d).
  now destruct (negb (anyTargetSelected d)).
Qed.

Lemma only_text :
  only KText (getValidationErrors d limits wantsSchedule)
  = when (forallb isEmptyString (trimmedSegments d)) AddPostText.
Proof.
  rewrite only_getValidationErrors.
  rewrite (only_outside KText _ _ (limits_kinds d limits _ _)) by reflexivity.
  rewrite (only_outside KText _ _ (blueskyMedia_kinds d)) by reflexivity.
  rewrite (only_outside KText _ _ (mastodonMediaErrors_kinds d limits)) by reflexivity.
  rewrite (only_outside KText _ _ (scheduleErrors_kinds d wantsSchedule))
    by reflexivity.
  cbn [Kind_eqb]. rewrite !andb_false_r, andb_true_r. cbn [app].
  rewrite app_nil_r. now destruct (forallb isEmptyString (trimmedSegments d)).
Qed.

Lemma only_emptySegment :
  only KEmptySegment (getValidationErrors d limits wantsSchedule)
  = when (match mode d with thread_mode => true | single => false end
          && existsb isEmptyString (trimmedSegments d)) EmptyThreadSegment.
Proof.
  rewrite only_getValidationErrors.
  rewrite (only_outside KEmptySegment _ _ (limits_kinds d limits _ _)) by reflexivity.
  rewrite (only_outside KEmptySegment _ _ (blueskyMedia_kinds d)) by reflexivity.
  rewrite (only_outside KEmptySegment _ _ (mastodonMediaErrors_kinds d limits))
    by reflexivity.
  rewrite (only_outside KEmptySegment _ _ (scheduleErrors_kinds d wantsSchedule))
    by reflexivity.
  cbn [Kind_eqb]. rewrite !andb_false_r, andb_true_r. cbn [app].
  rewrite app_nil_r. now destruct (_ && _).
Qed.

Lemma only_mastodonMedia :
  only KMastodonMedia (getValidationErrors d limits wantsSchedule)
  = mastodonMediaErrors d limits.
Proof.
  rewrite only_getValidationErrors.
  rewrite (only_outside KMastodonMedia _ _ (limits_kinds d limits _ _)) by reflexivity.
  rewrite (only_outside KMastodonMedia _ _ (blueskyMedia_kinds d)) by reflexivity.
  rewrite (only_inside KMastodonMedia _ (mastodonMediaErrors_kinds d limits)).
  rewrite (only_outside KMastodonMedia _ _ (scheduleErrors_kinds d wantsSchedule))
    by reflexivity.
  cbn [Kind_eqb]. rewrite !andb_false_r. cbn [app]. now rewrite app_nil_r.
Qed.

Lemma only_schedule :
  only KSchedule (getValidationErrors d limits wantsSchedule)
  = scheduleErrors d wantsSchedule.
Proof.
  rewrite only_getValidationErrors.
  rewrite (only_outside KSchedule _ _ (limits_kinds d limits _ _)) by reflexivity.
  rewrite (only_outside KSchedule _ _ (blueskyMedia_kinds d)) by reflexivity.
  rewrite (only_outside KSchedule _ _ (mastodonMediaErrors_kinds d limits))
    by reflexivity.
  rewrite (only_inside KSchedule _ (scheduleErrors_kinds d wantsSchedule)).
  cbn [Kind_eqb]. rewrite !andb_false_r. reflexivity.
Qed.

End RuleFacts.
Section Membership.
Context `{Runtime}.
Variables (d : ComposeDraft) (limits : option LimitsResponse)
  (wantsSchedule : bool).

Lemma In_selectTarget :
  In SelectTarget (getValidationErrors d limits wantsSchedule)
  <-> anyTargetSelected d = false.
Proof.
  rewrite In_only. cbn [kind]. rewrite only_target, In_when.
  rewrite negb_true_iff. tauto.
Qed.

Lemma In_addPostText :
  In AddPostText (getValidationErrors d limits wantsSchedule)
  <-> forallb isEmptyString (trimmedSegments d) = true.
Proof. rewrite In_only. cbn [kind]. rewrite only_text, In_when. tauto. Qed.

Lemma In_emptyThreadSegment :
  In EmptyThreadSegment (getValidationErrors d limits wantsSchedule)
  <-> mode d = thread_mode /\ existsb isEmptyString (trimmedSegments d) = true.
Proof.
  rewrite In_only. cbn [kind]. rewrite only_emptySegment, In_when.
  destruct (mode d); simpl; split; try tauto; intros [? ?]; try discriminate;
    try (now split).
Qed.

Lemma In_exceedsX (label : Label) (n cap : Z) :
  In (ExceedsX label n cap) (getValidationErrors d limits wantsSchedule)
  <-> sel_x (selectedTargets d) = true
      /\ cap = xLimitOf limits
      /\ exists i segment,
           nth_error (trimmedSegments d) i = Some segment
           /\ label = labelOf d (Z.of_nat i)
           /\ n = countCharacters segment
           /\ cap < n.
Proof.
  rewrite In_only. cbn [kind]. rewrite only_limitX, In_concat_mapIndexed. split.
  - intros (i & segment & Hnth & Hin). apply In_when in Hin as [Hc Hv].
    apply andb_true_iff in Hc as [Hsel Hlt]. apply Z.ltb_lt in Hlt.
    injection Hv as -> -> ->. split; [exact Hsel|]. split; [reflexivity|].
    exists i, segment. now repeat split.
  - intros (Hsel & -> & i & segment & Hnth & -> & -> & Hlt).
    exists i, segment. split; [exact Hnth|]. apply In_when.
    split; [|reflexivity]. rewrite Hsel. now apply Z.ltb_lt.
Qed.

Lemma In_exceedsBluesky (label : Label) (n cap : Z) :
  In (ExceedsBluesky label n cap) (getValidationErrors d limits wantsSchedule)
  <-> sel_bluesky (selectedTargets d) = true
      /\ cap = blueskyLimitOf limits
      /\ exists i segment,
           nth_error (trimmedSegments d) i = Some segment
           /\ label = labelOf d (Z.of_nat i)
           /\ n = countCharacters segment
           /\ cap < n.
Proof.
  rewrite In_only. cbn [kind]. rewrite only_limitBluesky, In_concat_mapIndexed.
  split.
  - intros (i & segment & Hnth & Hin). apply In_when in Hin as [Hc Hv].
    apply andb_true_iff in Hc as [Hsel Hlt]. apply Z.ltb_lt in Hlt.
    injection Hv as -> -> ->. split; [exact Hsel|]. split; [reflexivity|].
    exists i, segment. now repeat split.
  - intros (Hsel & -> & i & segment & Hnth & -> & -> & Hlt).
    exists i, segment. split; [exact Hnth|]. apply In_when.
    split; [|reflexivity]. rewrite Hsel. now apply Z.ltb_lt.
Qed.

Lemma In_exceedsMastodon (label : Label) (n cap : Z) :
  In (ExceedsMastodon label n cap) (getValidationErrors d limits wantsSchedule)
  <-> sel_mastodon (selectedTargets d) = true
      /\ mastodonLimitOf limits = Some cap
      /\ cap <> 0
      /\ exists i segment,
           nth_error (trimmedSegments d) i = Some segment
           /\ label = labelOf d (Z.of_nat i)
           /\ n = countCharacters segment
           /\ cap < n.
Proof.
  rewrite In_only. cbn [kind]. rewrite only_limitMastodon, In_concat_mapIndexed.
  split.
  - intros (i & segment & Hnth & Hin).
    destruct (mastodonLimitOf limits) as [cap'|]; [|destruct Hin].
    apply In_when in Hin as [Hc Hv].
    apply andb_true_iff in Hc as [Hc Hlt]. apply andb_true_iff in Hc as [Hsel Hnz].
    apply Z.ltb_lt in Hlt. apply negb_true_iff, Z.eqb_neq in Hnz.
    injection Hv as -> -> ->. split; [exact Hsel|]. split; [reflexivity|].
    split; [exact Hnz|]. exists i, segment. now repeat split.
  - intros (Hsel & Hcap & Hnz & i & segment & Hnth & -> & -> & Hlt).
    exists i, segment. split; [exact Hnth|]. rewrite Hcap. apply In_when.
    split; [|reflexivity]. rewrite Hsel. cbn [andb]. apply andb_true_iff. split.
    + now apply negb_true_iff, Z.eqb_neq.
    + now apply Z.ltb_lt.
Qed.

Lemma In_blueskyMediaAt (k : Z) (v : Violation) :
  blueskyMediaAt k v = true ->
  In v (getValidationErrors d limits wantsSchedule)
  <-> sel_bluesky (selectedTargets d) = true
      /\ In v (blueskySegmentErrors k (segmentMedia k (media d))).
Proof.
  intros Hat.
  assert (Hfilter : In v (getValidationErrors d limits wantsSchedule)
                    <-> In v (filter (blueskyMediaAt k)
                                (getValidationErrors d limits wantsSchedule))).
  { rewrite filter_In. tauto. }
  rewrite Hfilter, blueskyMediaAt_errors.
  destruct (sel_bluesky (selectedTargets d)); simpl; split; try tauto.
  intros [? _]. discriminate.
Qed.

Lemma In_blueskyOneVideo (k : Z) :
  In (BlueskyOneVideo k) (getValidationErrors d limits wantsSchedule)
  <-> sel_bluesky (selectedTargets d) = true /\ 1 < videoCount k d.
Proof.
  rewrite (In_blueskyMediaAt k) by apply Z.eqb_refl.
  unfold blueskySegmentErrors. fold (videoCount k d). fold (imageCount k d).
  rewrite !in_app_iff, !In_when, !andb_true_iff, !Z.eqb_eq, !Z.ltb_lt.
  intuition (try congruence).
Qed.

Lemma In_blueskyMixedMedia (k : Z) :
  In (BlueskyMixedMedia k) (getValidationErrors d limits wantsSchedule)
  <-> sel_bluesky (selectedTargets d) = true
      /\ videoCount k d = 1 /\ 0 < imageCount k d.
Proof.
  rewrite (In_blueskyMediaAt k) by apply Z.eqb_refl.
  unfold blueskySegmentErrors. fold (videoCount k d). fold (imageCount k d).
  rewrite !in_app_iff, !In_when, !andb_true_iff, !Z.eqb_eq, !Z.ltb_lt.
  intuition (try congruence).
Qed.

Lemma In_blueskyFourImages (k : Z) :
  In (BlueskyFourImages k) (getValidationErrors d limits wantsSchedule)
  <-> sel_bluesky (selectedTargets d) = true
      /\ videoCount k d = 0 /\ 4 < imageCount k d.
Proof.
  rewrite (In_blueskyMediaAt k) by apply Z.eqb_refl.
  unfold blueskySegmentErrors. fold (videoCount k d). fold (imageCount k d).
  rewrite !in_app_iff, !In_when, !andb_true_iff, !Z.eqb_eq, !Z.ltb_lt.
  intuition (try congruence).
Qed.

Lemma In_scheduleMissing :
  In ScheduleMissing (getValidationErrors d limits wantsSchedule)
  <-> wantsSchedule = true /\ trim (scheduleAt d) = [].
Proof.
  rewrite In_only. cbn [kind]. rewrite only_schedule. unfold scheduleErrors.
  destruct wantsSchedule; [|simpl; split; [tauto|intros [? _]; discriminate]].
  destruct (trim (scheduleAt d)); [simpl; tauto|].
  destruct (dateIsValid (scheduleAt d)); simpl;
    split; try tauto; try (intros [_ ?]; discriminate).
  intros [?|[]]. discriminate.
Qed.

Lemma In_scheduleInvalid :
  In ScheduleInvalid (getValidationErrors d limits wantsSchedule)
  <-> wantsSchedule = true /\ trim (scheduleAt d) <> []
      /\ dateIsValid (scheduleAt d) = false.
Proof.
  rewrite In_only. cbn [kind]. rewrite only_schedule. unfold scheduleErrors.
  destruct wantsSchedule; [|simpl; split; [tauto|intros [? _]; discriminate]].
  destruct (trim (scheduleAt d)).
  - simpl. split; [intros [?|[]]; discriminate|]. intros (_ & Hne & _). congruence.
  - destruct (dateIsValid (scheduleAt d)); simpl.
    + split; [tauto|]. intros (_ & _ & ?). discriminate.
    + split; [|tauto]. intros _. repeat split. discriminate.
Qed.

End Membership.
Lemma mapGet_map_values {V W} (g : V -> W) (m : NumMap V) (k : Z) :
  mapGet (map (fun '(i, v) => (i, g v)) m) k = option_map g (mapGet m k).
Proof.
  induction m as [|[i v] rest IH]; [reflexivity|]. simpl.
  now destruct (i =? k).
Qed.

Lemma mapSet_map_values {V W} (g : V -> W) (m : NumMap V) (k : Z) (v : V) :
  mapSet (map (fun '(i, x) => (i, g x)) m) k (g v)
  = map (fun '(i, x) => (i, g x)) (mapSet m k v).
Proof.
  induction m as [|[i x] rest IH]; [reflexivity|]. simpl.
  destruct (i =? k); simpl; [reflexivity|now rewrite IH].
Qed.

Lemma flat_map_map_values {V W B} (g : V -> W) (f : Z * W -> list B) (m : NumMap V) :
  flat_map f (map (fun '(i, v) => (i, g v)) m)
  = flat_map (fun '(i, v) => f (i, g v)) m.
Proof. induction m as [|[i v] rest IH]; [reflexivity|]. simpl. now rewrite IH. Qed.

Lemma count_fold_group (entries : list DraftMedia) :
  forall groups : NumMap (list DraftMedia),
    fold_left countStep entries
      (map (fun '(i, g) => (i, Z.of_nat (List.length g))) groups)
    = map (fun '(i, g) => (i, Z.of_nat (List.length g)))
        (fold_left groupStep entries groups).
Proof.
  induction entries as [|e rest IH]; intros groups; [reflexivity|].
  simpl fold_left. rewrite <- IH. f_equal.
  unfold countStep, groupStep.
  rewrite (mapGet_map_values (fun g => Z.of_nat (List.length g))).
  rewrite <- (mapSet_map_values (fun g => Z.of_nat (List.length g))).
  f_equal. destruct (mapGet groups (media_threadIndex e)) as [existing|]; simpl.
  - rewrite length_app. simpl. lia.
  - reflexivity.
Qed.

(** The counts of the Mastodon check are the sizes of the groups of the
    Bluesky check. *)
Lemma countMedia_groupMedia (entries : list DraftMedia) :
  countMedia entries
  = map (fun '(i, g) => (i, Z.of_nat (List.length g))) (groupMedia entries).
Proof.
  rewrite groupMedia_fold. rewrite <- count_fold_group. reflexivity.
Qed.

Lemma filter_keyed {V} (p : Violation -> bool) (f : Z -> V -> list Violation)
  (k : Z) (m : NumMap V) :
  NoDup (map fst m) ->
  (forall i v, filter p (f i v) = if i =? k then f i v else []) ->
  filter p (flat_map (fun '(i, v) => f i v) m)
  = match mapGet m k with
    | Some v => f k v
    | None => []
    end.
Proof.
  intros Hnd Hf. induction m as [|[i v] rest IH]; [reflexivity|].
  inversion Hnd as [|? ? Hnotin Hrest]; subst.
  simpl. rewrite filter_app, Hf, IH by assumption.
  destruct (Z.eqb_spec i k) as [->|Hk]; [|reflexivity].
  rewrite (mapGet_absent rest k Hnotin). apply app_nil_r.
Qed.

Lemma mastodonMediaAt_kind (k : Z) (v : Violation) :
  mastodonMediaAt k v = true -> kind v = KMastodonMedia.
Proof. destruct v; simpl; intros; congruence. Qed.

Lemma mastodonMediaAt_errors `{Runtime} (d : ComposeDraft)
  (limits : option LimitsResponse) (wantsSchedule : bool) (k : Z) :
  filter (mastodonMediaAt k) (getValidationErrors d limits wantsSchedule)
  = if sel_mastodon (selectedTargets d) then
      match mastodonMediaLimit limits with
      | Some cap =>
          match segmentMedia k (media d) with
          | [] => []
          | _ :: _ =>
              when (cap <? mediaCount k d) (MastodonMaxMedia k (mediaCount k d) cap)
          end
      | None => []
      end
    else [].
Proof.
  rewrite (filter_only _ KMastodonMedia _ (mastodonMediaAt_kind k)).
  rewrite only_mastodonMedia. unfold mastodonMediaErrors, mastodonMediaLimit.
  destruct limits as [l|]; [|now destruct (sel_mastodon _)].
  destruct (limits_mastodon l) as [m|]; [|now destruct (sel_mastodon _)].
  destruct (sel_mastodon (selectedTargets d)); [|reflexivity].
  destruct (masto_maxMediaAttachments m =? 0); [reflexivity|]. cbn [andb negb].
  rewrite countMedia_groupMedia.
  rewrite (flat_map_map_values (fun g => Z.of_nat (List.length g))
             (fun '(threadIndex, total) =>
                when (masto_maxMediaAttachments m <? total)
                  (MastodonMaxMedia threadIndex total (masto_maxMediaAttachments m)))).
  rewrite (filter_keyed (mastodonMediaAt k)
             (fun i g =>
                when (masto_maxMediaAttachments m <? Z.of_nat (List.length g))
                  (MastodonMaxMedia i (Z.of_nat (List.length g))
                     (masto_maxMediaAttachments m)))
             k _ (groupMedia_NoDup (media d))).
  - rewrite groupMedia_get. unfold mediaCount.
    now destruct (segmentMedia k (media d)).
  - intros i g. rewrite filter_when. cbn [mastodonMediaAt].
    destruct (i =? k); [now rewrite andb_true_r|now rewrite andb_false_r].
Qed.

Lemma In_mastodonMaxMedia `{Runtime} (d : ComposeDraft)
  (limits : option LimitsResponse) (wantsSchedule : bool) (k total cap : Z) :
  In (MastodonMaxMedia k total cap) (getValidationErrors d limits wantsSchedule)
  <-> sel_mastodon (selectedTargets d) = true
      /\ mastodonMediaLimit limits = Some cap
      /\ segmentMedia k (media d) <> []
      /\ total = mediaCount k d
      /\ cap < total.
Proof.
  assert (Hfilter : In (MastodonMaxMedia k total cap)
                      (getValidationErrors d limits wantsSchedule)
                    <-> In (MastodonMaxMedia k total cap)
                          (filter (mastodonMediaAt k)
                             (getValidationErrors d limits wantsSchedule))).
  { rewrite filter_In. cbn [mastodonMediaAt]. rewrite Z.eqb_refl. tauto. }
  rewrite Hfilter, mastodonMediaAt_errors.
  destruct (sel_mastodon (selectedTargets d));
    [|simpl; split; [tauto|intros [? _]; discriminate]].
  destruct (mastodonMediaLimit limits) as [cap'|];
    [|simpl; split; [tauto|intros (_ & ? & _); discriminate]].
  destruct (segmentMedia k (media d)) as [|e rest] eqn:Hseg.
  - simpl. split; [tauto|]. intros (_ & _ & Hne & _). congruence.
  - rewrite In_when, Z.ltb_lt. split.
    + intros [Hlt Hv]. injection Hv as -> ->. repeat split; try assumption.
      discriminate.
    + intros (_ & Hcap & _ & -> & Hlt). injection Hcap as ->. now split.
Qed.

(** X2: the select-target violation is reported exactly when no target is
    selected, and then it is the first entry of the list, the one [submit]
    shows, whatever the other fields of the draft are. *)
Theorem select_target_reported_first `{Runtime} (d : ComposeDraft)
  (limits : option LimitsResponse) (wantsSchedule : bool) :
  (In SelectTarget (getValidationErrors d limits wantsSchedule)
   <-> anyTargetSelected d = false)
  /\ (anyTargetSelected d = false ->
      hd_error (getValidationErrors d limits wantsSchedule) = Some SelectTarget
      /\ hd_error (getValidationMessages d limits wantsSchedule)
         = Some (js "Select at least one target platform.")).
Proof.
  split; [apply In_selectTarget|]. intros Hnone.
  assert (Hhead : hd_error (getValidationErrors d limits wantsSchedule)
                  = Some SelectTarget).
  { rewrite getValidationErrors_parts. fold (anyTargetSelected d).
    now rewrite Hnone. }
  split; [exact Hhead|]. unfold getValidationMessages.
  destruct (getValidationErrors d limits wantsSchedule) as [|v rest];
    [discriminate|]. injection Hhead as ->. reflexivity.
Qed.

Lemma select_target_reported_first_witness :
  anyTargetSelected noTargetPost = false
  /\ hd_error (@getValidationMessages Sample.runtime noTargetPost None false)
     = Some (js "Select at least one target platform.").
Proof.
  split; [reflexivity|].
  exact (proj2 (proj2 (@select_target_reported_first Sample.runtime noTargetPost
                         None false) eq_refl)).
Defined.

(** X3: a character-limit violation is reported for a target exactly when
    the target is selected and some segment has more code points than the
    target's limit; it carries the position of that segment (the label
    "Post" in single mode, "Segment i+1" for the segment at index [i] in
    thread mode), its length and the limit.  Mastodon's limit is used only
    when it was fetched and is not zero. *)
Theorem limit_violations_by_position `{Runtime} (d : ComposeDraft)
  (limits : option LimitsResponse) (wantsSchedule : bool)
  (label : Label) (n cap : Z) :
  let errors := getValidationErrors d limits wantsSchedule in
  let exceededAt :=
    exists i segment,
      nth_error (trimmedSegments d) i = Some segment
      /\ label = labelOf d (Z.of_nat i)
      /\ n = countCharacters segment
      /\ cap < n in
  (In (ExceedsX label n cap) errors
   <-> sel_x (selectedTargets d) = true /\ cap = xLimitOf limits /\ exceededAt)
  /\ (In (ExceedsBluesky label n cap) errors
      <-> sel_bluesky (selectedTargets d) = true /\ cap = blueskyLimitOf limits
          /\ exceededAt)
  /\ (In (ExceedsMastodon label n cap) errors
      <-> sel_mastodon (selectedTargets d) = true
          /\ mastodonLimitOf limits = Some cap /\ cap <> 0 /\ exceededAt).
Proof.
  intros errors exceededAt. split; [apply In_exceedsX|].
  split; [apply In_exceedsBluesky | apply In_exceedsMastodon].
Qed.

Lemma limit_violations_by_position_witness :
  In (ExceedsX (LSegment 1) 281 280)
    (@getValidationErrors Sample.runtime longSecondSegment None false)
  /\ message (ExceedsX (LSegment 1) 281 280)
     = js "Segment 2 exceeds X limit (281/280).".
Proof.
  split; [|reflexivity].
  apply (proj1 (@limit_violations_by_position Sample.runtime longSecondSegment None
                  false (LSegment 1) 281 280)).
  split; [reflexivity|]. split; [reflexivity|].
  exists 1%nat, (astral (repeat grinning 281)).
  split; [vm_compute; reflexivity|]. split; [reflexivity|].
  split; [vm_compute; reflexivity|reflexivity].
Defined.

(** X4: with Mastodon selected and a fetched, non-zero media limit, a
    segment that has media gets one media violation exactly when it has
    more media than the limit, carrying the count and the limit; a segment
    within the limit gets none, and without Mastodon selected or without a
    fetched limit there is no Mastodon media violation at all. *)
Theorem mastodon_media_rule `{Runtime} (d : ComposeDraft)
  (limits : option LimitsResponse) (wantsSchedule : bool) (k : Z) :
  let errors := getValidationErrors d limits wantsSchedule in
  (forall total cap,
     In (MastodonMaxMedia k total cap) errors
     <-> sel_mastodon (selectedTargets d) = true
         /\ mastodonMediaLimit limits = Some cap
         /\ segmentMedia k (media d) <> []
         /\ total = mediaCount k d
         /\ cap < total)
  /\ (forall cap, mastodonMediaLimit limits = Some cap -> mediaCount k d <= cap ->
        filter (mastodonMediaAt k) errors = [])
  /\ (forall cap, sel_mastodon (selectedTargets d) = true ->
        mastodonMediaLimit limits = Some cap -> cap < mediaCount k d ->
        segmentMedia k (media d) <> [] ->
        filter (mastodonMediaAt k) errors
        = [MastodonMaxMedia k (mediaCount k d) cap])
  /\ (sel_mastodon (selectedTargets d) = false \/ mastodonMediaLimit limits = None ->
      only KMastodonMedia errors = []).
Proof.
  intros errors. split; [intros total cap; apply In_mastodonMaxMedia|].
  split.
  { intros cap Hcap Hle. unfold errors. rewrite mastodonMediaAt_errors, Hcap.
    destruct (sel_mastodon _); [|reflexivity].
    destruct (segmentMedia k (media d)); [reflexivity|].
    now replace (cap <? mediaCount k d) with false
      by (symmetry; apply Z.ltb_ge; lia). }
  split.
  { intros cap Hsel Hcap Hlt Hne. unfold errors.
    rewrite mastodonMediaAt_errors, Hsel, Hcap.
    destruct (segmentMedia k (media d)); [congruence|].
    now replace (cap <? mediaCount k d) with true
      by (symmetry; apply Z.ltb_lt; lia). }
  intros Hoff. unfold errors. rewrite only_mastodonMedia.
  unfold mastodonMediaErrors, mastodonMediaLimit in *.
  destruct limits as [l|]; [|reflexivity].
  destruct (limits_mastodon l) as [m|]; [|reflexivity].
  destruct Hoff as [Hsel|Hnone]; [now rewrite Hsel|].
  destruct (masto_maxMediaAttachments m =? 0); [|discriminate].
  now rewrite andb_false_r.
Qed.

Lemma mastodon_media_rule_witness :
  mastodonMediaLimit (Some twoMediaLimits) = Some 2
  /\ filter (mastodonMediaAt 0)
       (@getValidationErrors Sample.runtime
          (mastodonPost [picture 1; picture 2; picture 3] []) (Some twoMediaLimits)
          false)
     = [MastodonMaxMedia 0 3 2]
  /\ filter (mastodonMediaAt 0)
       (@getValidationErrors Sample.runtime
          (mastodonPost [picture 1; picture 2] []) (Some twoMediaLimits) false)
     = [].
Proof.
  split; [reflexivity|].
  pose proof (@mastodon_media_rule Sample.runtime
                (mastodonPost [picture 1; picture 2; picture 3] [])
                (Some twoMediaLimits) false 0) as (_ & _ & Hover & _).
  pose proof (@mastodon_media_rule Sample.runtime
                (mastodonPost [picture 1; picture 2] [])
                (Some twoMediaLimits) false 0) as (_ & Hwithin & _).
  split.
  - apply (Hover 2 eq_refl eq_refl); [reflexivity | discriminate].
  - apply (Hwithin 2 eq_refl). vm_compute. discriminate.
Defined.

(** No other violation is rendered as one of the two schedule messages. *)
Lemma message_schedule (v : Violation) :
  (message v = js "Set a schedule date/time before scheduling." ->
   v = ScheduleMissing)
  /\ (message v = js "Schedule date/time is invalid." -> v = ScheduleInvalid).
Proof.
  destruct v as [| | |[|i] n cap|[|i] n cap|[|i] n cap|i|i|i|i total cap| |];
    split; intros Heq; try reflexivity;
    cbn [message labelText app js map list_ascii_of_string] in Heq;
    discriminate.
Qed.

Lemma In_schedule_messages `{Runtime} (d : ComposeDraft)
  (limits : option LimitsResponse) (wantsSchedule : bool) :
  (In (js "Set a schedule date/time before scheduling.")
     (getValidationMessages d limits wantsSchedule)
   <-> In ScheduleMissing (getValidationErrors d limits wantsSchedule))
  /\ (In (js "Schedule date/time is invalid.")
        (getValidationMessages d limits wantsSchedule)
      <-> In ScheduleInvalid (getValidationErrors d limits wantsSchedule)).
Proof.
  unfold getValidationMessages. split; rewrite in_map_iff; split.
  - intros (v & Hmessage & Hin). now apply message_schedule in Hmessage as ->.
  - intros Hin. exists ScheduleMissing. now split.
  - intros (v & Hmessage & Hin). now apply message_schedule in Hmessage as ->.
  - intros Hin. exists ScheduleInvalid. now split.
Qed.

(** X5: schedule violations are reported only when scheduling is
    requested: the message 'Set a schedule date/time before scheduling.'
    when the schedule string trims to empty, the message 'Schedule
    date/time is invalid.' when it does not but is not a valid date, and
    never both. *)
Theorem schedule_rule `{Runtime} (d : ComposeDraft)
  (limits : option LimitsResponse) (wantsSchedule : bool) :
  let errors := getValidationErrors d limits wantsSchedule in
  (In ScheduleMissing errors <-> wantsSchedule = true /\ trim (scheduleAt d) = [])
  /\ (In ScheduleInvalid errors
      <-> wantsSchedule = true /\ trim (scheduleAt d) <> []
          /\ dateIsValid (scheduleAt d) = false)
  /\ (List.length (only KSchedule errors) <= 1)%nat
  /\ (wantsSchedule = false -> only KSchedule errors = [])
  /\ (In (js "Set a schedule date/time before scheduling.")
        (getValidationMessages d limits wantsSchedule)
      <-> wantsSchedule = true /\ trim (scheduleAt d) = [])
  /\ (In (js "Schedule date/time is invalid.")
        (getValidationMessages d limits wantsSchedule)
      <-> wantsSchedule = true /\ trim (scheduleAt d) <> []
          /\ dateIsValid (scheduleAt d) = false).
Proof.
  intros errors. split; [apply In_scheduleMissing|].
  split; [apply In_scheduleInvalid|].
  destruct (In_schedule_messages d limits wantsSchedule) as [Hmissing Hinvalid].
  assert (Hcount : (List.length (only KSchedule errors) <= 1)%nat
                   /\ (wantsSchedule = false -> only KSchedule errors = [])).
  { unfold errors. rewrite only_schedule. unfold scheduleErrors.
    destruct wantsSchedule; [|split; [simpl; lia|reflexivity]].
    split; [|discriminate].
    destruct (trim (scheduleAt d)); [simpl; lia|].
    destruct (dateIsValid (scheduleAt d)); simpl; lia. }
  split; [exact (proj1 Hcount)|]. split; [exact (proj2 Hcount)|]. split.
  - rewrite Hmissing. apply In_scheduleMissing.
  - rewrite Hinvalid. apply In_scheduleInvalid.
Qed.

Lemma schedule_rule_witness :
  In ScheduleMissing
    (@getValidationErrors Sample.runtime (mastodonPost [] (js "   ")) None true)
  /\ In ScheduleInvalid
       (@getValidationErrors Sample.runtime (mastodonPost [] (js "tomorrow")) None true)
  /\ only KSchedule
       (@getValidationErrors Sample.runtime (mastodonPost [] (js "tomorrow")) None
          false) = [].
Proof.
  pose proof (@schedule_rule Sample.runtime (mastodonPost [] (js "   ")) None true)
    as (Hmissing & _).
  pose proof (@schedule_rule Sample.runtime (mastodonPost [] (js "tomorrow")) None
                true) as (_ & Hinvalid & _).
  pose proof (@schedule_rule Sample.runtime (mastodonPost [] (js "tomorrow")) None
                false) as (_ & _ & _ & Hoff & _).
  split; [apply Hmissing; now split|].
  split; [apply Hinvalid; repeat split; discriminate|].
  exact (Hoff eq_refl).
Defined.

Lemma forallb_false_exists {A} (p : A -> bool) (l : list A) :
  forallb p l = false -> exists a, In a l /\ p a = false.
Proof.
  induction l as [|a rest IH]; [discriminate|]. simpl.
  destruct (p a) eqn:Ha.
  - intros Hrest. destruct (IH Hrest) as (b & Hin & Hb). exists b. tauto.
  - intros _. exists a. tauto.
Qed.

Lemma isEmptyString_false (s : jsstring) : isEmptyString s = false <-> s <> [].
Proof.
  destruct s; unfold isEmptyString; simpl; split; try congruence; try discriminate;
    try reflexivity.
Qed.

(** X6: the validation returns the empty list exactly for a publishable
    draft: a target is selected, some segment has text, in thread mode
    every segment has text, every segment is within the limit of every
    selected target whose limit is known, no segment breaks the Bluesky
    media rule when Bluesky is selected or the fetched Mastodon media limit
    when Mastodon is selected, and a requested schedule is present and a
    valid date. *)
Theorem validation_passes_iff `{Runtime} (d : ComposeDraft)
  (limits : option LimitsResponse) (wantsSchedule : bool) :
  getValidationErrors d limits wantsSchedule = [] <-> Publishable d limits wantsSchedule.
Proof.
  split.
  - intros Hnil.
    assert (Hno : forall v, ~ In v (getValidationErrors d limits wantsSchedule)).
    { intros v. rewrite Hnil. intros []. }
    unfold Publishable. split.
    { destruct (anyTargetSelected d) eqn:Hany; [reflexivity|].
      destruct (Hno SelectTarget). now apply In_selectTarget. }
    split.
    { destruct (forallb isEmptyString (trimmedSegments d)) eqn:Hall.
      - destruct (Hno AddPostText). now apply In_addPostText.
      - apply forallb_false_exists in Hall as (s & Hin & Hs).
        exists s. split; [exact Hin|]. now apply isEmptyString_false. }
    split.
    { intros Hmode s Hin Hs. destruct (Hno EmptyThreadSegment).
      apply In_emptyThreadSegment. split; [exact Hmode|].
      apply existsb_exists. exists s. split; [exact Hin|]. now rewrite Hs. }
    split.
    { intros s Hin. apply In_nth_error in Hin as [i Hi]. unfold withinLimits.
      split; [|split].
      - intros Hsel. destruct (Z_le_gt_dec (countCharacters s) (xLimitOf limits))
          as [Hle|Hgt]; [exact Hle|].
        destruct (Hno (ExceedsX (labelOf d (Z.of_nat i)) (countCharacters s)
                         (xLimitOf limits))).
        apply In_exceedsX. split; [exact Hsel|]. split; [reflexivity|].
        exists i, s. repeat split; [exact Hi | lia].
      - intros Hsel.
        destruct (Z_le_gt_dec (countCharacters s) (blueskyLimitOf limits))
          as [Hle|Hgt]; [exact Hle|].
        destruct (Hno (ExceedsBluesky (labelOf d (Z.of_nat i)) (countCharacters s)
                         (blueskyLimitOf limits))).
        apply In_exceedsBluesky. split; [exact Hsel|]. split; [reflexivity|].
        exists i, s. repeat split; [exact Hi | lia].
      - intros Hsel cap Hcap Hnz.
        destruct (Z_le_gt_dec (countCharacters s) cap) as [Hle|Hgt]; [exact Hle|].
        destruct (Hno (ExceedsMastodon (labelOf d (Z.of_nat i)) (countCharacters s)
                         cap)).
        apply In_exceedsMastodon. split; [exact Hsel|]. split; [exact Hcap|].
        split; [exact Hnz|]. exists i, s. repeat split; [exact Hi | lia]. }
    split.
    { intros Hsel k. unfold blueskyMediaOk.
      assert (Hv : 0 <= videoCount k d) by apply Nat2Z.is_nonneg.
      assert (Hi : 0 <= imageCount k d) by apply Nat2Z.is_nonneg.
      split; [|split].
      - destruct (Z_le_gt_dec (videoCount k d) 1) as [Hle|Hgt]; [exact Hle|].
        destruct (Hno (BlueskyOneVideo k)). apply In_blueskyOneVideo.
        split; [exact Hsel|lia].
      - intros Hone. destruct (Z.eq_dec (imageCount k d) 0) as [Hz|Hnz]; [exact Hz|].
        destruct (Hno (BlueskyMixedMedia k)). apply In_blueskyMixedMedia.
        split; [exact Hsel|]. split; [exact Hone|lia].
      - intros Hzero. destruct (Z_le_gt_dec (imageCount k d) 4) as [Hle|Hgt];
          [exact Hle|].
        destruct (Hno (BlueskyFourImages k)). apply In_blueskyFourImages.
        split; [exact Hsel|]. split; [exact Hzero|lia]. }
    split.
    { intros Hsel cap k Hcap Hne.
      destruct (Z_le_gt_dec (mediaCount k d) cap) as [Hle|Hgt]; [exact Hle|].
      destruct (Hno (MastodonMaxMedia k (mediaCount k d) cap)).
      apply In_mastodonMaxMedia. repeat split; try assumption. lia. }
    intros Hws. split.
    + intros Hblank. destruct (Hno ScheduleMissing). now apply In_scheduleMissing.
    + destruct (dateIsValid (scheduleAt d)) eqn:Hvalid; [reflexivity|].
      destruct (trim (scheduleAt d)) eqn:Htrim.
      * destruct (Hno ScheduleMissing). now apply In_scheduleMissing.
      * destruct (Hno ScheduleInvalid). apply In_scheduleInvalid.
        rewrite Htrim. repeat split; [exact Hws | discriminate | exact Hvalid].
  - intros (Hany & (s0 & Hin0 & Hs0) & Hthread & Hlimits & Hbluesky & Hmastodon
            & Hschedule).
    destruct (getValidationErrors d limits wantsSchedule) as [|v rest] eqn:Herrors;
      [reflexivity|].
    assert (Hin : In v (getValidationErrors d limits wantsSchedule))
      by (rewrite Herrors; now left).
    clear Herrors. exfalso. destruct v.
    + apply In_selectTarget in Hin. congruence.
    + apply In_addPostText in Hin. rewrite forallb_forall in Hin.
      apply Hs0. now apply isEmptyString_nil, Hin.
    + apply In_emptyThreadSegment in Hin as [Hmode Hex].
      apply existsb_exists in Hex as (s & Hs & Hempty).
      apply (Hthread Hmode s Hs). now apply isEmptyString_nil.
    + apply In_exceedsX in Hin as (Hsel & -> & i & s & Hnth & _ & -> & Hlt).
      apply nth_error_In in Hnth.
      destruct (Hlimits s Hnth) as (Hx & _). specialize (Hx Hsel). lia.
    + apply In_exceedsBluesky in Hin as (Hsel & -> & i & s & Hnth & _ & -> & Hlt).
      apply nth_error_In in Hnth.
      destruct (Hlimits s Hnth) as (_ & Hb & _). specialize (Hb Hsel). lia.
    + apply In_exceedsMastodon in Hin
        as (Hsel & Hcap & Hnz & i & s & Hnth & _ & -> & Hlt).
      apply nth_error_In in Hnth.
      destruct (Hlimits s Hnth) as (_ & _ & Hm). specialize (Hm Hsel _ Hcap Hnz). lia.
    + apply In_blueskyOneVideo in Hin as [Hsel Hlt].
      destruct (Hbluesky Hsel threadIndex) as (Hle & _). lia.
    + apply In_blueskyMixedMedia in Hin as (Hsel & Hone & Hlt).
      destruct (Hbluesky Hsel threadIndex) as (_ & Hmix & _). specialize (Hmix Hone).
      lia.
    + apply In_blueskyFourImages in Hin as (Hsel & Hzero & Hlt).
      destruct (Hbluesky Hsel threadIndex) as (_ & _ & Hfour).
      specialize (Hfour Hzero). lia.
    + apply In_mastodonMaxMedia in Hin as (Hsel & Hcap & Hne & -> & Hlt).
      specialize (Hmastodon Hsel _ _ Hcap Hne). lia.
    + apply In_scheduleMissing in Hin as [Hws Hblank].
      destruct (Hschedule Hws) as [Hne _]. contradiction.
    + apply In_scheduleInvalid in Hin as (Hws & _ & Hinvalid).
      destruct (Hschedule Hws) as [_ Hvalid]. congruence.
Qed.

Lemma validation_passes_iff_witness :
  @getValidationErrors Sample.runtime helloPost (Some twoMediaLimits) true = []
  /\ @Publishable Sample.runtime helloPost (Some twoMediaLimits) true.
Proof.
  split; [reflexivity|].
  apply (proj1 (@validation_passes_iff Sample.runtime helloPost (Some twoMediaLimits)
                  true)).
  reflexivity.
Defined.

(* ================================================================== *)
(** ** Editing the draft *)
(* ================================================================== *)

Lemma length_mapIndexed {A B} (f : A -> Z -> B) (l : list A) :
  forall start, List.length (mapIndexed f start l) = List.length l.
Proof.
  induction l as [|a rest IH]; intros start; [reflexivity|].
  simpl. now rewrite IH.
Qed.

Lemma filterIndexed_all {A} (index : Z) (l : list A) :
  forall start,
    index < start ->
    filterIndexed (fun _ itemIndex => negb (itemIndex =? index)) start l = l.
Proof.
  induction l as [|a rest IH]; intros start Hlt; [reflexivity|].
  simpl. destruct (Z.eqb_spec start index) as [Heq|Hne]; [lia|].
  simpl. now rewrite IH by lia.
Qed.

(** Filtering out the item at [index] removes that item and no other. *)
Lemma filterIndexed_remove {A} (index : Z) (l : list A) :
  forall (start : Z) (n : nat),
    index = start + Z.of_nat n ->
    filterIndexed (fun _ itemIndex => negb (itemIndex =? index)) start l
    = firstn n l ++ skipn (S n) l.
Proof.
  induction l as [|a rest IH]; intros start n Hindex.
  - now destruct n.
  - cbn [filterIndexed]. destruct n as [|n].
    + replace (start =? index) with true by (symmetry; apply Z.eqb_eq; lia).
      cbn [negb firstn skipn app]. apply filterIndexed_all. lia.
    + replace (start =? index) with false by (symmetry; apply Z.eqb_neq; lia).
      cbn [negb firstn app]. f_equal.
      change (skipn (S (S n)) (a :: rest)) with (skipn (S n) rest).
      apply IH. lia.
Qed.

Lemma filterIndexed_outside {A} (index : Z) (l : list A) :
  index < 0 \/ Z.of_nat (List.length l) <= index ->
  filterIndexed (fun _ itemIndex => negb (itemIndex =? index)) 0 l = l.
Proof.
  intros [Hneg|Hbig]; [apply filterIndexed_all; lia|].
  assert (Hgen : forall start,
             start + Z.of_nat (List.length l) <= index ->
             filterIndexed (fun _ itemIndex => negb (itemIndex =? index)) start l = l).
  { induction l as [|a rest IH]; intros start Hle; [reflexivity|].
    simpl in *. destruct (Z.eqb_spec start index) as [Heq|Hne]; [lia|].
    simpl. rewrite IH by lia. reflexivity. }
  apply Hgen. lia.
Qed.

(** What [removeThreadSegment] does to the thread. *)
Lemma removeThreadSegment_thread (index : Z) (d : ComposeDraft) :
  let d' := removeThreadSegment index d in
  (thread d <> [] -> thread d' <> [])
  /\ ((List.length (thread d) <= 1)%nat -> thread d' = thread d)
  /\ (forall n : nat,
        index = Z.of_nat n -> (n < List.length (thread d))%nat ->
        (2 <= List.length (thread d))%nat ->
        thread d' = firstn n (thread d) ++ skipn (S n) (thread d))
  /\ (index < 0 \/ Z.of_nat (List.length (thread d)) <= index ->
      thread d' = thread d).
Proof.
  intros d'. unfold d', removeThreadSegment. cbn [thread media setMedia setThread].
  split.
  { intros Hne. destruct (Z.of_nat (List.length (thread d)) <=? 1) eqn:Hlen;
      [exact Hne|].
    apply Z.leb_gt in Hlen. destruct (thread d) as [|a [|b rest]] eqn:Hthread;
      simpl in Hlen; try lia.
    cbn [filterIndexed]. destruct (Z.eqb_spec 0 index) as [<-|Hdiff]; cbn [negb].
    - rewrite filterIndexed_all by lia. discriminate.
    - discriminate. }
  split.
  { intros Hlen. now replace (Z.of_nat (List.length (thread d)) <=? 1) with true
      by (symmetry; apply Z.leb_le; lia). }
  split.
  { intros n -> Hn Hlen.
    replace (Z.of_nat (List.length (thread d)) <=? 1) with false
      by (symmetry; apply Z.leb_gt; lia).
    apply (filterIndexed_remove (Z.of_nat n) (thread d) 0 n). lia. }
  intros Hout. destruct (Z.of_nat (List.length (thread d)) <=? 1); [reflexivity|].
  now apply filterIndexed_outside.
Qed.

(** X7: removing a thread segment never empties the thread: a thread of
    one segment is left as it is, and from a longer thread exactly the
    segment at [index] is removed, the others keeping their order (an index
    outside the thread removes nothing).  No media entry is dropped: its id,
    file and alt text are kept, entries after the removed segment move down
    by one and entries on it move to the segment before it (or stay on the
    first). *)
Theorem removeThreadSegment_thread_and_media (index : Z) (d : ComposeDraft) :
  let d' := removeThreadSegment index d in
  (thread d <> [] -> thread d' <> [])
  /\ ((List.length (thread d) <= 1)%nat -> thread d' = thread d)
  /\ (forall n : nat,
        index = Z.of_nat n -> (n < List.length (thread d))%nat ->
        (2 <= List.length (thread d))%nat ->
        thread d' = firstn n (thread d) ++ skipn (S n) (thread d))
  /\ (index < 0 \/ Z.of_nat (List.length (thread d)) <= index ->
      thread d' = thread d)
  /\ map media_id (media d') = map media_id (media d)
  /\ map media_file (media d') = map media_file (media d)
  /\ map media_altText (media d') = map media_altText (media d)
  /\ map media_threadIndex (media d')
     = map (fun entry =>
              if index <? media_threadIndex entry then media_threadIndex entry - 1
              else if media_threadIndex entry =? index then Z.max 0 (index - 1)
              else media_threadIndex entry)
         (media d)
  /\ mode d' = mode d /\ text d' = text d /\ selectedTargets d' = selectedTargets d.
Proof.
  intros d'.
  destruct (removeThreadSegment_thread index d) as (Hne & Hshort & Hremoved & Hout).
  split; [exact Hne|]. split; [exact Hshort|]. split; [exact Hremoved|].
  split; [exact Hout|].
  unfold d', removeThreadSegment. cbn [thread media setMedia setThread
    mode text selectedTargets].
  rewrite !map_map. repeat split; try reflexivity.
  - apply map_ext. intros e.
    destruct (index <? media_threadIndex e); [reflexivity|].
    now destruct (media_threadIndex e =? index).
  - apply map_ext. intros e.
    destruct (index <? media_threadIndex e); [reflexivity|].
    now destruct (media_threadIndex e =? index).
  - apply map_ext. intros e.
    destruct (index <? media_threadIndex e); [reflexivity|].
    now destruct (media_threadIndex e =? index).
  - apply map_ext. intros e.
    destruct (index <? media_threadIndex e); [reflexivity|].
    destruct (Z.eqb_spec (media_threadIndex e) index) as [->|Hne']; reflexivity.
Qed.

Lemma removeThreadSegment_thread_and_media_witness :
  thread (removeThreadSegment 1 threeSegments)
  = [ {| seg_text := js "one" |}; {| seg_text := js "three" |} ]
  /\ map media_threadIndex (media (removeThreadSegment 1 threeSegments)) = [0; 1].
Proof.
  pose proof (removeThreadSegment_thread_and_media 1 threeSegments)
    as (_ & _ & Hremoved & _ & _ & _ & _ & Hmedia & _).
  split.
  - apply (Hremoved 1%nat eq_refl); simpl; lia.
  - exact Hmedia.
Defined.

Lemma removeThreadSegment_length (index : Z) (d : ComposeDraft) :
  Z.of_nat (List.length (thread (removeThreadSegment index d)))
  = if (2 <=? Z.of_nat (List.length (thread d)))
       && (0 <=? index) && (index <? Z.of_nat (List.length (thread d)))
    then Z.of_nat (List.length (thread d)) - 1
    else Z.of_nat (List.length (thread d)).
Proof.
  pose proof (removeThreadSegment_thread index d)
    as (_ & Hshort & Hremoved & Houtside).
  destruct (Z.leb_spec 2 (Z.of_nat (List.length (thread d)))) as [Hlong|Hone].
  - destruct (Z.leb_spec 0 index) as [Hpos|Hneg].
    + destruct (Z.ltb_spec index (Z.of_nat (List.length (thread d)))) as [Hin|Hout].
      * cbn [andb]. rewrite (Hremoved (Z.to_nat index)) by lia.
        rewrite length_app, length_firstn, length_skipn. lia.
      * cbn [andb]. rewrite Houtside by lia. reflexivity.
    + cbn [andb]. rewrite Houtside by lia. reflexivity.
  - cbn [andb]. rewrite Hshort by lia. reflexivity.
Qed.

(** X8: the edits of the compose pane keep the draft well formed: the
    thread keeps at least one segment and every media entry stays attached
    to an existing segment, after adding, removing (at an index that is not
    negative) or rewriting a segment, adding or removing media, and
    selecting or deselecting a target. *)
Theorem edits_keep_draft_well_formed (d : ComposeDraft) :
  wellFormedDraft d ->
  wellFormedDraft (addThreadSegment d)
  /\ (forall index, 0 <= index -> wellFormedDraft (removeThreadSegment index d))
  /\ (forall index nextValue, wellFormedDraft (updateThreadSegment index nextValue d))
  /\ (forall files, wellFormedDraft (addMediaFiles files d))
  /\ (forall mediaId, wellFormedDraft (removeMedia mediaId d))
  /\ (forall target enabled, wellFormedDraft (setTargetEnabled target enabled d)).
Proof.
  intros [Hthread Hmedia]. unfold wellFormedDraft, validMedia in *.
  rewrite Forall_forall in Hmedia.
  assert (Hlen : (1 <= List.length (thread d))%nat)
    by (destruct (thread d); [congruence|simpl; lia]).
  split.
  { split; [cbn; now destruct (thread d)|].
    apply Forall_forall. intros e He. cbn in *. rewrite length_app. simpl.
    specialize (Hmedia e He). lia. }
  split.
  { intros index Hindex.
    pose proof (removeThreadSegment_thread index d) as (Hne & _).
    split; [now apply Hne|].
    pose proof (removeThreadSegment_length index d) as Hlength.
    apply Forall_forall. intros e' He'.
    unfold removeThreadSegment in He'. cbn [media setMedia] in He'.
    apply in_map_iff in He' as (e & <- & He). specialize (Hmedia e He).
    destruct ((2 <=? Z.of_nat (List.length (thread d))) && (0 <=? index)
              && (index <? Z.of_nat (List.length (thread d)))) eqn:Hcase;
      rewrite ?Hlength.
    - apply andb_true_iff in Hcase as [Hcase Hlt].
      apply andb_true_iff in Hcase as [Hlong _].
      apply Z.leb_le in Hlong. apply Z.ltb_lt in Hlt.
      destruct (Z.ltb_spec index (media_threadIndex e)); cbn [media_threadIndex withThreadIndex].
      + lia.
      + destruct (Z.eqb_spec (media_threadIndex e) index);
          cbn [media_threadIndex withThreadIndex]; lia.
    - destruct (Z.ltb_spec index (media_threadIndex e)); cbn [media_threadIndex withThreadIndex].
      + apply andb_false_iff in Hcase as [Hcase|Hout].
        * apply andb_false_iff in Hcase as [Hshort|Hneg].
          -- apply Z.leb_gt in Hshort. lia.
          -- apply Z.leb_gt in Hneg. lia.
        * apply Z.ltb_ge in Hout. lia.
      + destruct (Z.eqb_spec (media_threadIndex e) index);
          cbn [media_threadIndex withThreadIndex]; lia. }
  split.
  { intros index nextValue. split.
    - cbn. destruct (thread d); [congruence|discriminate].
    - apply Forall_forall. intros e He. cbn in *. rewrite length_mapIndexed.
      now apply Hmedia. }
  split.
  { intros [[|f files]|]; try (split; [exact Hthread|now apply Forall_forall]).
    split; [exact Hthread|]. apply Forall_forall. intros e He.
    cbn [addMediaFiles media thread setMedia] in *.
    apply in_app_iff in He as [He|He]; [now apply Hmedia|].
    apply in_map_iff in He as ([id file] & <- & _). cbn. lia. }
  split.
  { intros mediaId. split; [exact Hthread|]. apply Forall_forall. intros e He.
    cbn in *. apply filter_In in He as [He _]. now apply Hmedia. }
  intros target enabled. split; [now destruct target|].
  apply Forall_forall. intros e He. destruct target; cbn in *; now apply Hmedia.
Qed.

Lemma edits_keep_draft_well_formed_witness :
  wellFormedDraft threeSegments
  /\ wellFormedDraft (removeThreadSegment 2 threeSegments).
Proof.
  assert (Hwf : wellFormedDraft threeSegments).
  { split; [discriminate|]. repeat constructor; simpl; lia. }
  split; [exact Hwf|].
  apply (proj1 (proj2 (edits_keep_draft_well_formed threeSegments Hwf))). lia.
Defined.

(* ================================================================== *)
(** ** From the compose pane to the gateway payload *)
(* ================================================================== *)

(** A string without white space is its own trim. *)
Lemma trim_fixed (s : jsstring) :
  (forall c, In c s -> isWhiteSpace c = false) -> trim s = s.
Proof.
  intros Hs. unfold trim.
  assert (Hstart : trimStart s = s).
  { destruct s as [|c rest]; [reflexivity|]. apply trimStart_id, Hs. now left. }
  rewrite Hstart. unfold trimEnd.
  assert (Hrev : trimStart (rev s) = rev s).
  { destruct (rev s) as [|c rest] eqn:Hr; [reflexivity|].
    apply trimStart_id, Hs, in_rev. rewrite Hr. now left. }
  rewrite Hrev. apply rev_involutive.
Qed.

Lemma decimal_no_whitespace (n : Z) (c : char16) :
  In c (decimal n) -> isWhiteSpace c = false.
Proof.
  assert (Hdigits : forall u, In c (js (NilEmpty.string_of_uint u)) ->
                              isWhiteSpace c = false).
  { induction u as [|u IH|u IH|u IH|u IH|u IH|u IH|u IH|u IH|u IH|u IH];
      simpl; try tauto; intros [<-|Hin]; try reflexivity; now apply IH. }
  unfold decimal, NilZero.string_of_int, NilZero.string_of_uint.
  destruct (Z.to_int n) as [u|u].
  - destruct u; try apply Hdigits. simpl. now intros [<-|[]].
  - intros [<-|Hin]; [reflexivity|]. revert Hin.
    destruct u; try apply Hdigits. simpl. now intros [<-|[]].
Qed.

Lemma trim_web_id (n : Z) : trim (js "web-" ++ decimal n) = js "web-" ++ decimal n.
Proof.
  apply trim_fixed. intros c Hc. apply in_app_iff in Hc as [Hc|Hc].
  - simpl in Hc. now destruct Hc as [<-|[<-|[<-|[<-|[]]]]].
  - now apply decimal_no_whitespace in Hc.
Qed.

(** The properties of the document the compose pane sends. *)
Lemma requestBodyJson_props (payload : PublishRequestBody) :
  getProp (Some (requestBodyJson payload)) (js "selectedTargets")
  = Some (selectionJson (prb_selectedTargets payload))
  /\ getProp (Some (requestBodyJson payload)) (js "text")
     = option_map JStr (prb_text payload)
  /\ getProp (Some (requestBodyJson payload)) (js "thread")
     = option_map threadJson (prb_thread payload)
  /\ getProp (Some (requestBodyJson payload)) (js "scheduleAt")
     = option_map JStr (prb_scheduleAt payload)
  /\ getProp (Some (requestBodyJson payload)) (js "clientRequestId")
     = option_map JStr (prb_clientRequestId payload)
  /\ getProp (Some (requestBodyJson payload)) (js "media")
     = option_map mediaJson (prb_media payload).
Proof.
  destruct payload as [[t|] [th|] [s|] [c|] sel [m|]]; repeat split; reflexivity.
Qed.

(** [sanitizeThread] gives back the segments the compose pane sent. *)
Lemma sanitizeThread_threadJson `{Runtime} (segments : list ThreadSegment) :
  sanitizeThread (Some (threadJson segments))
  = match segments with [] => None | _ => Some segments end.
Proof.
  unfold sanitizeThread, threadJson. rewrite map_map.
  assert (Hmap : map (fun segment : ThreadSegment =>
                        {| seg_text :=
                             match getProp (Some (JObj [(js "text", JStr (seg_text segment))]))
                                     (js "text") with
                             | Some (JStr s) => s
                             | None | Some JNull => []
                             | Some other => String_of other
                             end |}) segments
                 = segments).
  { induction segments as [|[s] rest IH]; [reflexivity|].
    cbn [map]. rewrite IH. reflexivity. }
  rewrite Hmap. now destruct segments.
Qed.

(** [sanitizeMedia] gives back the metadata the compose pane sent. *)
Lemma sanitizeMedia_mediaJson `{Runtime} (entries : list MediaMeta) :
  Forall normalMeta entries ->
  sanitizeMedia (Some (mediaJson entries))
  = match entries with [] => None | _ => Some entries end.
Proof.
  intros Hnormal. unfold sanitizeMedia, mediaJson.
  match goal with
  | |- (if 0 <? Z.of_nat (List.length ?l) then _ else _) = _ =>
      assert (Hflat : l = entries)
  end.
  { induction Hnormal as [|[threadIndex altText] rest [Hindex Halt] _ IH];
      [reflexivity|].
    cbn [map flat_map]. rewrite IH. cbn [mm_threadIndex mm_altText] in *.
    destruct altText as [alt|].
    - change (getProp (Some (JObj [(js "threadIndex", JNum threadIndex);
                                   (js "altText", JStr alt)])) (js "threadIndex"))
        with (Some (JNum threadIndex)).
      change (getProp (Some (JObj [(js "threadIndex", JNum threadIndex);
                                   (js "altText", JStr alt)])) (js "altText"))
        with (Some (JStr alt)).
      cbn [integerOf]. replace (threadIndex <? 0) with false
        by (symmetry; apply Z.ltb_ge; lia).
      destruct Halt as [-> Hne]. destruct alt; [congruence|reflexivity].
    - change (getProp (Some (JObj [(js "threadIndex", JNum threadIndex)]))
                (js "threadIndex"))
        with (Some (JNum threadIndex)).
      change (getProp (Some (JObj [(js "threadIndex", JNum threadIndex)]))
                (js "altText"))
        with (@None json).
      cbn [integerOf]. replace (threadIndex <? 0) with false
        by (symmetry; apply Z.ltb_ge; lia).
      reflexivity. }
  rewrite Hflat. now destruct entries.
Qed.

(** The alt text [buildPayload] sends is trimmed and not empty. *)
Lemma trimmed_alt_normal (altText : jsstring) :
  match match trim altText with [] => None | trimmed => Some trimmed end with
  | Some alt => trim alt = alt /\ alt <> []
  | None => True
  end.
Proof.
  pose proof (trim_idempotent altText) as Hidem.
  destruct (trim altText) as [|c rest]; [exact I|]. split; [exact Hidem|discriminate].
Qed.

(** What [buildPayload] returns for a draft without validation errors. *)
Lemma buildPayload_validated `{Runtime} (toISOString : jsstring -> jsstring) (now : Z)
  (d : ComposeDraft) (limits : option LimitsResponse) (wantsSchedule : bool) :
  getValidationErrors d limits wantsSchedule = [] ->
  exists payload,
    buildPayload toISOString now d wantsSchedule = Some payload
    /\ prb_selectedTargets payload = selectedTargets d
    /\ anyTargetSelected d = true
    /\ match mode d with
       | single =>
           prb_text payload = Some (text d) /\ text d <> []
           /\ prb_thread payload = None
       | thread_mode =>
           prb_thread payload = Some (thread d) /\ thread d <> []
           /\ prb_text payload = None
       end
    /\ prb_scheduleAt payload
       = (if wantsSchedule then Some (toISOString (scheduleAt d)) else None)
    /\ (exists id, prb_clientRequestId payload = Some id /\ id <> [] /\ trim id = id)
    /\ match prb_media payload with
       | Some entries =>
           entries <> []
           /\ map mm_threadIndex entries
              = map (fun entry =>
                       match mode d with
                       | single => 0
                       | thread_mode => media_threadIndex entry
                       end)
                  (media d)
           /\ Forall (fun entry =>
                        match mm_altText entry with
                        | Some alt => trim alt = alt /\ alt <> []
                        | None => True
                        end)
                entries
       | None => media d = []
       end.
Proof.
  intros Hvalid.
  assert (Hnone : forall v, ~ In v (getValidationErrors d limits wantsSchedule))
    by (intros v; rewrite Hvalid; apply in_nil).
  assert (Htarget : anyTargetSelected d = true).
  { destruct (anyTargetSelected d) eqn:Hany; [reflexivity|].
    exfalso. apply (Hnone SelectTarget), In_selectTarget. exact Hany. }
  assert (Htext : forallb isEmptyString (trimmedSegments d) = false).
  { destruct (forallb isEmptyString (trimmedSegments d)) eqn:Hall; [|reflexivity].
    exfalso. apply (Hnone AddPostText), In_addPostText. exact Hall. }
  assert (Hschedule : wantsSchedule = true ->
                      trim (scheduleAt d) <> [] /\ dateIsValid (scheduleAt d) = true).
  { intros ->. split.
    - intros Hblank. apply (Hnone ScheduleMissing), In_scheduleMissing. now split.
    - destruct (dateIsValid (scheduleAt d)) eqn:Hdate; [reflexivity|].
      exfalso. apply (Hnone ScheduleInvalid), In_scheduleInvalid.
      repeat split; [|exact Hdate].
      intros Hblank. apply (Hnone ScheduleMissing), In_scheduleMissing. now split. }
  unfold buildPayload. cbv zeta.
  assert (Hwhen :
            (wantsSchedule && (0 <? Z.of_nat (List.length (trim (scheduleAt d)))))
            = wantsSchedule).
  { destruct wantsSchedule; [|reflexivity]. destruct (Hschedule eq_refl) as [Hne _].
    destruct (trim (scheduleAt d)); [congruence|reflexivity]. }
  rewrite Hwhen.
  assert (Hcontent : match mode d with
                     | single => text d <> []
                     | thread_mode => thread d <> []
                     end).
  { unfold trimmedSegments in Htext.
    destruct (mode d); intros Hempty; rewrite Hempty in Htext; discriminate. }
  assert (Hid : exists id,
             Some (if 0 <? Z.of_nat (List.length (trim (clientRequestId d)))
                   then trim (clientRequestId d) else js "web-" ++ decimal now)
             = Some id /\ id <> [] /\ trim id = id).
  { eexists. split; [reflexivity|].
    pose proof (trim_idempotent (clientRequestId d)) as Hidem.
    destruct (trim (clientRequestId d)) as [|c rest].
    - split; [discriminate|apply trim_web_id].
    - split; [discriminate|exact Hidem]. }
  assert (Hmedia :
            match
              (if 0 <? Z.of_nat (List.length (media d)) then
                 Some (map (fun entry =>
                              {| mm_threadIndex :=
                                   match mode d with
                                   | single => 0
                                   | thread_mode => media_threadIndex entry
                                   end;
                                 mm_altText :=
                                   match trim (media_altText entry) with
                                   | [] => None
                                   | trimmed => Some trimmed
                                   end |})
                         (media d))
               else None)
            with
            | Some entries =>
                entries <> []
                /\ map mm_threadIndex entries
                   = map (fun entry =>
                            match mode d with
                            | single => 0
                            | thread_mode => media_threadIndex entry
                            end)
                       (media d)
                /\ Forall (fun entry =>
                             match mm_altText entry with
                             | Some alt => trim alt = alt /\ alt <> []
                             | None => True
                             end)
                     entries
            | None => media d = []
            end).
  { destruct (media d) as [|entry rest]; [reflexivity|].
    change (0 <? Z.of_nat (List.length (entry :: rest))) with true. cbv iota.
    split; [discriminate|]. split.
    - rewrite map_map. reflexivity.
    - apply Forall_forall. intros meta Hin. apply in_map_iff in Hin as (e & <- & _).
      apply trimmed_alt_normal. }
  destruct wantsSchedule.
  - destruct (Hschedule eq_refl) as [_ ->]. eexists. split; [reflexivity|].
    cbn [prb_selectedTargets prb_text prb_thread prb_scheduleAt prb_clientRequestId
           prb_media].
    split; [reflexivity|]. split; [exact Htarget|].
    split; [revert Hcontent; destruct (mode d); intros Hne; now repeat split|].
    split; [reflexivity|]. split; [exact Hid|exact Hmedia].
  - eexists. split; [reflexivity|].
    cbn [prb_selectedTargets prb_text prb_thread prb_scheduleAt prb_clientRequestId
           prb_media].
    split; [reflexivity|]. split; [exact Htarget|].
    split; [revert Hcontent; destruct (mode d); intros Hne; now repeat split|].
    split; [reflexivity|]. split; [exact Hid|exact Hmedia].
Qed.

(** X9: [buildPayload] throws exactly for the drafts the validation
    reports 'Schedule date/time is invalid.' for, so never after a
    validation without errors.  For such a draft the request body carries the draft's
    target selection, of which one target at least is selected; the text
    alone in single mode and the thread alone in thread mode, neither empty;
    the ISO date when scheduling and no date otherwise; a client request id
    that is trimmed and not empty; and one metadata entry per media entry in
    the same order, on segment 0 in single mode, with an alt text that is
    trimmed and not empty or with none. *)
Theorem validated_draft_payload `{Runtime} (toISOString : jsstring -> jsstring)
  (now : Z) (d : ComposeDraft) (limits : option LimitsResponse)
  (wantsSchedule : bool) :
  (buildPayload toISOString now d wantsSchedule = None
   <-> In ScheduleInvalid (getValidationErrors d limits wantsSchedule))
  /\ (buildPayload toISOString now d wantsSchedule = None
      <-> In (js "Schedule date/time is invalid.")
            (getValidationMessages d limits wantsSchedule))
  /\ (getValidationErrors d limits wantsSchedule = [] ->
      exists payload,
        buildPayload toISOString now d wantsSchedule = Some payload
        /\ prb_selectedTargets payload = selectedTargets d
        /\ anyTargetSelected d = true
        /\ match mode d with
           | single =>
               prb_text payload = Some (text d) /\ text d <> []
               /\ prb_thread payload = None
           | thread_mode =>
               prb_thread payload = Some (thread d) /\ thread d <> []
               /\ prb_text payload = None
           end
        /\ prb_scheduleAt payload
           = (if wantsSchedule then Some (toISOString (scheduleAt d)) else None)
        /\ (exists id,
               prb_clientRequestId payload = Some id /\ id <> [] /\ trim id = id)
        /\ match prb_media payload with
           | Some entries =>
               entries <> []
               /\ map mm_threadIndex entries
                  = map (fun entry =>
                           match mode d with
                           | single => 0
                           | thread_mode => media_threadIndex entry
                           end)
                      (media d)
               /\ Forall (fun entry =>
                            match mm_altText entry with
                            | Some alt => trim alt = alt /\ alt <> []
                            | None => True
                            end)
                    entries
           | None => media d = []
           end).
Proof.
  assert (Hthrows :
            buildPayload toISOString now d wantsSchedule = None
            <-> In ScheduleInvalid (getValidationErrors d limits wantsSchedule)).
  { rewrite In_scheduleInvalid. unfold buildPayload. cbv zeta.
    destruct wantsSchedule; cbn [andb].
    - destruct (trim (scheduleAt d)) as [|c rest] eqn:Htrim.
      + cbn. split; [discriminate|]. intros (_ & Hne & _). congruence.
      + change (0 <? Z.of_nat (List.length (c :: rest))) with true. cbv iota.
        destruct (dateIsValid (scheduleAt d)).
        * split; [discriminate|]. intros (_ & _ & ?). discriminate.
        * split; [|reflexivity]. intros _. repeat split. discriminate.
    - split; [discriminate|]. intros (? & _). discriminate. }
  split; [exact Hthrows|]. split; [|apply buildPayload_validated].
  rewrite Hthrows. symmetry. apply In_schedule_messages.
Qed.

Lemma validated_draft_payload_witness :
  exists payload,
    @buildPayload Sample.runtime sampleISOString sampleNow scheduledThread true
    = Some payload
    /\ prb_clientRequestId payload = Some (js "web-1766599200000")
    /\ prb_thread payload = Some (thread scheduledThread).
Proof.
  destruct (proj2 (proj2 (@validated_draft_payload Sample.runtime sampleISOString
                            sampleNow scheduledThread None true)) eq_refl)
    as (payload & Hbuilt & _ & _ & (Hthread & _) & _).
  exists payload. split; [exact Hbuilt|]. split; [|exact Hthread].
  vm_compute in Hbuilt. injection Hbuilt as <-. reflexivity.
Defined.

(** X10: what the helper makes of the request body of a draft without
    validation errors, whose media in thread mode are attached to existing
    segments: [buildGatewayPayload] with [sanitizeThread] and
    [sanitizeMedia] keeps the text or the thread, the client request id and
    the media metadata exactly as the compose pane sent them, and the
    scheduled date when its ISO form is not blank; without scheduling there
    is no date. *)
Theorem helper_keeps_validated_payload `{Runtime} (toISOString : jsstring -> jsstring)
  (now : Z) (d : ComposeDraft) (limits : option LimitsResponse)
  (wantsSchedule : bool) (payload : PublishRequestBody) (targets : Targets) :
  getValidationErrors d limits wantsSchedule = [] ->
  (mode d = thread_mode -> validMedia d) ->
  buildPayload toISOString now d wantsSchedule = Some payload ->
  let gatewayPayload := buildGatewayPayload (requestBodyJson payload) targets in
  gp_targets gatewayPayload = targets
  /\ gp_text gatewayPayload = prb_text payload
  /\ gp_thread gatewayPayload = prb_thread payload
  /\ gp_clientRequestId gatewayPayload = prb_clientRequestId payload
  /\ gp_media gatewayPayload = prb_media payload
  /\ (wantsSchedule = false -> gp_scheduleAt gatewayPayload = None)
  /\ (trim (toISOString (scheduleAt d)) <> [] ->
      gp_scheduleAt gatewayPayload = prb_scheduleAt payload).
Proof.
  intros Hvalid Hattached Hbuilt gatewayPayload.
  destruct (buildPayload_validated toISOString now d limits wantsSchedule Hvalid)
    as (payload' & Hbuilt' & _ & _ & Hcontent & Hdate & (id & Hid & Hne & Htrim)
        & Hmedia).
  rewrite Hbuilt in Hbuilt'. injection Hbuilt' as <-.
  destruct (requestBodyJson_props payload)
    as (_ & Htext & Hthread & HscheduleAt & Hclient & Hmeta).
  unfold gatewayPayload, buildGatewayPayload.
  cbn [gp_targets gp_text gp_thread gp_clientRequestId gp_media gp_scheduleAt].
  rewrite Htext, Hthread, HscheduleAt, Hclient, Hmeta.
  split; [reflexivity|].
  assert (Hthread' : sanitizeThread (option_map threadJson (prb_thread payload))
                     = prb_thread payload
                     /\ match option_map JStr (prb_text payload) with
                        | Some (JStr s) =>
                            if 0 <? Z.of_nat (List.length s) then Some s else None
                        | _ => None
                        end = prb_text payload).
  { destruct (mode d).
    - destruct Hcontent as (-> & Hnonempty & ->). split; [reflexivity|].
      cbn [option_map]. destruct (text d); [congruence|reflexivity].
    - destruct Hcontent as (-> & Hnonempty & ->). split; [|reflexivity].
      cbn [option_map]. rewrite sanitizeThread_threadJson.
      destruct (thread d); [congruence|reflexivity]. }
  destruct Hthread' as [-> ->]. split; [reflexivity|]. split; [reflexivity|].
  split.
  { rewrite Hid. cbn [option_map]. rewrite Htrim.
    destruct id; [congruence|reflexivity]. }
  split.
  { destruct (prb_media payload) as [entries|]; [|reflexivity].
    destruct Hmedia as (Hentries & Hindices & Halt). cbn [option_map].
    rewrite sanitizeMedia_mediaJson; [destruct entries; [congruence|reflexivity]|].
    apply Forall_forall. intros entry Hin. split.
    - assert (Hall : Forall (fun index => 0 <= index) (map mm_threadIndex entries)).
      { rewrite Hindices. apply Forall_forall. intros index Hindex.
        apply in_map_iff in Hindex as (e & <- & He).
        destruct (mode d) eqn:Hmode; [lia|].
        specialize (Hattached eq_refl). unfold validMedia in Hattached.
        rewrite Forall_forall in Hattached. apply Hattached in He. lia. }
      rewrite Forall_forall in Hall. apply Hall. now apply in_map.
    - rewrite Forall_forall in Halt. now apply Halt. }
  rewrite Hdate. split.
  - intros ->. reflexivity.
  - intros Hiso. destruct wantsSchedule; [|reflexivity]. cbn [option_map].
    destruct (trim (toISOString (scheduleAt d))); [congruence|reflexivity].
Qed.

Lemma helper_keeps_validated_payload_witness :
  exists payload,
    @buildPayload Sample.runtime sampleISOString sampleNow scheduledThread true
    = Some payload
    /\ gp_thread (@buildGatewayPayload Sample.runtime (requestBodyJson payload) noTargets)
       = prb_thread payload
    /\ gp_media (@buildGatewayPayload Sample.runtime (requestBodyJson payload) noTargets)
       = prb_media payload.
Proof.
  assert (Hattached : mode scheduledThread = thread_mode -> validMedia scheduledThread).
  { intros _. repeat constructor; simpl; lia. }
  eexists. split; [vm_compute; reflexivity|].
  destruct (@helper_keeps_validated_payload Sample.runtime sampleISOString sampleNow
              scheduledThread None true _ noTargets eq_refl Hattached eq_refl)
    as (_ & _ & Hthread & _ & Hmedia & _).
  split; assumption.
Defined.

(* ================================================================== *)
(** ** The helper's calls of the gateway *)
(* ================================================================== *)

Lemma last_cons_default {A} (a : A) (l : list A) (d : A) :
  last (a :: l) d = last l a.
Proof.
  revert a d. induction l as [|b rest IH]; intros a d; [reflexivity|].
  change (last (a :: b :: rest) d) with (last (b :: rest) d).
  now rewrite !IH.
Qed.

(** The loop from any state it can reach: [room] is the number of files
    it can still read. *)
Lemma collectPartsFrom_run (parts : list Part) :
  forall (payloadRaw : jsstring) (uploadedMedia : list UploadedMedia) (room : nat),
    Z.of_nat (List.length uploadedMedia) + Z.of_nat room = filesLimit ->
    collectPartsFrom parts payloadRaw uploadedMedia
    = if existsb oversized (firstn room (flat_map fileOf parts)) then inr FileTooLarge
      else if Z.of_nat room <? Z.of_nat (List.length (flat_map fileOf parts))
           then inr FilesLimit
           else inl (last (flat_map payloadFieldOf parts) payloadRaw,
                     uploadedMedia ++ flat_map fileOf parts).
Proof.
  induction parts as [|part rest IH]; intros payloadRaw uploadedMedia room Hroom.
  - cbn [flat_map collectPartsFrom List.length last]. rewrite firstn_nil, app_nil_r.
    cbn [existsb]. replace (Z.of_nat room <? Z.of_nat 0) with false
      by (symmetry; apply Z.ltb_ge; lia).
    reflexivity.
  - destruct part as [filename mimetype data|fieldname value].
    + cbn [collectPartsFrom flat_map fileOf payloadFieldOf app].
      destruct (Z.leb_spec filesLimit (Z.of_nat (List.length uploadedMedia)))
        as [Hfull|Hfree].
      * assert (room = 0%nat) as -> by lia. cbn [firstn existsb].
        replace (Z.of_nat 0 <? _) with true
          by (symmetry; apply Z.ltb_lt; cbn [List.length]; lia).
        reflexivity.
      * destruct room as [|room']; [lia|]. cbn [firstn existsb].
        unfold oversized at 1. cbn [um_data].
        destruct (fileSizeLimit <? Z.of_nat (List.length data)); [reflexivity|].
        cbn [orb]. rewrite (IH _ _ room') by (rewrite length_app; cbn; lia).
        destruct (existsb oversized (firstn room' (flat_map fileOf rest)));
          [reflexivity|].
        cbn [List.length].
        replace (Z.of_nat (S room') <? Z.of_nat (S (List.length (flat_map fileOf rest))))
          with (Z.of_nat room' <? Z.of_nat (List.length (flat_map fileOf rest))).
        -- destruct (Z.of_nat room' <? _); [reflexivity|].
           now rewrite <- app_assoc.
        -- destruct (Z.ltb_spec (Z.of_nat room')
                       (Z.of_nat (List.length (flat_map fileOf rest))));
             symmetry; [apply Z.ltb_lt|apply Z.ltb_ge]; lia.
    + cbn [collectPartsFrom flat_map fileOf payloadFieldOf app].
      destruct (jseqb fieldname (js "payload")).
      * rewrite (IH _ _ room) by assumption. cbn [app].
        now rewrite last_cons_default.
      * now rewrite (IH _ _ room) by assumption.
Qed.

(** X11: the multipart loop of [/api/posts] under the registered limits
    of 12 files of at most 60 MB each.  When one of the first twelve files
    is larger than that, the loop ends with the file-too-large error; else
    when there are more than twelve files, with the files-limit error;
    otherwise it keeps every file part, in the order of arrival and with
    the default name and type where a part has none, and keeps of the
    fields only the value of the last one named [payload] (the empty
    string when there is none): other fields are ignored and the position
    of the fields among the files does not matter. *)
Theorem collectParts_files_and_last_payload (parts : list Part) :
  let files := flat_map fileOf parts in
  collectParts parts
  = if existsb oversized (firstn 12 files) then inr FileTooLarge
    else if 12 <? Z.of_nat (List.length files) then inr FilesLimit
    else inl (last (flat_map payloadFieldOf parts) [], files).
Proof.
  intros files. unfold collectParts.
  now rewrite (collectPartsFrom_run parts [] [] 12).
Qed.

(** What [gatewayFetch] does in a world: nothing without a stored key or
    when the URL or the header cannot be built, one call of [fetch]
    otherwise. *)
Lemma gatewayFetch_run `{Runtime}
  (upstream : UpstreamRequest -> UpstreamResponse + jsstring) (w : World)
  (route method : jsstring) (contentTypeHeader : option jsstring)
  (requestBody : FetchBody) :
  let secrets := orElse (keychain w) noSecrets in
  gatewayFetch upstream (gatewayBaseUrl w) secrets route method contentTypeHeader
    requestBody w
  = if present (gatewayApiKey secrets) then
      match URL_newWithBase route (gatewayBaseUrl w) with
      | inr msg => (Throw (OtherError msg), w)
      | inl url =>
          match Headers_set (js "Authorization") (bearer w) with
          | inr msg => (Throw (OtherError msg), w)
          | inl authorization =>
              let request :=
                {| up_url := URL_toString url; up_method := method;
                   up_authorization := authorization;
                   up_contentType := contentTypeHeader;
                   up_body := requestBody |} in
              match upstream request with
              | inl response => (Continue response, fetched w request)
              | inr msg => (Throw (OtherError msg), fetched w request)
              end
          end
      end
    else (Throw (HelperError 400 missingKeyMessage), w).
Proof.
  intros secrets. unfold gatewayFetch, bearer. fold secrets.
  destruct (present (gatewayApiKey secrets)); [|reflexivity]. cbn [negb].
  destruct (URL_newWithBase route (gatewayBaseUrl w)) as [url|msg]; [|reflexivity].
  destruct (Headers_set _ _) as [authorization|msg]; reflexivity.
Qed.

(** A handler that relays one call of the gateway and reports what is
    thrown under its title. *)
Lemma relayed_call `{Runtime}
  (upstream : UpstreamRequest -> UpstreamResponse + jsstring) (w : World)
  (title route method : jsstring) (contentTypeHeader : option jsstring)
  (requestBody : FetchBody) :
  let secrets := orElse (keychain w) noSecrets in
  let result :=
    respond
      (tryCatch
         (response <-
            gatewayFetch upstream (gatewayBaseUrl w) secrets route method
              contentTypeHeader requestBody ;;
          ret (relayUpstream response))
         (failWith title)) w in
  (present (gatewayApiKey secrets) = false ->
   result = (problemReply 400 title missingKeyMessage, w))
  /\ (present (gatewayApiKey secrets) = true ->
      forall msg,
        URL_newWithBase route (gatewayBaseUrl w) = inr msg ->
        result = (problemReply 500 title msg, w))
  /\ (present (gatewayApiKey secrets) = true ->
      forall url msg,
        URL_newWithBase route (gatewayBaseUrl w) = inl url ->
        Headers_set (js "Authorization") (bearer w) = inr msg ->
        result = (problemReply 500 title msg, w))
  /\ (present (gatewayApiKey secrets) = true ->
      forall url authorization,
        URL_newWithBase route (gatewayBaseUrl w) = inl url ->
        Headers_set (js "Authorization") (bearer w) = inl authorization ->
        let upstreamRequest :=
          {| up_url := URL_toString url; up_method := method;
             up_authorization := authorization;
             up_contentType := contentTypeHeader; up_body := requestBody |} in
        result
        = match upstream upstreamRequest with
          | inl response => (relayUpstream response, fetched w upstreamRequest)
          | inr msg => (problemReply 500 title msg, fetched w upstreamRequest)
          end)
  /\ keychain (snd result) = keychain w
  /\ keychainWrites (snd result) = keychainWrites w.
Proof.
  intros secrets result. unfold result, respond, tryCatch, bind.
  rewrite gatewayFetch_run. fold secrets. cbv zeta.
  destruct (present (gatewayApiKey secrets)).
  - destruct (URL_newWithBase route (gatewayBaseUrl w)) as [url|msg].
    + destruct (Headers_set (js "Authorization") (bearer w)) as [authorization|msg].
      * split; [discriminate|]. split; [intros _ msg Hmsg; discriminate|].
        split; [intros _ url' msg _ Hmsg; discriminate|]. split.
        -- intros _ url' authorization' Hurl Hauthorization.
           injection Hurl as <-. injection Hauthorization as <-.
           destruct (upstream _); reflexivity.
        -- destruct (upstream _); split; reflexivity.
      * split; [discriminate|]. split; [intros _ msg' Hmsg; discriminate|].
        split.
        -- intros _ url' msg' _ Hmsg. injection Hmsg as <-. reflexivity.
        -- split; [intros _ url' authorization _ Hauthorization; discriminate|].
           split; reflexivity.
    + split; [discriminate|]. split.
      * intros _ msg' Hmsg. injection Hmsg as <-. reflexivity.
      * split; [intros _ url msg' Hurl; discriminate|].
        split; [intros _ url authorization Hurl; discriminate|]. split; reflexivity.
  - split; [reflexivity|]. repeat split; discriminate.
Qed.

(** X12: a publish request whose selected targets all have credentials
    leads to one call of the gateway at most.  Without a stored gateway
    key the answer is 400 'Publish failed' with the missing-key message
    and nothing is sent.  With a key, the URL of /v1/posts against the
    gateway base URL and the [Authorization] header 'Bearer' and the key
    are built; when either throws, the answer is 500 'Publish failed' with
    the message thrown and nothing is sent.  Otherwise one POST is made to
    that URL with that header; its body is the gateway payload built from
    the client payload and the resolved targets, sent as JSON with the
    JSON content type, or as form data together with the uploaded files
    and no content type of its own; the answer is the relayed upstream
    response, or 500 'Publish failed' with the message of a failed fetch. *)
Theorem posts_call_the_gateway `{Runtime}
  (upstream : UpstreamRequest -> UpstreamResponse + jsstring)
  (request : PostRequest) (w : World) (clientPayload : json) :
  clientPayloadOf request = Some clientPayload ->
  let secrets := orElse (keychain w) noSecrets in
  let resolved :=
    resolveTargetsFromSelection secrets
      (getProp (Some clientPayload) (js "selectedTargets")) in
  selectedCount resolved <> 0 -> missing resolved = [] ->
  let result := respond (postPosts upstream request) w in
  (present (gatewayApiKey secrets) = false ->
   result = (problemReply 400 (js "Publish failed") missingKeyMessage, w))
  /\ (present (gatewayApiKey secrets) = true ->
      forall msg,
        URL_newWithBase (js "/v1/posts") (gatewayBaseUrl w) = inr msg ->
        result = (problemReply 500 (js "Publish failed") msg, w))
  /\ (present (gatewayApiKey secrets) = true ->
      forall url msg,
        URL_newWithBase (js "/v1/posts") (gatewayBaseUrl w) = inl url ->
        Headers_set (js "Authorization") (bearer w) = inr msg ->
        result = (problemReply 500 (js "Publish failed") msg, w))
  /\ (present (gatewayApiKey secrets) = true ->
      forall url authorization,
        URL_newWithBase (js "/v1/posts") (gatewayBaseUrl w) = inl url ->
        Headers_set (js "Authorization") (bearer w) = inl authorization ->
        let upstreamRequest :=
          publishCall request w clientPayload (URL_toString url) authorization in
        result
        = match upstream upstreamRequest with
          | inl response => (relayUpstream response, fetched w upstreamRequest)
          | inr msg =>
              (problemReply 500 (js "Publish failed") msg,
               fetched w upstreamRequest)
          end).
Proof.
  intros Hpayload secrets resolved Hcount Hmissing result.
  assert (Hcheck : forall w', checkResolved resolved w' = (Continue tt, w')).
  { intros w'. unfold checkResolved.
    replace (selectedCount resolved =? 0) with false
      by (symmetry; now apply Z.eqb_neq).
    now rewrite Hmissing. }
  assert (Hshape :
            exists contentTypeHeader requestBody,
              result
              = respond
                  (tryCatch
                     (response <-
                        gatewayFetch upstream (gatewayBaseUrl w) secrets
                          (js "/v1/posts") (js "POST") contentTypeHeader requestBody ;;
                      ret (relayUpstream response))
                     (failWith (js "Publish failed"))) w
              /\ forall url authorization,
                   publishCall request w clientPayload url authorization
                   = {| up_url := url; up_method := js "POST";
                        up_authorization := authorization;
                        up_contentType := contentTypeHeader;
                        up_body := requestBody |}).
  { unfold clientPayloadOf in Hpayload.
    unfold result, publishCall, uploadedFiles, postPosts, respond, tryCatch.
    unfold bind at 1 2, readConfig, readSecrets. fold secrets. fold resolved.
    destruct (includes (orElse (req_contentType request) [])
                (js "multipart/form-data")).
    - destruct (collectParts (req_parts request))
        as [[payloadRaw uploadedMedia]|limit]; [|discriminate].
      destruct payloadRaw as [|c raw]; [discriminate|].
      destruct (JSON_parse (c :: raw)) as [parsed|] eqn:Hparse; [|discriminate].
      assert (Hnull : parsed <> JNull) by (intros ->; discriminate).
      assert (parsed = clientPayload) as -> by (destruct parsed; congruence).
      rewrite bind_ret. cbv iota beta. rewrite Hparse.
      rewrite selectedTargetsOf_bind by assumption. fold resolved.
      unfold bind at 1. rewrite Hcheck.
      eexists _, _. split; reflexivity.
    - injection Hpayload as <-.
      rewrite selectedTargetsOf_bind
        by (destruct (req_body request) as [[]|]; discriminate).
      fold resolved. unfold bind at 1. rewrite Hcheck.
      eexists _, _. split; reflexivity. }
  destruct Hshape as (contentTypeHeader & requestBody & -> & Hcall).
  destruct (relayed_call upstream w (js "Publish failed") (js "/v1/posts") (js "POST")
              contentTypeHeader requestBody)
    as (Hkey & Hurl & Hheader & Hsent & _).
  split; [exact Hkey|]. split; [exact Hurl|]. split; [exact Hheader|].
  intros Hpresent url authorization Hu Ha. cbv zeta. rewrite Hcall.
  exact (Hsent Hpresent url authorization Hu Ha).
Qed.

Lemma posts_call_the_gateway_witness :
  respond (@postPosts Sample.runtime Sample.gateway xOnlyRequest) keylessWorld
  = (problemReply 400 (js "Publish failed") missingKeyMessage, keylessWorld)
  /\ fetches
       (snd (respond (@postPosts Sample.runtime Sample.gateway xOnlyRequest) onlyXWorld))
     = [@publishCall Sample.runtime xOnlyRequest onlyXWorld
          (bodyObject (req_body xOnlyRequest))
          (js "http://127.0.0.1:38081/v1/posts") (js "Bearer gateway-key")].
Proof.
  destruct (@posts_call_the_gateway Sample.runtime Sample.gateway xOnlyRequest
              keylessWorld _ eq_refl) as (Hkeyless & _);
    [vm_compute; discriminate|reflexivity|].
  destruct (@posts_call_the_gateway Sample.runtime Sample.gateway xOnlyRequest
              onlyXWorld _ eq_refl) as (_ & _ & _ & Hsent);
    [vm_compute; discriminate|reflexivity|].
  split; [exact (Hkeyless eq_refl)|].
  rewrite (Hsent eq_refl _ _ eq_refl eq_refl). reflexivity.
Defined.

(** X13: the handlers of [/api/limits], [/api/jobs] and
    [/api/jobs/:jobId] (GET and DELETE) pass the request on to the gateway.
    Without a stored gateway key each answers 400 with its own title and
    the missing-key message and sends nothing.  With a key each builds the
    URL of its route against the gateway base URL and the [Authorization]
    header 'Bearer' and the key, and answers 500 under its own title,
    sending nothing, when either throws.  Otherwise it makes one call, of
    its method, to the URL its route resolves to, so that a job id with
    dot segments, a question mark or a hash leads to another path than
    /v1/jobs/ and the id; the call has no body, and the answer is the
    relayed upstream response, or 500 under the handler's title when the
    fetch fails.  None of them writes the keychain.  The route of
    [/api/limits] is /v1/limits, followed by the encoded query of the
    stored Mastodon instance URL and access token when one of them is
    stored. *)
Theorem pass_through_handlers `{Runtime}
  (upstream : UpstreamRequest -> UpstreamResponse + jsstring)
  (encodeQuery : list (jsstring * jsstring) -> jsstring) (jobId : jsstring)
  (w : World) (handler : Handler Reply) (title route method : jsstring) :
  In (handler, (title, route, method))
    (passThroughHandlers upstream encodeQuery jobId w) ->
  let secrets := orElse (keychain w) noSecrets in
  let result := respond handler w in
  (present (gatewayApiKey secrets) = false ->
   result = (problemReply 400 title missingKeyMessage, w))
  /\ (present (gatewayApiKey secrets) = true ->
      forall msg,
        URL_newWithBase route (gatewayBaseUrl w) = inr msg ->
        result = (problemReply 500 title msg, w))
  /\ (present (gatewayApiKey secrets) = true ->
      forall url msg,
        URL_newWithBase route (gatewayBaseUrl w) = inl url ->
        Headers_set (js "Authorization") (bearer w) = inr msg ->
        result = (problemReply 500 title msg, w))
  /\ (present (gatewayApiKey secrets) = true ->
      forall url authorization,
        URL_newWithBase route (gatewayBaseUrl w) = inl url ->
        Headers_set (js "Authorization") (bearer w) = inl authorization ->
        let upstreamRequest :=
          {| up_url := URL_toString url; up_method := method;
             up_authorization := authorization;
             up_contentType := None; up_body := NoBody |} in
        result
        = match upstream upstreamRequest with
          | inl response => (relayUpstream response, fetched w upstreamRequest)
          | inr msg => (problemReply 500 title msg, fetched w upstreamRequest)
          end)
  /\ keychain (snd result) = keychain w
  /\ keychainWrites (snd result) = keychainWrites w.
Proof.
  intros Hin secrets result.
  assert (Hhandler :
            handler w
            = tryCatch
                (response <-
                   gatewayFetch upstream (gatewayBaseUrl w) secrets route method
                     None NoBody ;;
                 ret (relayUpstream response))
                (failWith title) w).
  { unfold passThroughHandlers in Hin. cbv zeta in Hin.
    destruct Hin as [Hin|[Hin|[Hin|[Hin|[]]]]]; injection Hin as <- <- <- <-;
      try reflexivity.
    unfold getLimits, tryCatch, bind, readConfig, readSecrets. fold secrets.
    now destruct (limitsQuery secrets). }
  unfold result, respond. rewrite Hhandler.
  exact (relayed_call upstream w title route method None NoBody).
Qed.

Lemma pass_through_handlers_witness :
  respond (@deleteJob Sample.runtime Sample.gateway (js "job-7")) keylessWorld
  = (problemReply 400 (js "Failed to cancel job") missingKeyMessage, keylessWorld)
  /\ fetches
       (snd (respond (@getJob Sample.runtime Sample.gateway (js "../limits"))
               onlyXWorld))
     = [{| up_url := js "http://127.0.0.1:38081/v1/limits"; up_method := js "GET";
           up_authorization := js "Bearer gateway-key";
           up_contentType := None; up_body := NoBody |}].
Proof.
  destruct (@pass_through_handlers Sample.runtime Sample.gateway (fun _ => [])
              (js "job-7") keylessWorld _ (js "Failed to cancel job")
              (js "/v1/jobs/job-7") (js "DELETE")
              (or_intror (or_intror (or_intror (or_introl eq_refl)))))
    as (Hkeyless & _).
  destruct (@pass_through_handlers Sample.runtime Sample.gateway (fun _ => [])
              (js "../limits") onlyXWorld _ (js "Failed to load job details")
              (js "/v1/jobs/../limits") (js "GET")
              (or_intror (or_intror (or_introl eq_refl))))
    as (_ & _ & _ & Hsent & _).
  split; [exact (Hkeyless eq_refl)|].
  rewrite (Hsent eq_refl _ _ eq_refl eq_refl). reflexivity.
Defined.

(* ================================================================== *)
(** ** Further properties of POST /api/settings/secrets *)
(* ================================================================== *)

Lemma present_trimToUndefined (value : option json) (s : jsstring) :
  trimToUndefined value = Some s -> present (Some s) = true.
Proof.
  unfold trimToUndefined. destruct value as [[| | |raw| |]|]; try discriminate.
  destruct (trim raw); [discriminate|]. intros Hs. now injection Hs as <-.
Qed.

Lemma present_trimToUndefined_isSet (value : option json) :
  present (trimToUndefined value) = isSet (trimToUndefined value).
Proof.
  destruct (trimToUndefined value) as [s|] eqn:Hs; [|reflexivity].
  now apply present_trimToUndefined in Hs.
Qed.

Lemma tupleState_Complete (fields : list bool) :
  tupleState fields = Complete -> forallb (fun b => b) fields = true.
Proof.
  unfold tupleState. destruct (forallb negb fields); [discriminate|].
  now destruct (forallb (fun b => b) fields).
Qed.

Section SecretsFacts.
Context `{Runtime}.
Variable body : json.

Lemma afterKeys_fields (current : StoredSecrets) :
  gatewayApiKey (afterKeys body current)
  = (if hasOwn body (js "gatewayApiKey")
     then trimToUndefined (getProp (Some body) (js "gatewayApiKey"))
     else gatewayApiKey current)
  /\ secret_x (afterKeys body current)
     = (if hasOwn body (js "xAuthToken")
        then option_map (fun authToken => {| xs_authToken := Some authToken |})
               (trimToUndefined (getProp (Some body) (js "xAuthToken")))
        else secret_x current)
  /\ secret_bluesky (afterKeys body current) = secret_bluesky current
  /\ secret_mastodon (afterKeys body current) = secret_mastodon current.
Proof.
  unfold afterKeys. cbv zeta.
  destruct (hasOwn body (js "gatewayApiKey")), (hasOwn body (js "xAuthToken"));
    try destruct (trimToUndefined (getProp (Some body) (js "xAuthToken")));
    repeat split.
Qed.

Lemma afterBluesky_fields (next after : StoredSecrets) :
  afterBluesky body next = Some after ->
  gatewayApiKey after = gatewayApiKey next
  /\ secret_x after = secret_x next
  /\ secret_mastodon after = secret_mastodon next
  /\ secret_bluesky after
     = (if touchesBluesky body then
          match blueskyTuple body with
          | Complete =>
              Some {| bs_identifier := blueskyIdentifierOf body;
                      bs_pdsUrl := blueskyPdsUrlOf body;
                      bs_appPassword := blueskyAppPasswordOf body |}
          | _ => None
          end
        else secret_bluesky next).
Proof.
  unfold afterBluesky. destruct (touchesBluesky body).
  - destruct (blueskyTuple body); try discriminate;
      intros Hs; injection Hs as <-; repeat split.
  - intros Hs. injection Hs as <-. repeat split.
Qed.

Lemma afterMastodon_fields (next after : StoredSecrets) :
  afterMastodon body next = Some after ->
  gatewayApiKey after = gatewayApiKey next
  /\ secret_x after = secret_x next
  /\ secret_bluesky after = secret_bluesky next
  /\ secret_mastodon after
     = (if touchesMastodon body then
          match mastodonTuple body with
          | Complete =>
              Some {| ms_instanceUrl := mastodonInstanceUrlOf body;
                      ms_accessToken := mastodonAccessTokenOf body;
                      ms_visibility := Some (mastodonVisibilityOf body) |}
          | _ => None
          end
        else secret_mastodon next).
Proof.
  unfold afterMastodon. destruct (touchesMastodon body).
  - destruct (mastodonTuple body); try discriminate;
      intros Hs; injection Hs as <-; repeat split.
  - intros Hs. injection Hs as <-. repeat split.
Qed.

Lemma mastodonVisibility_present : present (Some (mastodonVisibilityOf body)) = true.
Proof.
  unfold mastodonVisibilityOf.
  destruct (trimToUndefined (getProp (Some body) (js "mastodonVisibility")))
    as [s|] eqn:Hs; [|reflexivity].
  now apply present_trimToUndefined in Hs.
Qed.

(** The three steps keep or establish the usability of what is stored. *)
Lemma steps_wellStored (current k b m : StoredSecrets) :
  wellStored current ->
  afterKeys body current = k -> afterBluesky body k = Some b ->
  afterMastodon body b = Some m ->
  wellStored m.
Proof.
  intros (Hkey & Hx & Hbluesky & Hmastodon) Hk Hb Hm.
  destruct (afterKeys_fields current) as (Hk1 & Hk2 & Hk3 & Hk4). rewrite Hk in *.
  destruct (afterBluesky_fields k b Hb) as (Hb1 & Hb2 & Hb3 & Hb4).
  destruct (afterMastodon_fields b m Hm) as (Hm1 & Hm2 & Hm3 & Hm4).
  unfold wellStored. rewrite Hm1, Hm2, Hm3, Hm4, Hb1, Hb2, Hb3, Hb4, Hk1, Hk2, Hk3, Hk4.
  repeat split.
  - destruct (hasOwn body (js "gatewayApiKey")); [|exact Hkey].
    rewrite present_trimToUndefined_isSet.
    destruct (trimToUndefined _); [now right|now left].
  - destruct (hasOwn body (js "xAuthToken")); [|exact Hx].
    destruct (trimToUndefined (getProp (Some body) (js "xAuthToken"))) as [s|] eqn:Hs;
      [right|now left].
    cbn. now apply present_trimToUndefined in Hs.
  - destruct (touchesBluesky body); [|exact Hbluesky].
    destruct (blueskyTuple body) eqn:Htuple; try (now left). right.
    apply tupleState_Complete in Htuple. cbn in Htuple.
    rewrite !andb_true_iff in Htuple. cbn. tauto.
  - destruct (touchesMastodon body); [|exact Hmastodon].
    destruct (mastodonTuple body) eqn:Htuple; try (now left). right.
    apply tupleState_Complete in Htuple. cbn in Htuple.
    rewrite !andb_true_iff in Htuple. cbn.
    pose proof mastodonVisibility_present. tauto.
Qed.

(** Running the three steps again on their own result changes nothing. *)
Lemma steps_idempotent (current b m : StoredSecrets) :
  afterBluesky body (afterKeys body current) = Some b ->
  afterMastodon body b = Some m ->
  afterKeys body m = m /\ afterBluesky body m = Some m /\ afterMastodon body m = Some m.
Proof.
  intros Hb Hm.
  destruct (afterKeys_fields current) as (Hk1 & Hk2 & Hk3 & Hk4).
  destruct (afterBluesky_fields _ b Hb) as (Hb1 & Hb2 & Hb3 & Hb4).
  destruct (afterMastodon_fields b m Hm) as (Hm1 & Hm2 & Hm3 & Hm4).
  assert (Hkeys : afterKeys body m = m).
  { destruct (afterKeys_fields m) as (H1 & H2 & H3 & H4).
    assert (Hg : gatewayApiKey (afterKeys body m) = gatewayApiKey m).
    { rewrite H1, Hm1, Hb1, Hk1. now destruct (hasOwn body (js "gatewayApiKey")). }
    assert (Hx : secret_x (afterKeys body m) = secret_x m).
    { rewrite H2, Hm2, Hb2, Hk2. now destruct (hasOwn body (js "xAuthToken")). }
    destruct (afterKeys body m), m. cbn in *. congruence. }
  rewrite Hkeys. split; [reflexivity|].
  assert (Hbluesky : afterBluesky body m = Some m).
  { rewrite <- Hm3 in Hb4.
    unfold afterBluesky in Hb |- *. destruct (touchesBluesky body); [|reflexivity].
    destruct (blueskyTuple body); try discriminate; f_equal;
      destruct m; cbn in *; rewrite Hb4; reflexivity. }
  split; [exact Hbluesky|].
  unfold afterMastodon in Hm |- *. destruct (touchesMastodon body); [|reflexivity].
  destruct (mastodonTuple body); try discriminate; f_equal;
    destruct m; cbn in *; rewrite Hm4; reflexivity.
Qed.

End SecretsFacts.

(** X14: the Mastodon fields of a secrets request are taken together,
    once the Bluesky step has not rejected the request.  When neither a
    usable instance URL nor an access token is sent the stored Mastodon
    tuple is deleted, so a request that only names [mastodonVisibility]
    deletes it; when both are sent the tuple is stored with the sent
    visibility, or 'public' when none is sent; when only one of the two is
    sent the request is rejected with 400 'Mastodon credentials
    incomplete' and the world is left as it was. *)
Theorem secrets_mastodon_tuple `{Runtime} (requestBody : option json) (w : World)
  (afterBlueskyStep : StoredSecrets) :
  let body := bodyObject requestBody in
  afterBluesky body (afterKeys body (orElse (keychain w) noSecrets))
  = Some afterBlueskyStep ->
  touchesMastodon body = true ->
  match mastodonTuple body with
  | Partial => respond (postSecrets requestBody) w = (mastodonIncompleteReply, w)
  | Cleared =>
      exists next,
        snd (respond (postSecrets requestBody) w) = written w next
        /\ secret_mastodon next = None
  | Complete =>
      exists next,
        snd (respond (postSecrets requestBody) w) = written w next
        /\ secret_mastodon next
           = Some {| ms_instanceUrl := mastodonInstanceUrlOf body;
                     ms_accessToken := mastodonAccessTokenOf body;
                     ms_visibility := Some (mastodonVisibilityOf body) |}
  end
  /\ (hasOwn body (js "mastodonInstanceUrl") = false ->
      hasOwn body (js "mastodonAccessToken") = false ->
      mastodonTuple body = Cleared)
  /\ (hasOwn body (js "mastodonVisibility") = false ->
      mastodonVisibilityOf body = js "public").
Proof.
  intros body Hbluesky Htouches. split.
  - rewrite postSecrets_run. cbv zeta. fold body. rewrite Hbluesky.
    unfold afterMastodon. rewrite Htouches.
    destruct (mastodonTuple body); [| |reflexivity]; eexists; split; reflexivity.
  - split.
    + intros Hurl Htoken. unfold mastodonTuple, mastodonInstanceUrlOf,
        mastodonAccessTokenOf.
      unfold hasOwn in Hurl, Htoken.
      destruct (getProp (Some body) (js "mastodonInstanceUrl")); [discriminate|].
      destruct (getProp (Some body) (js "mastodonAccessToken")); [discriminate|].
      reflexivity.
    + intros Hvisibility. unfold mastodonVisibilityOf. unfold hasOwn in Hvisibility.
      destruct (getProp (Some body) (js "mastodonVisibility")); [discriminate|].
      reflexivity.
Qed.

Lemma secrets_mastodon_tuple_witness :
  exists next,
    snd (respond (@postSecrets Sample.runtime visibilityOnly) mastodonWorld)
    = written mastodonWorld next
    /\ secret_mastodon next = None.
Proof.
  exact (proj1 (@secrets_mastodon_tuple Sample.runtime visibilityOnly mastodonWorld
                  _ eq_refl eq_refl)).
Defined.

(** X15: saving secrets keeps the keychain usable.  When every stored
    entry is usable before the request (no keychain entry at all is), every
    entry is usable after it: the gateway key and the X token are absent or
    not empty, and a Bluesky or Mastodon tuple is absent or has every
    field set, the Mastodon visibility included.  The [configured] flags of
    the reply then say exactly which entries are stored. *)
Theorem secrets_stay_usable `{Runtime} (requestBody : option json) (w : World) :
  wellStored (orElse (keychain w) noSecrets) ->
  let after := snd (respond (postSecrets requestBody) w) in
  let stored := orElse (keychain after) noSecrets in
  wellStored stored
  /\ cfg_gatewayApiKey (summarizeSecrets stored) = isSet (gatewayApiKey stored)
  /\ cfg_x (summarizeSecrets stored) = isSet (secret_x stored)
  /\ cfg_bluesky (summarizeSecrets stored) = isSet (secret_bluesky stored)
  /\ cfg_mastodon (summarizeSecrets stored) = isSet (secret_mastodon stored).
Proof.
  intros Hcurrent after stored.
  assert (Hstored : wellStored stored).
  { unfold stored, after. rewrite postSecrets_run. cbv zeta.
    destruct (afterBluesky _ _) as [b|] eqn:Hb; [|exact Hcurrent].
    destruct (afterMastodon _ b) as [m|] eqn:Hm; [|exact Hcurrent].
    cbn. eapply steps_wellStored; eauto. }
  split; [exact Hstored|].
  destruct Hstored as (Hkey & Hx & Hbluesky & Hmastodon).
  unfold summarizeSecrets. cbn [cfg_gatewayApiKey cfg_x cfg_bluesky cfg_mastodon].
  repeat split.
  - destruct Hkey as [->|Hkey]; [reflexivity|].
    rewrite Hkey. now destruct (gatewayApiKey stored).
  - destruct Hx as [->|Hx]; [reflexivity|].
    rewrite Hx. now destruct (secret_x stored).
  - destruct Hbluesky as [->|(-> & -> & Hp)]; [reflexivity|].
    rewrite Hp. now destruct (secret_bluesky stored).
  - destruct Hmastodon as [->|(-> & Ht & _)]; [reflexivity|].
    rewrite Ht. now destruct (secret_mastodon stored).
Qed.

Lemma secrets_stay_usable_witness :
  wellStored
    (orElse
       (keychain (snd (respond (@postSecrets Sample.runtime xTokenOnly) mastodonWorld)))
       noSecrets).
Proof.
  apply (@secrets_stay_usable Sample.runtime xTokenOnly mastodonWorld).
  repeat split; (now left) || (now right).
Defined.

(** X16: a secrets request that is answered with status 200 writes the
    keychain once and does nothing else: the gateway URL is kept and no
    call of the gateway is made.  Entries the request does not name are
    kept as they were stored.  A following GET /api/settings reports the
    [configured] flags and the [profile] of the reply. *)
Theorem secrets_save_frame `{Runtime} (requestBody : option json) (w : World) :
  let body := bodyObject requestBody in
  let current := orElse (keychain w) noSecrets in
  code (fst (respond (postSecrets requestBody) w)) = 200 ->
  exists next,
    respond (postSecrets requestBody) w
    = (ok (SavedBody (summarizeSecrets next) (profileOf next)), written w next)
    /\ respond getSettings (written w next)
       = (ok (SettingsBody (gatewayBaseUrl w) (summarizeSecrets next) (profileOf next)),
          written w next)
    /\ (hasOwn body (js "gatewayApiKey") = false ->
        gatewayApiKey next = gatewayApiKey current)
    /\ (hasOwn body (js "xAuthToken") = false -> secret_x next = secret_x current)
    /\ (touchesBluesky body = false -> secret_bluesky next = secret_bluesky current)
    /\ (touchesMastodon body = false -> secret_mastodon next = secret_mastodon current).
Proof.
  intros body current. rewrite postSecrets_run. cbv zeta. fold body. fold current.
  destruct (afterBluesky body (afterKeys body current)) as [b|] eqn:Hb;
    [|cbn; discriminate].
  destruct (afterMastodon body b) as [m|] eqn:Hm; [|cbn; discriminate].
  intros _. exists m. split; [reflexivity|]. split; [reflexivity|].
  destruct (afterKeys_fields body current) as (Hk1 & Hk2 & Hk3 & Hk4).
  destruct (afterBluesky_fields body _ b Hb) as (Hb1 & Hb2 & Hb3 & Hb4).
  destruct (afterMastodon_fields body b m Hm) as (Hm1 & Hm2 & Hm3 & Hm4).
  rewrite Hm1, Hm2, Hm3, Hm4, Hb1, Hb2, Hb3, Hb4, Hk1, Hk2, Hk3, Hk4.
  repeat split; intros ->; reflexivity.
Qed.

Lemma secrets_save_frame_witness :
  exists next,
    respond (@postSecrets Sample.runtime xTokenOnly) mastodonWorld
    = (ok (SavedBody (summarizeSecrets next) (profileOf next)),
       written mastodonWorld next)
    /\ secret_mastodon next = secret_mastodon mastodonSecrets.
Proof.
  destruct (@secrets_save_frame Sample.runtime xTokenOnly mastodonWorld eq_refl)
    as (next & Hrun & _ & _ & _ & _ & Hmastodon).
  exists next. split; [exact Hrun|]. now apply Hmastodon.
Defined.

(** X17: sending the same secrets request a second time changes nothing
    more: the second reply is the first one and the keychain holds what it
    held after the first. *)
Theorem secrets_request_idempotent `{Runtime} (requestBody : option json) (w : World) :
  let first := respond (postSecrets requestBody) w in
  let second := respond (postSecrets requestBody) (snd first) in
  fst second = fst first /\ keychain (snd second) = keychain (snd first).
Proof.
  cbv zeta. rewrite (postSecrets_run requestBody w). cbv zeta.
  set (body := bodyObject requestBody).
  destruct (afterBluesky body (afterKeys body (orElse (keychain w) noSecrets)))
    as [b|] eqn:Hb.
  - destruct (afterMastodon body b) as [m|] eqn:Hm.
    + cbn [snd fst]. rewrite postSecrets_run. cbv zeta. fold body.
      cbn [keychain written orElse].
      destruct (steps_idempotent body _ b m Hb Hm) as (-> & -> & ->).
      split; reflexivity.
    + cbn [snd fst]. rewrite postSecrets_run. cbv zeta. fold body.
      rewrite Hb, Hm. split; reflexivity.
  - cbn [snd fst]. rewrite postSecrets_run. cbv zeta. fold body.
    rewrite Hb. split; reflexivity.
Qed.

(* ================================================================== *)
(** ** The resolver and the sanitizers on untyped input *)
(* ================================================================== *)

(** X18: the resolver on a selection of any JSON shape.  A platform is
    asked for when the selection has a truthy property of its name.  A
    block is emitted for exactly the platforms asked for and credentialed,
    [missing] lists exactly the platforms asked for and not credentialed,
    in the order x, bluesky, mastodon, and never both for one platform.
    [selectedCount] counts the truthy values of the selection whatever
    their names, so a selection asking for no known platform resolves to
    no block and nothing missing, with the count of its truthy values. *)
Theorem resolve_untyped_selection (secrets : StoredSecrets) (requested : json) :
  requested <> JNull ->
  let r := resolveTargetsFromSelection secrets (Some requested) in
  (forall p, hasBlock (targets r) p = asksFor requested p && credentialed secrets p)
  /\ missing r
     = map platformName
         (filter (fun p => asksFor requested p && negb (credentialed secrets p))
            platforms)
  /\ (forall p, hasBlock (targets r) p = true -> ~ In (platformName p) (missing r))
  /\ selectedCount r
     = Z.of_nat (List.length (filter (fun v => truthy (Some v))
                                (objectValues requested)))
  /\ ((forall p, asksFor requested p = false) ->
      targets r = noTargets /\ missing r = []).
Proof.
  intros Hnull r.
  assert (Hshape :
            targets r
            = targets (resolveTargetsFromSelection secrets
                         (Some (selectionJson
                                  {| sel_x := asksFor requested PX;
                                     sel_bluesky := asksFor requested PBluesky;
                                     sel_mastodon := asksFor requested PMastodon |})))
            /\ missing r
               = missing (resolveTargetsFromSelection secrets
                            (Some (selectionJson
                                     {| sel_x := asksFor requested PX;
                                        sel_bluesky := asksFor requested PBluesky;
                                        sel_mastodon := asksFor requested PMastodon |})))
            /\ selectedCount r
               = Z.of_nat (List.length (filter (fun v => truthy (Some v))
                                          (objectValues requested)))).
  { unfold r, resolveTargetsFromSelection, asksFor, selectionJson. cbv zeta.
    change (platformName PX) with (js "x").
    change (platformName PBluesky) with (js "bluesky").
    change (platformName PMastodon) with (js "mastodon").
    destruct requested as [| b | n | s | items | props]; [congruence| | | | |];
      cbn [sel_x sel_bluesky sel_mastodon];
      generalize (present (chain (secret_x secrets) xs_authToken)) as hasX;
      generalize (present (chain (secret_bluesky secrets) bs_identifier)
                  && present (chain (secret_bluesky secrets) bs_pdsUrl)
                  && present (chain (secret_bluesky secrets) bs_appPassword))
        as hasBluesky;
      generalize (present (chain (secret_mastodon secrets) ms_instanceUrl)
                  && present (chain (secret_mastodon secrets) ms_accessToken))
        as hasMastodon;
      intros hasMastodon hasBluesky hasX;
      try (destruct hasX, hasBluesky, hasMastodon; repeat split; reflexivity).
    generalize (truthy (getProp (Some (JObj props)) (js "x"))) as wantsX.
    generalize (truthy (getProp (Some (JObj props)) (js "bluesky"))) as wantsBluesky.
    generalize (truthy (getProp (Some (JObj props)) (js "mastodon"))) as wantsMastodon.
    intros wantsMastodon wantsBluesky wantsX.
    destruct wantsX, wantsBluesky, wantsMastodon, hasX, hasBluesky, hasMastodon;
      repeat split; reflexivity. }
  destruct Hshape as (Htargets & Hmissing & Hcount).
  rewrite resolve_selection in Htargets, Hmissing.
  cbn [targets missing sel_x sel_bluesky sel_mastodon] in Htargets, Hmissing.
  assert (Hlist : missing r
                  = map platformName
                      (filter (fun p => asksFor requested p
                                        && negb (credentialed secrets p))
                         platforms)).
  { rewrite Hmissing. reflexivity. }
  assert (Hblock : forall p,
             hasBlock (targets r) p = asksFor requested p && credentialed secrets p).
  { intros p. rewrite Htargets.
    destruct p; cbn [hasBlock target_x target_bluesky target_mastodon].
    - now destruct (asksFor requested PX && credentialed secrets PX).
    - now destruct (asksFor requested PBluesky && credentialed secrets PBluesky).
    - now destruct (asksFor requested PMastodon && credentialed secrets PMastodon). }
  split; [exact Hblock|]. split; [exact Hlist|]. split.
  { intros p Hp Hin. rewrite Hblock in Hp. apply andb_true_iff in Hp as [_ Hcred].
    rewrite Hlist in Hin. apply in_map_iff in Hin as (q & Hname & Hq).
    apply filter_In in Hq as [_ Hq]. apply andb_true_iff in Hq as [_ Hq].
    assert (q = p) as -> by (destruct q, p; vm_compute in Hname; congruence).
    rewrite Hcred in Hq. discriminate. }
  split; [exact Hcount|].
  intros Hnone. split.
  - rewrite Htargets, !Hnone. reflexivity.
  - rewrite Hlist. unfold platforms. cbn [filter]. rewrite !Hnone. reflexivity.
Qed.

Lemma resolve_untyped_selection_witness :
  let r := resolveTargetsFromSelection onlyXSecrets (Some unknownPlatformOnly) in
  selectedCount r = 1 /\ targets r = noTargets /\ missing r = [].
Proof.
  intros r.
  destruct (resolve_untyped_selection onlyXSecrets unknownPlatformOnly)
    as (_ & _ & _ & Hcount & Hnone); [discriminate|].
  split; [exact Hcount|]. apply Hnone. now intros [].
Defined.


(* ================================================================== *)
(** ** POST /api/posts: requests without a payload *)
(* ================================================================== *)

(** X20: a multipart publish request that runs into a limit or has no
    usable payload is answered before anything is resolved or sent, and
    the world is left as it was: the 500 'Publish failed' of the [catch]
    block, with the message of the plugin, when the request has more files
    or a larger file than the registered limits allow; 400 'Missing
    payload' when the collected [payload] field is empty; 400 'Invalid
    payload JSON' when it does not parse; and the 500 'Publish failed' of
    the [catch] block when it parses to [null]. *)
Theorem posts_payload_errors `{Runtime}
  (upstream : UpstreamRequest -> UpstreamResponse + jsstring)
  (request : PostRequest) (w : World) :
  includes (orElse (req_contentType request) []) (js "multipart/form-data") = true ->
  let collected := collectParts (req_parts request) in
  let result := respond (postPosts upstream request) w in
  (collected = inr FilesLimit ->
   result = (problemReply 500 (js "Publish failed") filesLimitMessage, w))
  /\ (collected = inr FileTooLarge ->
      result = (problemReply 500 (js "Publish failed") fileTooLargeMessage, w))
  /\ (forall uploadedMedia,
        collected = inl ([], uploadedMedia) -> result = (missingPayloadReply, w))
  /\ (forall payloadRaw uploadedMedia,
        collected = inl (payloadRaw, uploadedMedia) -> payloadRaw <> [] ->
        JSON_parse payloadRaw = None -> result = (invalidPayloadReply, w))
  /\ (forall payloadRaw uploadedMedia,
        collected = inl (payloadRaw, uploadedMedia) -> payloadRaw <> [] ->
        JSON_parse payloadRaw = Some JNull -> result = (nullPayloadReply, w)).
Proof.
  intros Hmultipart collected result.
  unfold result, collected, postPosts, respond, tryCatch, bind, readConfig,
    readSecrets, ret, send, throw.
  rewrite Hmultipart.
  destruct (collectParts (req_parts request)) as [[raw media]|[|]].
  - split; [discriminate|]. split; [discriminate|]. split.
    { intros uploadedMedia Hcollected. injection Hcollected as -> _. reflexivity. }
    split.
    + intros payloadRaw uploadedMedia Hcollected Hne Hparse.
      injection Hcollected as -> _. destruct payloadRaw as [|c rest]; [congruence|].
      now rewrite Hparse.
    + intros payloadRaw uploadedMedia Hcollected Hne Hparse.
      injection Hcollected as -> _. destruct payloadRaw as [|c rest]; [congruence|].
      now rewrite Hparse.
  - split; [reflexivity|]. repeat split; discriminate.
  - split; [discriminate|]. split; [reflexivity|]. repeat split; discriminate.
Qed.

Lemma posts_payload_errors_witness :
  respond (@postPosts Sample.runtime Sample.gateway fileOnlyRequest) onlyXWorld
  = (missingPayloadReply, onlyXWorld)
  /\ respond (@postPosts Sample.runtime Sample.gateway thirteenFilesRequest) onlyXWorld
     = (problemReply 500 (js "Publish failed") (js "reach files limit"), onlyXWorld).
Proof.
  destruct (@posts_payload_errors Sample.runtime Sample.gateway fileOnlyRequest
              onlyXWorld eq_refl) as (_ & _ & Hmissing & _).
  destruct (@posts_payload_errors Sample.runtime Sample.gateway thirteenFilesRequest
              onlyXWorld eq_refl) as (Hfiles & _).
  split; [exact (Hmissing _ eq_refl)|exact (Hfiles eq_refl)].
Defined.

(* ================================================================== *)
(** ** Trimming and normalizing what is stored *)
(* ================================================================== *)

Lemma dropTrailingSlash_snoc (s : jsstring) (c : char16) :
  dropTrailingSlash (s ++ [c]) = if (c =? 47)%N then s else s ++ [c].
Proof.
  unfold dropTrailingSlash. rewrite rev_app_distr. cbn [rev app].
  destruct (c =? 47)%N; [apply rev_involutive|reflexivity].
Qed.

(** X21: what the helper stores is trimmed and normalized.
    [trimToUndefined] gives nothing for a value that is not a string or is
    blank, and otherwise the trimmed string, which is not empty and which
    it gives back unchanged when applied again.  [normalizeBaseUrl] gives
    nothing for a value that is not a string, is blank or does not parse as
    a URL, and accepts only the protocols http: and https:; white space
    around the string does not change its result; one trailing slash, and
    only one, is removed from the result. *)
Theorem stored_values_normalized `{Runtime} :
  (forall value s,
      trimToUndefined value = Some s <->
      exists raw, value = Some (JStr raw) /\ s = trim raw /\ trim raw <> [])
  /\ (forall value,
        trimToUndefined (option_map JStr (trimToUndefined value))
        = trimToUndefined value)
  /\ (forall input url,
        normalizeBaseUrl input = Some url ->
        exists raw parsed,
          input = Some (JStr raw) /\ trim raw <> []
          /\ URL_new (trim raw) = Some parsed
          /\ (URL_protocol parsed = js "http:" \/ URL_protocol parsed = js "https:"))
  /\ (forall raw,
        normalizeBaseUrl (Some (JStr (trim raw))) = normalizeBaseUrl (Some (JStr raw)))
  /\ (forall s, dropTrailingSlash (s ++ js "/") = s)
  /\ (forall s c, c <> 47%N -> dropTrailingSlash (s ++ [c]) = s ++ [c]).
Proof.
  split.
  { intros value s. unfold trimToUndefined. split.
    - destruct value as [[| | |raw| |]|]; try discriminate.
      destruct (trim raw) as [|c rest] eqn:Htrim; [discriminate|].
      intros Hs. injection Hs as <-. exists raw. rewrite Htrim.
      repeat split. discriminate.
    - intros (raw & -> & -> & Hne). destruct (trim raw); [congruence|reflexivity]. }
  split.
  { intros value. unfold trimToUndefined.
    destruct value as [[| | |raw| |]|]; try reflexivity.
    pose proof (trim_idempotent raw) as Hidem.
    destruct (trim raw) as [|c rest]; [reflexivity|].
    cbn [option_map]. now rewrite Hidem. }
  split.
  { intros input url. unfold normalizeBaseUrl.
    destruct input as [[| | |raw| |]|]; try discriminate.
    destruct (trim raw) as [|c rest] eqn:Htrim; [discriminate|].
    destruct (URL_new (c :: rest)) as [parsed|] eqn:Hparsed; [|discriminate].
    destruct (jseqb (URL_protocol parsed) (js "http:")) eqn:Hhttp.
    - intros _. exists raw, parsed. rewrite Htrim. apply jseqb_eq in Hhttp.
      repeat split; try assumption; [discriminate|now left].
    - destruct (jseqb (URL_protocol parsed) (js "https:")) eqn:Hhttps;
        [|discriminate].
      intros _. exists raw, parsed. rewrite Htrim. apply jseqb_eq in Hhttps.
      repeat split; try assumption; [discriminate|now right]. }
  split.
  { intros raw. unfold normalizeBaseUrl. now rewrite trim_idempotent. }
  split.
  { intros s. apply (dropTrailingSlash_snoc s 47%N). }
  intros s c Hc. rewrite dropTrailingSlash_snoc.
  now destruct (N.eqb_spec c 47).
Qed.

(* ================================================================== *)
(** ** The browser client *)
(* ================================================================== *)

Lemma dropLeadingSlashes_head (s : jsstring) :
  match dropLeadingSlashes s with
  | [] => allSlashes s
  | c :: _ => c <> 47%N
  end.
Proof.
  induction s as [|c rest IH]; [constructor|]. simpl.
  destruct (N.eqb_spec c 47) as [->|Hc]; [|exact Hc].
  destruct (dropLeadingSlashes rest); [now constructor|exact IH].
Qed.

Lemma dropLeadingSlashes_id (c : char16) (s : jsstring) :
  c <> 47%N -> dropLeadingSlashes (c :: s) = c :: s.
Proof. intros Hc. simpl. now destruct (N.eqb_spec c 47). Qed.

Lemma dropLeadingSlashes_snoc (s : jsstring) (c : char16) :
  c <> 47%N -> dropLeadingSlashes (s ++ [c]) = dropLeadingSlashes s ++ [c].
Proof.
  intros Hc. induction s as [|a rest IH]; [now apply dropLeadingSlashes_id|].
  simpl. now destruct (a =? 47)%N.
Qed.

Lemma dropTrailingSlashes_cons (c : char16) (s : jsstring) :
  c <> 47%N -> dropTrailingSlashes (c :: s) = c :: dropTrailingSlashes s.
Proof.
  intros Hc. unfold dropTrailingSlashes. simpl.
  rewrite dropLeadingSlashes_snoc by assumption. rewrite rev_app_distr. reflexivity.
Qed.

Lemma dropTrailingSlashes_last (s front : jsstring) :
  dropTrailingSlashes s <> front ++ [47%N].
Proof.
  unfold dropTrailingSlashes. intros Heq.
  pose proof (dropLeadingSlashes_head (rev s)) as Hhead.
  apply (f_equal (@rev char16)) in Heq. rewrite rev_involutive, rev_app_distr in Heq.
  rewrite Heq in Hhead. now apply Hhead.
Qed.

Lemma dropTrailingSlashes_app (a b : jsstring) (c : char16) :
  c <> 47%N ->
  dropTrailingSlashes (a ++ c :: b) = a ++ c :: dropTrailingSlashes b.
Proof.
  intros Hc. unfold dropTrailingSlashes. rewrite rev_app_distr. cbn [rev].
  rewrite <- app_assoc. cbn [app].
  assert (Hgen : forall x y,
             dropLeadingSlashes (x ++ c :: y) = dropLeadingSlashes x ++ c :: y).
  { induction x as [|e x' IH]; intros y; [now apply dropLeadingSlashes_id|].
    simpl. now destruct (e =? 47)%N. }
  rewrite Hgen, rev_app_distr. cbn [rev]. rewrite rev_involutive, <- app_assoc.
  reflexivity.
Qed.

Lemma dropLeadingSlashes_suffix (s : jsstring) :
  exists prefix, s = prefix ++ dropLeadingSlashes s.
Proof.
  induction s as [|c rest (prefix & IH)]; [now exists []|]. simpl.
  destruct (c =? 47)%N; [|now exists []].
  exists (c :: prefix). cbn [app]. now rewrite <- IH.
Qed.

Lemma dropTrailingSlashes_prefix (s : jsstring) :
  exists suffix, s = dropTrailingSlashes s ++ suffix.
Proof.
  unfold dropTrailingSlashes.
  destruct (dropLeadingSlashes_suffix (rev s)) as (prefix & Hprefix).
  exists (rev prefix). rewrite <- rev_app_distr, <- Hprefix. symmetry.
  apply rev_involutive.
Qed.

Lemma dropAllSlashes (s : jsstring) : allSlashes s -> dropLeadingSlashes s = [].
Proof.
  induction s as [|c rest IH]; [reflexivity|]. intros Hs.
  inversion Hs; subst. simpl. now apply IH.
Qed.

Lemma split_no_separator (sep : char16) (s : jsstring) :
  Forall (fun segment => ~ In sep segment) (split sep s).
Proof.
  induction s as [|c rest IH]; [repeat constructor; now intros []|].
  simpl. destruct (N.eqb_spec c sep) as [->|Hc].
  - constructor; [now intros []|exact IH].
  - destruct (split sep rest) as [|segment more].
    + repeat constructor. intros [Heq|[]]. congruence.
    + inversion IH as [|? ? Hsegment Hmore]; subst. constructor; [|exact Hmore].
      intros [Heq|Hin]; [congruence|now apply Hsegment].
Qed.

Lemma split_segment (sep : char16) (segment rest : jsstring) :
  ~ In sep segment ->
  split sep (segment ++ sep :: rest) = segment :: split sep rest.
Proof.
  induction segment as [|c segment' IH]; intros Hnot.
  - simpl. now rewrite N.eqb_refl.
  - simpl. destruct (N.eqb_spec c sep) as [->|Hc]; [exfalso; apply Hnot; now left|].
    rewrite IH; [reflexivity|]. intros Hin. apply Hnot. now right.
Qed.

Lemma split_whole (sep : char16) (segment : jsstring) :
  ~ In sep segment -> split sep segment = [segment].
Proof.
  induction segment as [|c segment' IH]; intros Hnot; [reflexivity|].
  simpl. destruct (N.eqb_spec c sep) as [->|Hc]; [exfalso; apply Hnot; now left|].
  rewrite IH; [reflexivity|]. intros Hin. apply Hnot. now right.
Qed.

(** X22: the base path of the browser client.  [normalizeBasePath]
    returns the empty string or a slash followed by a string that neither
    begins nor ends with a slash; it returns the lone slash exactly when
    the trimmed input is made of two or more slashes.
    [inferBasePathFromLocation] returns the empty string or a slash
    followed by a segment that is not empty and holds no slash, and for a
    path that begins with a slash and such a segment it returns that
    segment.  [resolveBasePath] returns the empty string or a string that
    begins with a slash, and [withBasePath] puts exactly one slash between
    the base path and a URL given without its leading slash. *)
Theorem base_path_shape :
  (forall input,
      normalizeBasePath input = []
      \/ exists core,
           normalizeBasePath input = js "/" ++ core
           /\ (forall rest, core <> 47%N :: rest)
           /\ (forall front, core <> front ++ [47%N]))
  /\ (forall input,
        normalizeBasePath input = js "/"
        <-> (allSlashes (trim input) /\ (2 <= List.length (trim input))%nat))
  /\ (forall location,
        inferBasePathFromLocation location = []
        \/ exists segment,
             inferBasePathFromLocation location = js "/" ++ segment
             /\ segment <> [] /\ ~ In 47%N segment)
  /\ (forall segment rest,
        segment <> [] -> ~ In 47%N segment ->
        (rest = [] \/ exists rest', rest = 47%N :: rest') ->
        inferBasePathFromLocation (Some (js "/" ++ segment ++ rest))
        = js "/" ++ segment)
  /\ (forall globalValue location,
        resolveBasePath globalValue location = []
        \/ exists rest, resolveBasePath globalValue location = 47%N :: rest)
  /\ (forall base url,
        withBasePath base (js "/" ++ url) = base ++ js "/" ++ url
        /\ (startsWith url (js "/") = false ->
            withBasePath base url = base ++ js "/" ++ url)).
Proof.
  assert (Hnormalize : forall input,
             normalizeBasePath input = []
             \/ exists core,
                  normalizeBasePath input = js "/" ++ core
                  /\ (forall rest, core <> 47%N :: rest)
                  /\ (forall front, core <> front ++ [47%N])).
  { intros input. unfold normalizeBasePath. cbv zeta.
    destruct (_ || _ || _); [now left|]. right.
    exists (dropTrailingSlashes (dropLeadingSlashes (trim input))).
    split; [reflexivity|]. split; [|intros front; apply dropTrailingSlashes_last].
    intros rest Heq. pose proof (dropLeadingSlashes_head (trim input)) as Hhead.
    destruct (dropLeadingSlashes (trim input)) as [|c more]; [discriminate|].
    rewrite dropTrailingSlashes_cons in Heq by assumption. congruence. }
  assert (Hinfer : forall location,
             inferBasePathFromLocation location = []
             \/ exists segment,
                  inferBasePathFromLocation location = js "/" ++ segment
                  /\ segment <> [] /\ ~ In 47%N segment).
  { intros [pathname|]; [|now left]. unfold inferBasePathFromLocation. cbv zeta.
    destruct (_ || _); [now left|].
    pose proof (split_no_separator 47%N (dropTrailingSlashes pathname)) as Hsplit.
    destruct (filter (fun segment : list char16 =>
                        match segment with [] => false | _ => true end)
                (split 47%N (dropTrailingSlashes pathname)))
      as [|first others] eqn:Hsegments; [now left|]. right.
    exists first. split; [reflexivity|].
    assert (Hin : In first (filter (fun segment : list char16 =>
                                      match segment with [] => false | _ => true end)
                              (split 47%N (dropTrailingSlashes pathname))))
      by (rewrite Hsegments; now left).
    apply filter_In in Hin as [Hin Hne]. split.
    - now destruct first.
    - rewrite Forall_forall in Hsplit. now apply Hsplit. }
  split; [exact Hnormalize|]. split.
  { intros input. unfold normalizeBasePath. cbv zeta.
    pose proof (dropLeadingSlashes_head (trim input)) as Hhead.
    destruct (trim input) as [|a [|b rest]] eqn:Htrim.
    - cbn. split; [discriminate|]. intros [_ Hlen]. simpl in Hlen. lia.
    - destruct (N.eqb_spec a 47) as [->|Ha].
      + cbn. split; [discriminate|]. intros [_ Hlen]. simpl in Hlen. lia.
      + replace (jseqb [a] (js "/")) with false
          by (symmetry; destruct (jseqb [a] (js "/")) eqn:He; [|reflexivity];
              apply jseqb_eq in He; injection He as He; contradiction).
        cbn [orb]. split.
        * destruct (jseqb [a] (js "__CROSSPOST_BASE_PATH__")); [discriminate|].
          rewrite dropLeadingSlashes_id by assumption.
          rewrite dropTrailingSlashes_cons by assumption. discriminate.
        * intros [Hall _]. inversion Hall; subst. contradiction.
    - replace (jseqb (a :: b :: rest) (js "/")) with false
        by (symmetry; destruct (jseqb (a :: b :: rest) (js "/")) eqn:He;
            [|reflexivity]; apply jseqb_eq in He; discriminate).
      cbn [orb]. split.
      + destruct (jseqb (a :: b :: rest) (js "__CROSSPOST_BASE_PATH__"));
          [discriminate|].
        intros Heq. split; [|simpl; lia].
        destruct (dropLeadingSlashes (a :: b :: rest)) as [|c more];
          [exact Hhead|].
        rewrite dropTrailingSlashes_cons in Heq by assumption. discriminate.
      + intros [Hall _].
        destruct (jseqb (a :: b :: rest) (js "__CROSSPOST_BASE_PATH__")) eqn:He.
        * apply jseqb_eq in He. rewrite He in Hall. inversion Hall; subst.
          discriminate.
        * rewrite dropAllSlashes by assumption. reflexivity. }
  split; [exact Hinfer|]. split.
  { intros segment rest Hne Hnot Hrest.
    destruct segment as [|c segment']; [congruence|].
    assert (Hc : c <> 47%N) by (intros ->; apply Hnot; now left).
    destruct (exists_last (l := c :: segment') ltac:(discriminate))
      as (front & final & Hfinal).
    assert (Hlast : final <> 47%N).
    { intros ->. apply Hnot. rewrite Hfinal. apply in_app_iff. right. now left. }
    assert (Htrimmed :
              exists rest',
                dropTrailingSlashes (js "/" ++ (c :: segment') ++ rest)
                = 47%N :: (c :: segment') ++ rest'
                /\ (rest' = [] \/ exists more, rest' = 47%N :: more)).
    { rewrite Hfinal.
      replace (js "/" ++ (front ++ [final]) ++ rest)
        with ((47%N :: front) ++ final :: rest)
        by (cbn [app js map list_ascii_of_string]; now rewrite <- app_assoc).
      rewrite dropTrailingSlashes_app by assumption.
      exists (dropTrailingSlashes rest). split.
      - cbn [app]. now rewrite <- app_assoc.
      - destruct Hrest as [->|(rest' & ->)]; [now left|].
        destruct (dropTrailingSlashes_prefix (47%N :: rest')) as (suffix & Hsuffix).
        destruct (dropTrailingSlashes (47%N :: rest')) as [|e more]; [now left|].
        right. injection Hsuffix as <- _. now exists more. }
    unfold inferBasePathFromLocation. cbv zeta.
    destruct Htrimmed as (rest' & -> & Hrest').
    replace (jseqb (js "/" ++ (c :: segment') ++ rest) (js "/")) with false
      by (symmetry;
          destruct (jseqb (js "/" ++ (c :: segment') ++ rest) (js "/")) eqn:He;
          [|reflexivity]; apply jseqb_eq in He; discriminate).
    change (match js "/" ++ (c :: segment') ++ rest with
            | [] => true
            | _ => false
            end) with false.
    cbn [orb].
    change (split 47%N (47%N :: (c :: segment') ++ rest'))
      with ([] :: split 47%N ((c :: segment') ++ rest')).
    cbn [filter].
    destruct Hrest' as [->|(more & ->)].
    - rewrite app_nil_r, split_whole by assumption. reflexivity.
    - rewrite split_segment by assumption. reflexivity. }
  split.
  { intros globalValue location. unfold resolveBasePath. cbv zeta.
    assert (Hinject : forall s,
               normalizeBasePath s = [] \/ exists rest, normalizeBasePath s = 47%N :: rest).
    { intros s. destruct (Hnormalize s) as [->|(core & -> & _)]; [now left|].
      right. now exists core. }
    assert (Hlocation :
              inferBasePathFromLocation location = []
              \/ exists rest, inferBasePathFromLocation location = 47%N :: rest).
    { destruct (Hinfer location) as [->|(segment & -> & _)]; [now left|].
      right. now exists segment. }
    destruct globalValue as [[| | |s| |]|]; try exact Hlocation.
    destruct (Hinject s) as [->|(rest & ->)]; [exact Hlocation|].
    right. now exists rest. }
  intros base url. unfold withBasePath. split; [now destruct url|].
  intros ->. reflexivity.
Qed.

(** X23: the outcomes of [request] in the browser client.  It lets a
    [SyntaxError] through exactly for a body that is not empty and does not
    parse under a JSON content type.  It resolves only for a response that
    is ok, and throws an [ApiError] only for one that is not, with the
    status of the response and with the parsed body as problem object when
    that is an object or an array.  The message of the error is the
    [detail] of the problem object when it has one that is not [null],
    else its [title] when it has one that is not [null], else 'Request
    failed with status' and the status; a response whose content type does
    not contain application/json, as application/problem+json does not,
    always gets the last message and no problem object. *)
Theorem request_outcomes `{Runtime} (response : HttpResponse) :
  let contentType := orElse (res_contentType response) [] in
  (request response = SyntaxError
   <-> includes contentType (js "application/json") = true
       /\ res_text response <> [] /\ JSON_parse (res_text response) = None)
  /\ (forall parsed, request response = Resolved_ parsed -> res_ok response = true)
  /\ (forall message status problem,
        request response = ApiError message status problem ->
        res_ok response = false /\ status = res_status response)
  /\ (forall props detail,
        res_ok response = false -> parseBody response = Some (JObj props) ->
        lookup (js "detail") props = Some (JStr detail) ->
        request response = ApiError detail (res_status response) (Some (JObj props)))
  /\ (forall props title,
        res_ok response = false -> parseBody response = Some (JObj props) ->
        nullish (lookup (js "detail") props) = true ->
        lookup (js "title") props = Some (JStr title) ->
        request response = ApiError title (res_status response) (Some (JObj props)))
  /\ (res_ok response = false ->
      includes contentType (js "application/json") = false ->
      request response = ApiError (statusMessage response) (res_status response) None)
  /\ (res_ok response = false ->
      res_contentType response = Some (js "application/problem+json") ->
      request response = ApiError (statusMessage response) (res_status response) None)
  /\ (forall parsed,
        res_ok response = false -> parseBody response = Some parsed ->
        let problem :=
          match parsed with
          | JObj _ | JArr _ => Some parsed
          | _ => None
          end in
        exists message,
          request response = ApiError message (res_status response) problem
          /\ (nullish (getProp problem (js "detail")) = false ->
              message = messageOf (orElse (getProp problem (js "detail")) JNull))
          /\ (nullish (getProp problem (js "detail")) = true ->
              nullish (getProp problem (js "title")) = false ->
              message = messageOf (orElse (getProp problem (js "title")) JNull))
          /\ (nullish (getProp problem (js "detail")) = true ->
              nullish (getProp problem (js "title")) = true ->
              message = statusMessage response)).
Proof.
  intros contentType.
  assert (Hplain : res_ok response = false ->
                   includes contentType (js "application/json") = false ->
                   request response
                   = ApiError (statusMessage response) (res_status response) None).
  { intros Hok Hct. unfold request, parseBody. cbv zeta. fold contentType.
    rewrite Hct, Hok. reflexivity. }
  split.
  { unfold request, parseBody. cbv zeta. fold contentType.
    destruct (includes contentType (js "application/json")).
    - destruct (res_text response) as [|c rest] eqn:Htext.
      + split; [destruct (negb (res_ok response)); discriminate|].
        intros (_ & Hne & _). congruence.
      + destruct (JSON_parse (c :: rest)) as [parsed|].
        * split; [destruct (negb (res_ok response)); discriminate|].
          intros (_ & _ & ?). discriminate.
        * split; [|reflexivity]. intros _. repeat split. discriminate.
    - split; [destruct (negb (res_ok response)); discriminate|].
      intros (? & _). discriminate. }
  split.
  { intros parsed. unfold request. destruct (parseBody response); [|discriminate].
    destruct (res_ok response); [reflexivity|discriminate]. }
  split.
  { intros message status problem. unfold request.
    destruct (parseBody response); [|discriminate].
    destruct (res_ok response); [discriminate|]. cbn [negb]. cbv iota zeta.
    intros Herror. injection Herror as _ <- _. now split. }
  split.
  { intros props detail Hok Hparsed Hdetail. unfold request.
    rewrite Hparsed, Hok. cbn [negb]. cbv iota zeta. cbn [getProp].
    rewrite Hdetail. reflexivity. }
  split.
  { intros props title Hok Hparsed Hdetail Htitle. unfold request.
    rewrite Hparsed, Hok. cbn [negb]. cbv iota zeta. cbn [getProp].
    rewrite Hdetail, Htitle. reflexivity. }
  split; [exact Hplain|].
  split.
  { intros Hok Hct. apply Hplain; [exact Hok|]. unfold contentType. rewrite Hct.
    reflexivity. }
  intros parsed Hok Hparsed problem. unfold request. rewrite Hparsed, Hok.
  cbn [negb]. cbv iota zeta. fold problem. eexists. split; [reflexivity|].
  destruct (nullish (getProp problem (js "detail")));
    destruct (nullish (getProp problem (js "title")));
    cbn [negb]; repeat split; intros; try discriminate; reflexivity.
Qed.

Lemma request_outcomes_witness :
  @request Sample.runtime relayedProblem
  = ApiError (js "Request failed with status 404") 404 None
  /\ @request Sample.runtime emptyObjectError
     = ApiError (js "Request failed with status 500") 500 (Some (JObj [])).
Proof.
  destruct (@request_outcomes Sample.runtime relayedProblem)
    as (_ & _ & _ & _ & _ & _ & Hrelayed & _).
  destruct (@request_outcomes Sample.runtime emptyObjectError)
    as (_ & _ & _ & _ & _ & _ & _ & Hparsed).
  split; [exact (Hrelayed eq_refl eq_refl)|].
  destruct (Hparsed (JObj []) eq_refl eq_refl) as (message & -> & _ & _ & Hstatus).
  now rewrite (Hstatus eq_refl eq_refl).
Defined.

(* ================================================================== *)
(** ** The gateway payload: optional fields *)
(* ================================================================== *)

(** X24: the optional fields of the gateway payload, for a client payload
    of any JSON shape.  The client request id is what [trimToUndefined]
    makes of the client's value: the trimmed string when it is a string
    that is not blank, nothing otherwise.  The scheduled date is kept
    exactly when the client's value is a string that is not blank, and it
    is then passed on as sent, without trimming. *)
Theorem gateway_payload_optional_fields `{Runtime} (clientPayload : json)
  (targets : Targets) :
  let payload := buildGatewayPayload clientPayload targets in
  gp_clientRequestId payload
  = trimToUndefined (getProp (Some clientPayload) (js "clientRequestId"))
  /\ (forall s,
        gp_scheduleAt payload = Some s
        <-> getProp (Some clientPayload) (js "scheduleAt") = Some (JStr s)
            /\ trim s <> [])
  /\ (forall id, gp_clientRequestId payload = Some id -> id <> [] /\ trim id = id).
Proof.
  intros payload.
  assert (Hid : gp_clientRequestId payload
                = trimToUndefined (getProp (Some clientPayload) (js "clientRequestId"))).
  { unfold payload, buildGatewayPayload, trimToUndefined. cbn [gp_clientRequestId].
    destruct (getProp (Some clientPayload) (js "clientRequestId"))
      as [[| | |raw| |]|]; try reflexivity.
    now destruct (trim raw). }
  split; [exact Hid|]. split.
  - intros s. unfold payload, buildGatewayPayload. cbn [gp_scheduleAt].
    destruct (getProp (Some clientPayload) (js "scheduleAt")) as [[| | |raw| |]|];
      try (split; [discriminate|intros [? _]; discriminate]).
    destruct (trim raw) as [|c rest] eqn:Htrim.
    + cbn. split; [discriminate|]. intros [Hs Hne]. injection Hs as <-. congruence.
    + change (0 <? Z.of_nat (List.length (c :: rest))) with true. cbv iota. split.
      * intros Hs. injection Hs as <-. rewrite Htrim. split; [reflexivity|discriminate].
      * intros [Hs _]. now injection Hs as <-.
  - intros id. rewrite Hid. unfold trimToUndefined.
    destruct (getProp (Some clientPayload) (js "clientRequestId"))
      as [[| | |raw| |]|]; try discriminate.
    pose proof (trim_idempotent raw) as Hidem.
    destruct (trim raw) as [|c rest]; [discriminate|].
    intros Hs. injection Hs as <-. split; [discriminate|exact Hidem].
Qed.
